(** * freecad.gears: gear outline assembly and solid strategy

    A shallow embedding of [freecad/gears/features.py].  Python floats are
    taken as real numbers, except where a branch or an exception is decided
    by rounding or by a value that is no number: there the rounding and the
    numpy functions are parameters ([Float], [np]).  Python exceptions are
    the [Raise] results of a small error monad; the FreeCAD [Part] kernel is
    a datatype of requests. *)

From Stdlib Require Import Reals Lra Lia ZArith List Bool.
From Stdlib Require Import Machin Factorial.
Import ListNotations.
Open Scope R_scope.
Set Warnings "-register-all".

(** ** Python values and exceptions *)

Module Py.

(** The exceptions met here.  The first three are Python's own;
    [InvalidParameter] is the category under which a tooth generator
    rejects its parameters. *)
Inductive exn : Set :=
| ZeroDivisionError
| ValueError
| IndexError
| InvalidParameter.

Inductive result (A : Type) : Type :=
| Ok (a : A)
| Raise (e : exn).
Arguments Ok {A} a.
Arguments Raise {A} e.

Definition bind {A B} (c : result A) (k : A -> result B) : result B :=
  match c with
  | Ok a => k a
  | Raise e => Raise e
  end.

(** [bool] used as a number: [True] is 1 and [False] is 0. *)
Definition of_bool (b : bool) : R := if b then 1 else 0.

(** [x / y] on Python numbers. *)
Definition truediv (x y : R) : result R :=
  if Req_dec_T y 0 then Raise ZeroDivisionError else Ok (x / y).

(** [math.atan2 y x]. *)
Definition math_atan2 (y x : R) : R :=
  if Rlt_dec 0 x then atan (y / x)
  else if Rlt_dec x 0 then
    (if Rle_dec 0 y then atan (y / x) + PI else atan (y / x) - PI)
  else if Rlt_dec 0 y then PI / 2
  else if Rlt_dec y 0 then - PI / 2
  else 0.

(** [x < y] as a condition. *)
Definition ltb (x y : R) : bool := if Rlt_dec x y then true else false.

(** [x ** 0.5], on a base that is not negative. *)
Definition pow_half (x : R) : R := sqrt x.

(** A loop body run over a list, stopping at the first exception. *)
Fixpoint foldM {A S} (f : S -> A -> result S) (l : list A) (s : S)
  : result S :=
  match l with
  | [] => Ok s
  | a :: l' => bind (f s a) (foldM f l')
  end.

(** A list comprehension whose element expression may raise. *)
Fixpoint mapM {A B} (f : A -> result B) (l : list A) : result (list B) :=
  match l with
  | [] => Ok []
  | a :: l' =>
      bind (f a) (fun b => bind (mapM f l') (fun bs => Ok (b :: bs)))
  end.

(** [range(n)] as the list of its indices. *)
Definition range (n : Z) : list Z := map Z.of_nat (seq 0 (Z.to_nat n)).

End Py.
Export Py.

Declare Scope py_scope.
Delimit Scope py_scope with py.
Notation "x <- c ;; k" := (bind c (fun x => k))
  (at level 61, c at next level, right associativity) : py_scope.
Notation "' pat <- c ;; k" := (bind c (fun x => match x with pat => k end))
  (at level 61, pat pattern, c at next level, right associativity) : py_scope.
Open Scope py_scope.

(** ** Outline assembly

    The loop shared, line for line, by [InvoluteGear.generate_gear_shape],
    [CycloidGear.generate_gear_shape] and [BevelGear.generate_gear_shape]:
<<
        rotated_pts = pts
        for i in range(z - 1):
            rotated_pts = list(map(rot, rotated_pts))
            pts.append(np.array([pts[-1][-1], rotated_pts[0][0]]))
            pts += rotated_pts
        pts.append(np.array([pts[-1][-1], pts[0][0]]))
>>
    [pts] is a Python list that is mutated in place; [rotated_pts] aliases it
    only until the first rebinding, which happens before the first mutation,
    so the loop state is the pair of the two lists. *)

Module Outline.
Section Assembler.

(** A point is a numpy row; a polyline is one numpy array of points. *)
Variable point : Type.
Definition polyline : Type := list point.

(** [rot], the function returned by [pygears._functions.rotation]: it maps
    a whole array of points. *)
Variable rot : polyline -> polyline.

Definition last_opt {A} (l : list A) : option A :=
  match rev l with
  | [] => None
  | x :: _ => Some x
  end.

(** [pts[-1][-1]] *)
Definition last_point (pts : list polyline) : result point :=
  match last_opt pts with
  | None => Raise IndexError
  | Some l =>
      match last_opt l with
      | None => Raise IndexError
      | Some p => Ok p
      end
  end.

(** [pts[0][0]] *)
Definition first_point (pts : list polyline) : result point :=
  match pts with
  | [] => Raise IndexError
  | l :: _ =>
      match l with
      | [] => Raise IndexError
      | p :: _ => Ok p
      end
  end.

(** One pass through the loop body, on the state [(pts, rotated_pts)]. *)
Definition step (st : list polyline * list polyline)
  : result (list polyline * list polyline) :=
  let '(pts, rotated_pts) := st in
  let rotated_pts := map rot rotated_pts in
  a <- last_point pts ;;
  b <- first_point rotated_pts ;;
  Ok ((pts ++ [[a; b]]) ++ rotated_pts, rotated_pts).

Fixpoint loop (n : nat) (st : list polyline * list polyline)
  : result (list polyline * list polyline) :=
  match n with
  | O => Ok st
  | S k => st' <- step st ;; loop k st'
  end.

Definition assemble (z : Z) (tooth : list polyline) : result (list polyline) :=
  '(pts, _) <- loop (Z.to_nat (z - 1)) (tooth, tooth) ;;
  a <- last_point pts ;;
  b <- first_point pts ;;
  Ok (pts ++ [[a; b]]).

(** The [k]-th copy of the tooth: the tooth rotated [k] times. *)
Fixpoint copy (tooth : list polyline) (k : nat) : list polyline :=
  match k with
  | O => tooth
  | S j => map rot (copy tooth j)
  end.

(** The outline as a sequence of [z] sectors, each a copy followed by the
    segment that joins it to the next copy (the first one, after the last). *)
Definition sectors (z : nat) (tooth : list polyline)
           (first last : nat -> point) : list polyline :=
  flat_map (fun k => copy tooth k ++ [[last k; first (S k mod z)%nat]])
           (seq 0 z).

(** What [pts] holds after [n] passes through the loop: the first [n]
    copies with their joining segments, then copy [n]. *)
Definition partial (tooth : list polyline) (first last : nat -> point)
           (n : nat) : list polyline :=
  flat_map (fun k => copy tooth k ++ [[last k; first (S k)]]) (seq 0 n)
  ++ copy tooth n.

(** The end points of the first [z] copies: [first k] and [last k] are
    [copy k [0][0]] and [copy k [-1][-1]]. *)
Definition ends (tooth : list polyline) (z : nat)
           (first last : nat -> point) : Prop :=
  forall k, (k < z)%nat ->
    first_point (copy tooth k) = Ok (first k) /\
    last_point (copy tooth k) = Ok (last k).

End Assembler.

Arguments last_point {point} pts.
Arguments first_point {point} pts.
Arguments step {point} rot st.
Arguments loop {point} rot n st.
Arguments assemble {point} rot z tooth.
Arguments copy {point} rot tooth k.
Arguments sectors {point} rot z tooth first last.
Arguments partial {point} rot tooth first last n.
Arguments ends {point} rot tooth z first last.

End Outline.

(** ** numpy *)

Module np.

(** [np.sqrt] and [np.arccos] return nan, which is no real number, where
    the real function is not defined.  The two are parameters: on the
    domain they are the real functions, and nothing is assumed about
    their value outside it. *)
Class Ufuncs : Type := {
  sqrt : R -> R;
  arccos : R -> R;
  sqrt_real : forall x, 0 <= x -> sqrt x = R_sqrt.sqrt x;
  arccos_real : forall x, -1 <= x <= 1 -> arccos x = acos x
}.

Definition deg2rad (x : R) : R := x * (PI / 180).
Definition rad2deg (x : R) : R := x * (180 / PI).

(** The [num] evenly spaced samples from [start] to [stop]. *)
Definition samples (start stop : R) (num : nat) : list R :=
  map (fun k => start + INR k * ((stop - start) / (INR num - 1)))
      (seq 0 num).

(** [np.linspace(start, stop, num)]: a negative [num] is rejected. *)
Definition linspace (start stop : R) (num : Z) : result (list R) :=
  if (num <? 0)%Z then Raise ValueError
  else Ok (samples start stop (Z.to_nat num)).

End np.

(** ** Floating-point arithmetic

    A Python float is a double: an operation returns its exact result
    rounded, and a function of the C library returns a double near the
    exact value.  Where a branch or an exception of the code is decided by
    the rounding, the operations are written out with it.  That is so for
    the pressure angle of the hypocycloid cam: at 0 degrees the exact
    argument of [math.asin] is 1, the edge of its domain, whatever the
    drive.  Elsewhere floats are taken as real numbers. *)

Module Float.

(** The rounding and the library functions are parameters.  Of the
    rounding nothing is assumed but that the radicand of the pressure
    angle, about [3 - 2.83 * cos a], is not negative, so that its power
    [0.5] is a float and not a complex number. *)
Class Arithmetic : Type := {
  (* the double that an operation with the exact result [x] returns *)
  fl : R -> R;
  (* [x ** y] on floats *)
  pow : R -> R -> R;
  (* [math.cos], and [math.asin] on its domain *)
  cos : R -> R;
  asin : R -> R;
  radicand_not_negative :
    forall a,
      0 <= fl (fl (pow (pow 2 0.5) 2 + 1) - fl (fl (2 * pow 2 0.5) * cos a))
}.

Section Operations.

Context {A : Arithmetic}.

(** [x / y] on floats. *)
Definition truediv (x y : R) : result R :=
  if Req_dec_T y 0 then Raise ZeroDivisionError else Ok (fl (x / y)).

(** [math.asin]. *)
Definition math_asin (x : R) : result R :=
  if Rlt_dec x (-1) then Raise ValueError
  else if Rlt_dec 1 x then Raise ValueError
  else Ok (asin x).

(** [math.pi] *)
Definition pi : R := fl PI.

End Operations.

(** Arithmetic without rounding, on the real functions. *)
Definition exact : Arithmetic.
Proof.
  refine {| fl := fun x => x;
            pow := Rpower;
            cos := Rtrigo_def.cos;
            asin := Ratan.asin;
            radicand_not_negative := _ |}.
  intros a.
  assert (H2 : Rpower 2 0.5 = R_sqrt.sqrt 2).
  { replace 0.5 with (/ 2) by lra. apply Rpower_sqrt. lra. }
  assert (H3 : Rpower (Rpower 2 0.5) 2 = 2).
  { rewrite Rpower_mult. replace (0.5 * 2) with 1 by lra.
    apply Rpower_1. lra. }
  rewrite H3, H2.
  assert (Q : R_sqrt.sqrt 2 * R_sqrt.sqrt 2 = 2) by (apply sqrt_def; lra).
  assert (P := sqrt_pos 2). assert (C := COS_bound a).
  assert (B : R_sqrt.sqrt 2 < 3 / 2) by nra.
  destruct C as [C1 C2]. nra.
Defined.

End Float.

(** ** The FreeCAD side

    [App.Vector], [App.Matrix] and the requests made to the [Part] kernel.
    The kernel is an external collaborator: a request is recorded as a term
    and never evaluated here. *)

Module App.

Inductive Vector : Type := vec (x y z : R).

Definition vx (v : Vector) : R := let '(vec x _ _) := v in x.
Definition vy (v : Vector) : R := let '(vec _ y _) := v in y.
Definition vz (v : Vector) : R := let '(vec _ _ z) := v in z.

(** [Vector.cross] and [Vector.Length]. *)
Definition cross (a b : Vector) : Vector :=
  vec (vy a * vz b - vz a * vy b)
      (vz a * vx b - vx a * vz b)
      (vx a * vy b - vy a * vx b).
Definition Length (v : Vector) : R :=
  sqrt (vx v * vx v + vy v * vy v + vz v * vz v).

(** The mirror image in the plane [z = 0], and the opposite vector. *)
Definition mirror_z (v : Vector) : Vector := vec (vx v) (vy v) (- vz v).
Definition opp (v : Vector) : Vector := vec (- vx v) (- vy v) (- vz v).

(** The point [v] turned by the angle [a] about the vertical axis through
    [c]. *)
Definition rotate_about (c : Vector) (a : R) (v : Vector) : Vector :=
  vec (vx c + (cos a * (vx v - vx c) - sin a * (vy v - vy c)))
      (vy c + (sin a * (vx v - vx c) + cos a * (vy v - vy c)))
      (vz v).

(** [App.Matrix]: the rows of the linear part and the translation column of
    an affine map.  [rotateZ] and [move] compose on the left, so the map
    built last is applied last. *)
Record Matrix : Type := mkMatrix {
  A11 : R; A12 : R; A13 : R; A14 : R;
  A21 : R; A22 : R; A23 : R; A24 : R;
  A31 : R; A32 : R; A33 : R; A34 : R
}.

Definition identity : Matrix :=
  mkMatrix 1 0 0 0
           0 1 0 0
           0 0 1 0.

Definition rotateZ (a : R) (m : Matrix) : Matrix :=
  mkMatrix
    (cos a * A11 m - sin a * A21 m) (cos a * A12 m - sin a * A22 m)
    (cos a * A13 m - sin a * A23 m) (cos a * A14 m - sin a * A24 m)
    (sin a * A11 m + cos a * A21 m) (sin a * A12 m + cos a * A22 m)
    (sin a * A13 m + cos a * A23 m) (sin a * A14 m + cos a * A24 m)
    (A31 m) (A32 m) (A33 m) (A34 m).

Definition move (v : Vector) (m : Matrix) : Matrix :=
  mkMatrix
    (A11 m) (A12 m) (A13 m) (A14 m + vx v)
    (A21 m) (A22 m) (A23 m) (A24 m + vy v)
    (A31 m) (A32 m) (A33 m) (A34 m + vz v).

Definition set_A33 (a : R) (m : Matrix) : Matrix :=
  mkMatrix
    (A11 m) (A12 m) (A13 m) (A14 m)
    (A21 m) (A22 m) (A23 m) (A24 m)
    (A31 m) (A32 m) a (A34 m).

(** The image of a point under the affine map. *)
Definition apply (m : Matrix) (v : Vector) : Vector :=
  vec (A11 m * vx v + A12 m * vy v + A13 m * vz v + A14 m)
      (A21 m * vx v + A22 m * vy v + A23 m * vz v + A24 m)
      (A31 m * vx v + A32 m * vy v + A33 m * vz v + A34 m).

End App.

Module Part.

Import App.

Inductive Shape : Type :=
| BSplineCurve (pts : list Vector)
    (* BSplineCurve().interpolate(pts), then toShape() *)
| Arc (p1 p12 p2 : Vector)
| makeCircle (radius : R) (center : Vector)
| Wire (parts : list Shape)
| Face (wires : list Shape)
| extrude (s : Shape) (v : Vector)
| makeCylinder (radius height : R)
| makeHelix (pitch height radius angle : R) (lefthand : bool)
| makePipeShell (spine : Shape) (profiles : list Shape) (solid frenet : bool)
| makeLoft (profiles : list Shape) (solid ruled : bool)
| mirror (s : Shape) (base normal : Vector)
| makeShell (faces : list Shape)
| makeSolid (shell : Shape)
| cut (s : Shape) (tools : list Shape)
| makeCompound (parts : list Shape)
| translate (s : Shape) (v : Vector)
| transformGeometry (s : Shape) (m : Matrix).

(** Does a request build a solid: an extrusion, a sweep, a loft, a solid
    primitive or a re-solidified shell, at the top or below it. *)
Fixpoint builds_solid (s : Shape) : bool :=
  match s with
  | BSplineCurve _ | Arc _ _ _ | makeCircle _ _ | makeHelix _ _ _ _ _ => false
  | Wire l | Face l | makeCompound l | makeShell l => existsb builds_solid l
  | extrude _ _ | makeCylinder _ _ | makePipeShell _ _ _ _
  | makeLoft _ _ _ | makeSolid _ => true
  | mirror t _ _ | translate t _ | transformGeometry t _ => builds_solid t
  | cut t l => builds_solid t || existsb builds_solid l
  end.

(** What the kernel is asked about a shape it has built. *)
Class Queries : Type := {
  Faces : Shape -> list Shape;
  normalAt : Shape -> R -> R -> Vector;
  CenterOfMass : Shape -> Vector
}.

End Part.

(** ** Module-level helpers of [features.py] *)

(** A numpy point: a row of two or of three coordinates. *)
Inductive ndpoint : Type :=
| P2 (x y : R)
| P3 (x y z : R).

Definition fcvec (x : ndpoint) : App.Vector :=
  match x with
  | P2 x0 x1 => App.vec x0 x1 0
  | P3 x0 x1 x2 => App.vec x0 x1 x2
  end.

Definition make_bspline_wire (pts : list (list ndpoint)) : Part.Shape :=
  Part.Wire (map (fun i => Part.BSplineCurve (map fcvec i)) pts).

(** [wire = wire.transformGeometry(rot); wires.append(wire)], [n] times:
    the loop that replicates a tooth wire in [TimingGear] and
    [HypoCycloidGear]. *)
Fixpoint replicate (n : nat) (rot : App.Matrix) (wire : Part.Shape)
  : list Part.Shape :=
  match n with
  | O => []
  | S k =>
      let wire := Part.transformGeometry wire rot in
      wire :: replicate k rot wire
  end.

Section Helical.

Context {Q : Part.Queries}.

Definition on_mirror_plane (face : Part.Shape) (z : R)
           (direction : App.Vector) (small_size : R) : bool :=
  (if Rlt_dec (App.Length (App.cross (Part.normalAt face 0 0) direction))
              small_size then true else false)
  && (if Rlt_dec (Rabs (App.vz (Part.CenterOfMass face) - z)) small_size
      then true else false).

Definition default_small_size : R := 1 / 1000000.

Definition helicalextrusion (wire : Part.Shape) (height angle : R)
           (double_helix : bool) : Part.Shape :=
  let direction := if Rlt_dec angle 0 then true else false in
  if double_helix then
    let first_spine :=
      Part.makeHelix (height * 2 * PI / Rabs angle) (0.5 * height) 10 0
                     direction in
    let first_solid := Part.makePipeShell first_spine [wire] true true in
    let second_solid :=
      Part.mirror first_solid (fcvec (P3 0 0 0)) (fcvec (P3 0 0 1)) in
    let faces := Part.Faces first_solid ++ Part.Faces second_solid in
    let faces :=
      filter (fun f => negb (on_mirror_plane f 0 (fcvec (P3 0 0 1))
                                             default_small_size))
             faces in
    let solid := Part.makeSolid (Part.makeShell faces) in
    let mat := App.move (fcvec (P3 0 0 (0.5 * height))) App.identity in
    Part.transformGeometry solid mat
  else
    let first_spine :=
      Part.makeHelix (height * 2 * PI / Rabs angle) height 10 0 direction in
    Part.makePipeShell first_spine [wire] true true.

End Helical.

(** ** The [pygears] package

    The tooth classes and the helpers of [pygears._functions] that
    [features.py] imports.  The attributes are those [features.py] writes and
    reads; the behaviour of the methods is the interface [Library]. *)

Module pygears.

Record InvoluteTooth : Type := mkInvoluteTooth {
  it_double_helix : bool;
  it_m_n : R;
  it_z : Z;
  it_undercut : bool;
  it_shift : R;
  it_pressure_angle : R;
  it_beta : R;
  it_clearance : R;
  it_backlash : R;
  it_head : R;
  it_properties_from_tool : bool;
  (* computed by _update *)
  it_d : R;
  it_dw : R;
  it_phipart : R
}.

Record CycloidTooth : Type := mkCycloidTooth {
  ct_m : R;
  ct_z : Z;
  ct_z1 : R;
  ct_z2 : R;
  ct_clearance : R;
  ct_head : R;
  ct_backlash : R;
  (* computed by _update *)
  ct_d : R;
  ct_phipart : R
}.

Record BevelTooth : Type := mkBevelTooth {
  bt_z : Z;
  bt_module : R;
  bt_pressure_angle : R;
  bt_pitch_angle : R;
  bt_backlash : R;
  bt_clearance : R
}.

Class Library : Type := {
  rotation : R -> list ndpoint -> list ndpoint;
  rotation3D : R -> list ndpoint -> list ndpoint;
  (* the same function called on a single row *)
  rotation3D_point : R -> ndpoint -> ndpoint;
  reflection : R -> ndpoint -> ndpoint;
  arc_from_points_and_center :
    ndpoint -> ndpoint -> ndpoint -> ndpoint * ndpoint * ndpoint;
  InvoluteTooth_update : InvoluteTooth -> result InvoluteTooth;
  InvoluteTooth_points : InvoluteTooth -> Z -> result (list (list ndpoint));
  CycloidTooth_update : CycloidTooth -> result CycloidTooth;
  CycloidTooth_points : CycloidTooth -> Z -> result (list (list ndpoint));
  BevelTooth_update : BevelTooth -> result BevelTooth;
  BevelTooth_points : BevelTooth -> Z -> result (list (list ndpoint))
}.

End pygears.

(** ** [class InvoluteGear] *)

Module InvoluteGear.
Section Generate.

Import pygears.
Context {L : Library} {Q : Part.Queries}.

(** The properties of the document object [fp].  [properties_from_tool]
    is missing from documents of older versions. *)
Record FeaturePython : Type := mkFeaturePython {
  simple : bool;
  teeth : Z;
  module : R;
  undercut : bool;
  shift : R;
  height : R;
  pressure_angle : R;
  clearance : R;
  numpoints : Z;
  beta : R;
  double_helix : bool;
  backlash : R;
  reversed_backlash : bool;
  head : R;
  properties_from_tool : option bool;
  gear : InvoluteTooth
}.

(** The value assigned to [fp.gear.backlash]. *)
Definition gear_backlash (fp : FeaturePython) : R :=
  backlash fp * (- of_bool (reversed_backlash fp) + 0.5) * 2.

(** [fp.gear] after the assignments, just before [fp.gear._update()]. *)
Definition configured (fp : FeaturePython) : InvoluteTooth :=
  {| it_double_helix := double_helix fp;
     it_m_n := module fp;
     it_z := teeth fp;
     it_undercut := undercut fp;
     it_shift := shift fp;
     it_pressure_angle := pressure_angle fp * PI / 180;
     it_beta := beta fp * PI / 180;
     it_clearance := clearance fp;
     it_backlash := gear_backlash fp;
     it_head := head fp;
     it_properties_from_tool :=
       match properties_from_tool fp with
       | Some b => b
       | None => it_properties_from_tool (gear fp)
       end;
     it_d := it_d (gear fp);
     it_dw := it_dw (gear fp);
     it_phipart := it_phipart (gear fp) |}.

(** Down to the closing [pts.append]: the updated tooth and the outline.
    The computed properties that are only displayed ([dw],
    [transverse_pitch], [da], [df]) do not reach the shape and are left
    out. *)
Definition outline (fp : FeaturePython)
  : result (InvoluteTooth * list (list ndpoint)) :=
  g <- InvoluteTooth_update (configured fp) ;;
  pts <- InvoluteTooth_points g (numpoints fp) ;;
  pts <- Outline.assemble (rotation (- it_phipart g)) (it_z g) pts ;;
  Ok (g, pts).

Definition generate_gear_shape (fp : FeaturePython) : result Part.Shape :=
  '(g, pts) <- outline fp ;;
  if negb (simple fp) then
    let wi :=
      Part.Wire (map (fun i => Part.BSplineCurve (map fcvec i)) pts) in
    if Req_dec_T (height fp) 0 then Ok wi
    else if Req_dec_T (beta fp) 0 then
      Ok (Part.extrude (Part.Face [wi]) (App.vec 0 0 (height fp)))
    else
      Ok (helicalextrusion wi (height fp)
            (height fp * tan (it_beta g) * 2 / it_d g) (double_helix fp))
  else
    let rw := it_dw g / 2 in
    Ok (Part.makeCylinder rw (height fp)).

End Generate.
End InvoluteGear.

(** ** [class CycloidGear] *)

Module CycloidGear.
Section Generate.

Import pygears.
Context {L : Library} {Q : Part.Queries}.

(** The properties of [fp].  [head] is missing from documents of older
    versions, and is then added with the value 0. *)
Record FeaturePython : Type := mkFeaturePython {
  teeth : Z;
  module : R;
  inner_diameter : R;
  outer_diameter : R;
  height : R;
  double_helix : bool;
  clearance : R;
  head : option R;
  numpoints : Z;
  beta : R;
  backlash : R;
  gear : CycloidTooth
}.

Definition configured (fp : FeaturePython) : CycloidTooth :=
  {| ct_m := module fp;
     ct_z := teeth fp;
     ct_z1 := inner_diameter fp;
     ct_z2 := outer_diameter fp;
     ct_clearance := clearance fp;
     ct_head := match head fp with Some h => h | None => 0 end;
     ct_backlash := backlash fp;
     ct_d := ct_d (gear fp);
     ct_phipart := ct_phipart (gear fp) |}.

Definition outline (fp : FeaturePython)
  : result (CycloidTooth * list (list ndpoint)) :=
  g <- CycloidTooth_update (configured fp) ;;
  pts <- CycloidTooth_points g (numpoints fp) ;;
  pts <- Outline.assemble (rotation (- ct_phipart g)) (ct_z g) pts ;;
  Ok (g, pts).

Definition generate_gear_shape (fp : FeaturePython) : result Part.Shape :=
  '(g, pts) <- outline fp ;;
  let wi := Part.Wire (map (fun i => Part.BSplineCurve (map fcvec i)) pts) in
  if Req_dec_T (height fp) 0 then Ok wi
  else if Req_dec_T (beta fp) 0 then
    Ok (Part.extrude (Part.Face [wi]) (App.vec 0 0 (height fp)))
  else
    Ok (helicalextrusion wi (height fp)
          (height fp * tan (beta fp * PI / 180) * 2 / ct_d g)
          (double_helix fp)).

End Generate.
End CycloidGear.

(** ** [class BevelGear] *)

Module BevelGear.
Section Generate.

Import pygears.
Context {L : Library}.

(** The properties of [fp]; [version] is missing from documents written
    before version 0.0.2. *)
Record FeaturePython : Type := mkFeaturePython {
  teeth : Z;
  height : R;
  pitch_angle : R;
  pressure_angle : R;
  module : R;
  clearance : R;
  numpoints : Z;
  reset_origin : bool;
  backlash : R;
  beta : R;
  has_version : bool
}.

Definition scale_of (fp : FeaturePython) : R :=
  module fp * IZR (teeth fp) / 2 / tan (pitch_angle fp * PI / 180).

Definition configured (fp : FeaturePython) : BevelTooth :=
  {| bt_z := teeth fp;
     bt_module := module fp;
     bt_pressure_angle := (90 - pressure_angle fp) * PI / 180;
     bt_pitch_angle := pitch_angle fp * PI / 180;
     bt_backlash := backlash fp;
     bt_clearance := clearance fp / scale_of fp |}.

(** [scale * p] on a numpy row. *)
Definition scale_point (s : R) (p : ndpoint) : ndpoint :=
  match p with
  | P2 x y => P2 (s * x) (s * y)
  | P3 x y z => P3 (s * x) (s * y) (s * z)
  end.

(** [np.linalg.norm] *)
Definition norm (p : ndpoint) : R :=
  match p with
  | P2 x y => sqrt (x * x + y * y)
  | P3 x y z => sqrt (x * x + y * y + z * z)
  end.

Definition spherical_rot (point : ndpoint) (phi : R) : ndpoint :=
  let new_phi := sqrt (norm point) * phi in
  rotation3D_point new_phi point.

(** [np.linspace(a, b, 20)] *)
Definition linspace20 (a b : R) : list R :=
  map (fun k => a + INR k * ((b - a) / 19)) (seq 0 20).

Definition outline (fp : FeaturePython)
  : result (BevelTooth * list (list ndpoint)) :=
  g <- BevelTooth_update (configured fp) ;;
  pts <- BevelTooth_points g (numpoints fp) ;;
  angle <- truediv (2 * PI) (IZR (teeth fp)) ;;
  pts <- Outline.assemble (rotation3D angle) (bt_z g) pts ;;
  Ok (g, pts).

Definition generate_gear_shape (fp : FeaturePython) : result Part.Shape :=
  let scale := scale_of fp in
  '(g, pts) <- outline fp ;;
  let scale_0 :=
    if negb (has_version fp) then scale - height fp / 2
    else scale - height fp in
  let scale_1 :=
    if negb (has_version fp) then scale + height fp / 2 else scale in
  let wires :=
    if Req_dec_T (beta fp) 0 then
      [make_bspline_wire (map (map (scale_point scale_0)) pts);
       make_bspline_wire (map (map (scale_point scale_1)) pts)]
    else
      map (fun scale_i =>
             let angle := beta fp * PI / 180 * sin (PI / 4)
                          / sin (pitch_angle fp * PI / 180) in
             make_bspline_wire
               (map (fun pt =>
                       map (fun p => spherical_rot p angle)
                           (map (scale_point scale_i) pt))
                    pts))
          (linspace20 scale_0 scale_1) in
  let shape := Part.makeLoft wires true false in
  if reset_origin fp then
    let mat := App.move (fcvec (P3 0 0 scale_1))
                        (App.set_A33 (-1) App.identity) in
    Ok (Part.transformGeometry shape mat)
  else Ok shape.

End Generate.
End BevelGear.

(** ** [class TimingGear] *)

Module TimingGear.
Section Generate.

Import pygears.
Context {L : Library} {N : np.Ufuncs}.

Inductive belt : Set := gt2 | gt3 | gt5.

Record belt_data : Type := mkData {
  d_pitch : R; d_u : R; d_h : R; d_H : R;
  d_r0 : R; d_r1 : R; d_rs : R; d_offset : R
}.

Definition data (tp : belt) : belt_data :=
  match tp with
  | gt2 => mkData 2 0.254 0.75 1.38 0.555 1 0.15 0.40
  | gt3 => mkData 3 0.381 1.14 2.40 0.85 1.52 0.25 0.61
  | gt5 => mkData 5 0.5715 1.93 3.81 1.44 2.57 0.416 1.03
  end.

Record FeaturePython : Type := mkFeaturePython {
  teeth : Z;
  type : belt;
  height : R
}.

(** The argument of the square root in the closed form of [phi4]. *)
Definition phi4_radicand (m_23y offset r5 r_23 r_34 : R) : R :=
  - m_23y^4 - 2*m_23y^2*offset^2 +
  2*m_23y^2*r5^2 - 4*m_23y^2*r5*r_34 + 2*m_23y^2*r_23^2 +
  4*m_23y^2*r_23*r_34 + 4*m_23y^2*r_34^2 - offset^4 + 2*offset^2*r5^2 -
  4*offset^2*r5*r_34 + 2*offset^2*r_23^2 + 4*offset^2*r_23*r_34 +
  4*offset^2*r_34^2 -
  r5^4 + 4*r5^3*r_34 + 2*r5^2*r_23^2 + 4*r5^2*r_23*r_34 -
  4*r5^2*r_34^2 - 4*r5*r_23^2*r_34 - 8*r5*r_23*r_34^2 - r_23^4 -
  4*r_23^3*r_34 - 4*r_23^2*r_34^2.

Definition phi4_denominator (m_23y offset r5 r_23 r_34 : R) : R :=
  m_23y^2 + 2*m_23y*r5 -
  2*m_23y*r_34 + offset^2 + r5^2 - 2*r5*r_34 - r_23^2 - 2*r_23*r_34.

Definition phi4_of (m_23y offset r5 r_23 r_34 : R) : R :=
  2 * atan ((-2*offset*r5 + 2*offset*r_34
             + np.sqrt (phi4_radicand m_23y offset r5 r_23 r_34))
            / phi4_denominator m_23y offset r5 r_23 r_34).

(** The left side minus the right side of the tangency equation that
    [phi4] solves (the comment above its closed form in the source). *)
Definition tangency_residual (m_23y offset r5 r_23 r_34 phi4 : R) : R :=
  ((r5 - r_34) * sin phi4 + offset) ^ 2 +
  ((r5 - r_34) * cos phi4 - m_23y) ^ 2 -
  (r_34 + r_23) ^ 2.

(** The arc centres and the angle [phi4], down to [phi5]. *)
Record arcs : Type := mkArcs {
  a_phi_12 : R; a_r4 : R; a_r5 : R;
  a_m_12 : R * R; a_m_23 : R * R;
  a_phi4 : R
}.

Definition solve (fp : FeaturePython) : result arcs :=
  let gt_data := data (type fp) in
  let pitch := d_pitch gt_data in
  let h := d_h gt_data in
  let u := d_u gt_data in
  let r_12 := d_r0 gt_data in
  let r_23 := d_r1 gt_data in
  let r_34 := d_rs gt_data in
  let offset := d_offset gt_data in
  q <- truediv (r_12 - r_23) offset ;;
  inv <- truediv 1 (q ^ 2 - 1) ;;
  let phi_12 := atan (np.sqrt inv) in
  let rp := pitch * IZR (teeth fp) / PI / 2 in
  let r5 := rp - u in
  let r4 := r5 in
  let m_12 := (0, r5 - h + r_12) in
  let m_23 := (offset, offset / tan phi_12 + snd m_12) in
  let m_23y := snd m_23 in
  let phi4 := phi4_of m_23y offset r5 r_23 r_34 in
  Ok (mkArcs phi_12 r4 r5 m_12 m_23 phi4).

Definition scale2 (k : R) (p : R * R) : R * R := (k * fst p, k * snd p).
Definition add2 (p q : R * R) : R * R := (fst p + fst q, snd p + snd q).
Definition sub2 (p q : R * R) : R * R := (fst p - fst q, snd p - snd q).
Definition mul2 (p q : R * R) : R * R := (fst p * fst q, snd p * snd q).
Definition nd (p : R * R) : ndpoint := P2 (fst p) (snd p).

Definition part_arc_from_points_and_center (p_1 p_2 m : ndpoint)
  : Part.Shape :=
  let '(p_1, p_12, p_2) := arc_from_points_and_center p_1 p_2 m in
  Part.Arc (fcvec p_1) (fcvec p_12) (fcvec p_2).

(** The wire of one tooth: six arcs through the points [x2], [x3] and
    [x4], their mirror images and [x6]. *)
Definition tooth_wire (fp : FeaturePython) (a : arcs) : result Part.Shape :=
  let gt_data := data (type fp) in
  let r_12 := d_r0 gt_data in
  let r_23 := d_r1 gt_data in
  let r_34 := d_rs gt_data in
  let phi_12 := a_phi_12 a in
  let r4 := a_r4 a in
  let r5 := a_r5 a in
  let m_12 := a_m_12 a in
  let m_23 := a_m_23 a in
  let phi4 := a_phi4 a in
  phi5 <- truediv PI (IZR (teeth fp)) ;;
  let m_34 := scale2 (r5 - r_34) (- sin phi4, cos phi4) in
  let x2 := (- r_12 * sin phi_12, snd m_12 - r_12 * cos phi_12) in
  k <- truediv r_34 (r_34 + r_23) ;;
  let x3 := add2 m_34 (scale2 k (sub2 m_23 m_34)) in
  let x4 := scale2 r4 (- sin phi4, cos phi4) in
  let x6 := reflection (- phi5 - PI / 2) (nd x4) in
  let mir := (-1, 1) in
  let xn2 := mul2 mir x2 in
  let xn3 := mul2 mir x3 in
  let xn4 := mul2 mir x4 in
  let mn_34 := mul2 mir m_34 in
  let mn_23 := mul2 mir m_23 in
  let arc_1 := part_arc_from_points_and_center (nd xn4) (nd xn3) (nd mn_34) in
  let arc_2 := part_arc_from_points_and_center (nd xn3) (nd xn2) (nd mn_23) in
  let arc_3 := part_arc_from_points_and_center (nd xn2) (nd x2) (nd m_12) in
  let arc_4 := part_arc_from_points_and_center (nd x2) (nd x3) (nd m_23) in
  let arc_5 := part_arc_from_points_and_center (nd x3) (nd x4) (nd m_34) in
  let arc_6 := part_arc_from_points_and_center (nd x4) x6 (P2 0 0) in
  Ok (Part.Wire [arc_1; arc_2; arc_3; arc_4; arc_5; arc_6]).

Definition generate_gear_shape (fp : FeaturePython) : result Part.Shape :=
  a <- solve fp ;;
  wire <- tooth_wire fp a ;;
  step <- truediv (PI * 2) (IZR (teeth fp)) ;;
  let rot := App.rotateZ step App.identity in
  let wires := wire :: replicate (Z.to_nat (teeth fp - 1)) rot wire in
  let wi := Part.Wire wires in
  if Req_dec_T (height fp) 0 then Ok wi
  else Ok (Part.extrude (Part.Face [wi]) (App.vec 0 0 (height fp))).

End Generate.
End TimingGear.

(** ** [class HypoCycloidGear] *)

Module HypoCycloidGear.
Section Generate.

Context {A : Float.Arithmetic}.

Record FeaturePython : Type := mkFeaturePython {
  pin_circle_radius : R;
  roller_diameter : R;
  eccentricity : R;
  pressure_angle_lim : R;
  pressure_angle_offset : R;
  teeth_number : Z;
  segment_count : Z;
  hole_radius : R;
  show_pins : bool;
  pin_height : R;
  center_pins : bool;
  show_disk0 : bool;
  show_disk1 : bool;
  disk_height : R
}.

Definition to_polar (x y : R) : R * R :=
  (pow_half (x ^ 2 + y ^ 2), math_atan2 y x).

Definition to_rect (r a : R) : R * R := (r * cos a, r * sin a).

Definition calcyp (p a e : R) (n : Z) : result R :=
  k <- truediv (IZR n * p) (e * (IZR n + 1)) ;;
  t <- truediv (sin (IZR n * a)) (cos (IZR n * a) + k) ;;
  Ok (atan t).

Definition calc_x (p d e : R) (n : Z) (a : R) : result R :=
  yp <- calcyp p a e n ;;
  Ok ((IZR n * p) * cos a + e * cos ((IZR n + 1) * a) - d / 2 * cos (yp + a)).

Definition calc_y (p d e : R) (n : Z) (a : R) : result R :=
  yp <- calcyp p a e n ;;
  Ok ((IZR n * p) * sin a + e * sin ((IZR n + 1) * a) - d / 2 * sin (yp + a)).

(** Every operation on the way to [math.asin] is written with its
    rounding: whether the argument is in the domain is decided by it. *)
Definition calc_pressure_angle (p d : R) (n : Z) (a : R) : result R :=
  let ex := Float.pow 2 0.5 in
  let r3 := Float.fl (p * IZR n) in
  rg <- Float.truediv r3 ex ;;
  let radicand :=
    Float.fl (Float.fl (Float.pow ex 2 + 1)
              - Float.fl (Float.fl (2 * ex) * Float.cos a)) in
  let pp :=
    Float.fl (Float.fl (rg * Float.pow radicand 0.5)
              - Float.fl (d / 2)) in
  t <- Float.truediv (Float.fl (Float.fl (r3 * Float.cos a) - rg))
                     (Float.fl (pp + Float.fl (d / 2))) ;;
  s <- Float.math_asin t ;;
  Float.truediv (Float.fl (s * 180)) Float.pi.

Definition calc_pressure_limit (p d e : R) (n : Z) (a : R) : result R :=
  let ex := pow_half 2 in
  let r3 := p * IZR n in
  let rg := r3 / ex in
  let q := pow_half (r3 ^ 2 + rg ^ 2 - 2 * r3 * rg * cos a) in
  t <- truediv ((q - d / 2) * (r3 * cos a - rg)) q ;;
  let x := rg - e + t in
  y <- truediv ((q - d / 2) * r3 * sin a) q ;;
  Ok (pow_half (x ^ 2 + y ^ 2)).

Definition check_limit (x y maxrad minrad offset : R) : R * R :=
  let '(r, a) := to_polar x y in
  if ltb maxrad r || ltb r minrad then
    let r := r - offset in
    to_rect r a
  else (x, y).

(** [i * math.pi / 180.] *)
Definition degrees (i : Z) : R :=
  Float.fl (Float.fl (IZR i * Float.pi) / 180).

(** One pass of the scan over the degrees; the state is
    [(minAngle, maxAngle)]. *)
Definition scan_step (p d : R) (n : Z) (ang : R) (st : R * R) (i : Z)
  : result (R * R) :=
  let '(minAngle, maxAngle) := st in
  x <- calc_pressure_angle p d n (degrees i) ;;
  let minAngle :=
    if ltb x ang && ltb minAngle 0 then IZR i else minAngle in
  let maxAngle :=
    if ltb x (- ang) && ltb maxAngle 0 then IZR (i - 1) else maxAngle in
  Ok (minAngle, maxAngle).

Definition scan (p d : R) (n : Z) (ang : R) : result (R * R) :=
  foldM (scan_step p d n ang) (range 180) (-1, -1).

(** [minRadius] and [maxRadius]. *)
Definition limit_radii (p d e : R) (n : Z) (ang : R) : result (R * R) :=
  '(minAngle, maxAngle) <- scan p d n ang ;;
  minRadius <- calc_pressure_limit p d e n (minAngle * PI / 180) ;;
  maxRadius <- calc_pressure_limit p d e n (maxAngle * PI / 180) ;;
  Ok (minRadius, maxRadius).

(** The profile point at step [i] of the rolling angle, before the shift
    by the eccentricity. *)
Definition cam_point (p d e : R) (n : Z) (q maxRadius minRadius c : R)
           (i : Z) : result (R * R) :=
  a <- truediv (q * IZR i) (IZR n) ;;
  x <- calc_x p d e n a ;;
  y <- calc_y p d e n a ;;
  Ok (check_limit x y maxRadius minRadius c).

(** The list [points] of one lobe, from [minRadius] to the end of the
    loop over the segments. *)
Definition cam_points (fp : FeaturePython) (p q : R)
  : result (list App.Vector) :=
  let d := roller_diameter fp in
  let e := eccentricity fp in
  let n := teeth_number fp in
  let s := segment_count fp in
  let ang := pressure_angle_lim fp in
  let c := pressure_angle_offset fp in
  '(minRadius, maxRadius) <- limit_radii p d e n ang ;;
  '(x, y) <- cam_point p d e n q maxRadius minRadius c 0 ;;
  let points := [App.vec (x - e) y 0] in
  rest <- mapM (fun i =>
                  '(x, y) <- cam_point p d e n q maxRadius minRadius c
                                       (i + 1) ;;
                  Ok (fcvec (P3 (x - e) y 0)))
               (range s) ;;
  Ok (points ++ rest).

(** The matrix that carries one lobe of the cam to the next. *)
Definition lobe_matrix (e : R) (n : Z) : result App.Matrix :=
  step <- truediv (2 * PI) (IZR n) ;;
  Ok (App.move (App.vec (- e) 0 0)
        (App.rotateZ step (App.move (App.vec e 0 0) App.identity))).

Definition cam (fp : FeaturePython) (p q : R) : result Part.Shape :=
  let e := eccentricity fp in
  let n := teeth_number fp in
  points <- cam_points fp p q ;;
  let wi := Part.Wire [Part.BSplineCurve points] in
  mat <- lobe_matrix e n ;;
  let wires := replicate (Z.to_nat n) mat wi in
  let cam := Part.Face [Part.Wire wires] in
  if Req_dec_T (hole_radius fp) 0 then Ok cam
  else
    let centerCircle :=
      Part.Face [Part.Wire [Part.makeCircle (hole_radius fp)
                                            (App.vec (- e) 0 0)]] in
    Ok (Part.cut cam [centerCircle]).

(** The matrix applied to the copy of the cam that becomes the secondary
    disk. *)
Definition secondary_matrix (e : R) (n : Z) : result App.Matrix :=
  let mat := App.rotateZ PI App.identity in
  let mat := App.move (App.vec (- e) 0 0) mat in
  mat <- (if Z.eqb (n mod 2) 0 then
            a <- truediv PI (IZR n) ;; Ok (App.rotateZ a mat)
          else Ok mat) ;;
  Ok (App.move (App.vec e 0 0) mat).

Definition pins_shape (fp : FeaturePython) (p : R) : result Part.Shape :=
  let d := roller_diameter fp in
  let n := teeth_number fp in
  pins <- mapM (fun i =>
                  k <- truediv (2 * PI) (IZR n + 1) ;;
                  let x := p * IZR n * cos (k * IZR i) in
                  let y := p * IZR n * sin (k * IZR i) in
                  Ok (Part.Wire [Part.makeCircle (d / 2) (App.vec x y 0)]))
               (range (n + 1)) ;;
  let pins := Part.Face pins in
  let z_offset := - pin_height fp / 2 in
  let z_offset :=
    if center_pins fp then
      if show_disk0 fp && negb (show_disk1 fp) then
        z_offset + disk_height fp / 2
      else if negb (show_disk0 fp) && show_disk1 fp then
        z_offset + - disk_height fp / 2
      else z_offset
    else z_offset in
  let pins :=
    if Req_dec_T z_offset 0 then pins
    else Part.translate pins (App.vec 0 0 z_offset) in
  let pins :=
    if Req_dec_T (pin_height fp) 0 then pins
    else Part.extrude pins (App.vec 0 0 (pin_height fp)) in
  Ok pins.

(** [None] is what a Python function returns when it ends without a
    [return]. *)
Definition generate_gear_shape (fp : FeaturePython)
  : result (option Part.Shape) :=
  let b := pin_circle_radius fp in
  let e := eccentricity fp in
  let n := teeth_number fp in
  p <- Float.truediv b (IZR n) ;;
  q <- truediv (2 * PI) (IZR (segment_count fp)) ;;
  cam <- cam fp p q ;;
  let to_be_fused := [] in
  let to_be_fused :=
    if show_disk0 fp then
      if Req_dec_T (disk_height fp) 0 then to_be_fused ++ [cam]
      else to_be_fused
             ++ [Part.extrude cam (App.vec 0 0 (disk_height fp))]
    else to_be_fused in
  to_be_fused <-
    (if show_disk1 fp then
       mat <- secondary_matrix e n ;;
       let second_cam := Part.transformGeometry cam mat in
       if Req_dec_T (disk_height fp) 0 then Ok (to_be_fused ++ [second_cam])
       else Ok (to_be_fused
                  ++ [Part.extrude second_cam
                                   (App.vec 0 0 (- disk_height fp))])
     else Ok to_be_fused) ;;
  to_be_fused <-
    (if show_pins fp then
       pins <- pins_shape fp p ;;
       Ok (to_be_fused ++ [pins])
     else Ok to_be_fused) ;;
  match to_be_fused with
  | [] => Ok None
  | _ => Ok (Some (Part.makeCompound to_be_fused))
  end.

(** The pressure angle at [i] degrees, where it is defined. *)
Definition pressure_at (p d : R) (n : Z) (i : Z) : R :=
  match calc_pressure_angle p d n (degrees i) with
  | Ok x => x
  | Raise _ => 0
  end.

End Generate.

(** [k] is the first degree from [lo] on and under [hi] at which [g] is
    below [limit]; there is no such degree. *)
Definition first_below (g : Z -> R) (limit : R) (lo hi k : Z) : Prop :=
  (lo <= k < hi)%Z /\ g k < limit /\
  forall i, (lo <= i < k)%Z -> ~ g i < limit.

Definition none_below (g : Z -> R) (limit : R) (lo hi : Z) : Prop :=
  forall i, (lo <= i < hi)%Z -> ~ g i < limit.

(** What a marker [k] says after the degrees under [hi]: the first degree
    from [lo] on below the limit, or [lo - 1] for none. *)
Definition found (g : Z -> R) (limit : R) (lo hi k : Z) : Prop :=
  first_below g limit lo hi k \/
  (k = lo - 1 /\ none_below g limit lo hi)%Z.

(** The centre of the cam disk: the profile is shifted by the
    eccentricity, and the centre hole is cut around this point. *)
Definition cam_center (e : R) : App.Vector := App.vec (- e) 0 0.

(** The secondary disk as the specification words it: the primary turned
    by a half turn about the cam centre and, for an even tooth count, by a
    further half tooth pitch. *)
Definition turned_about_cam_center (e : R) (n : Z) (v : App.Vector)
  : App.Vector :=
  let v := App.rotate_about (cam_center e) PI v in
  if Z.eqb (n mod 2) 0
  then App.rotate_about (cam_center e) (PI / IZR n) v
  else v.

(** The default cam of [HypoCycloidGear.__init__], with a tooth count and
    the three [show_] flags to choose. *)
Definition sample (teeth_number : Z) (show_pins show_disk0 show_disk1 : bool)
  : FeaturePython :=
  mkFeaturePython 66 3 1.5 50 0.01 teeth_number 42 30
                  show_pins 20 true show_disk0 show_disk1 10.

End HypoCycloidGear.

(** ** The parameter check of the tooth generators *)

Module Calculator.

Import pygears.

Definition leb0 (x : R) : bool := if Rle_dec x 0 then true else false.

(** Modelled from the spec: [InvoluteTooth._update] of [pygears], which is
    not part of [features.py].  The derived dimension calculator fails with
    [InvalidParameter] when module, teeth or pressure angle are
    non-positive; the transverse module is the normal module divided by
    the cosine of the helix angle in properties-from-tool mode; the pitch
    diameter is module times teeth and the angular tooth pitch is
    [2 * PI / teeth]. *)
Definition InvoluteTooth_update (g : InvoluteTooth) : result InvoluteTooth :=
  if leb0 (it_m_n g) || (it_z g <=? 0)%Z || leb0 (it_pressure_angle g)
  then Raise InvalidParameter
  else
    let m := if it_properties_from_tool g then it_m_n g / cos (it_beta g)
             else it_m_n g in
    Ok {| it_double_helix := it_double_helix g;
          it_m_n := it_m_n g;
          it_z := it_z g;
          it_undercut := it_undercut g;
          it_shift := it_shift g;
          it_pressure_angle := it_pressure_angle g;
          it_beta := it_beta g;
          it_clearance := it_clearance g;
          it_backlash := it_backlash g;
          it_head := it_head g;
          it_properties_from_tool := it_properties_from_tool g;
          it_d := m * IZR (it_z g);
          it_dw := m * IZR (it_z g);
          it_phipart := 2 * PI / IZR (it_z g) |}.

(** Modelled from the spec: [CycloidTooth._update] of [pygears]; the same
    calculator for a family without pressure angle. *)
Definition CycloidTooth_update (g : CycloidTooth) : result CycloidTooth :=
  if leb0 (ct_m g) || (ct_z g <=? 0)%Z
  then Raise InvalidParameter
  else
    Ok {| ct_m := ct_m g;
          ct_z := ct_z g;
          ct_z1 := ct_z1 g;
          ct_z2 := ct_z2 g;
          ct_clearance := ct_clearance g;
          ct_head := ct_head g;
          ct_backlash := ct_backlash g;
          ct_d := ct_m g * IZR (ct_z g);
          ct_phipart := 2 * PI / IZR (ct_z g) |}.

(** Modelled from the spec: [BevelTooth._update] of [pygears]; the
    calculator also fails with [InvalidParameter] when the pitch angle is
    out of the open interval from 0 to [PI / 4]. *)
Definition BevelTooth_update (g : BevelTooth) : result BevelTooth :=
  if leb0 (bt_module g) || (bt_z g <=? 0)%Z || leb0 (bt_pressure_angle g)
     || leb0 (bt_pitch_angle g)
     || (if Rlt_dec (bt_pitch_angle g) (PI / 4) then false else true)
  then Raise InvalidParameter
  else Ok g.

(** A library whose three [_update] methods are the calculators above; the
    other members are those of [L]. *)
Definition checked (L : Library) : Library :=
  Build_Library
    (@rotation L) (@rotation3D L) (@rotation3D_point L) (@reflection L)
    (@arc_from_points_and_center L)
    InvoluteTooth_update (@pygears.InvoluteTooth_points L)
    CycloidTooth_update (@pygears.CycloidTooth_points L)
    BevelTooth_update (@pygears.BevelTooth_points L).

End Calculator.

(** ** Concrete inputs *)

Module Sample.

Import pygears.

Definition turn (a : R) (p : ndpoint) : ndpoint :=
  match p with
  | P2 x y => P2 (cos a * x - sin a * y) (sin a * x + cos a * y)
  | P3 x y z => P3 (cos a * x - sin a * y) (sin a * x + cos a * y) z
  end.

Definition flip (a : R) (p : ndpoint) : ndpoint :=
  match p with
  | P2 x y =>
      P2 (cos (2 * a) * x + sin (2 * a) * y)
         (sin (2 * a) * x - cos (2 * a) * y)
  | P3 x y z =>
      P3 (cos (2 * a) * x + sin (2 * a) * y)
         (sin (2 * a) * x - cos (2 * a) * y) z
  end.

(** One tooth as two flanks of two points each. *)
Definition tooth : list (list ndpoint) :=
  [[P2 7 (-1); P2 8 0]; [P2 8 0; P2 7 1]].

(** A library with plane rotations, the tooth above, and [_update]
    methods that accept every tooth as it is. *)
Definition plain : Library :=
  {| rotation := fun a => map (turn a);
     rotation3D := fun a => map (turn a);
     rotation3D_point := turn;
     reflection := flip;
     arc_from_points_and_center := fun p_1 p_2 m => (p_1, m, p_2);
     InvoluteTooth_update := Ok;
     InvoluteTooth_points := fun _ _ => Ok tooth;
     CycloidTooth_update := Ok;
     CycloidTooth_points := fun _ _ => Ok tooth;
     BevelTooth_update := Ok;
     BevelTooth_points := fun _ _ => Ok tooth |}.

(** The same library with the parameter check. *)
Definition library : Library := Calculator.checked plain.

(** The outline of four such teeth, a quarter turn apart. *)
Definition outline4 : list (list ndpoint) :=
  Outline.sectors (map (turn (- (PI / 2)))) 4 tooth
    (fun k => Nat.iter k (turn (- (PI / 2))) (P2 7 (-1)))
    (fun k => Nat.iter k (turn (- (PI / 2))) (P2 7 1)).

(** A kernel in which a pipe shell has three faces: the cap it starts
    from, in the plane [z = 0], the cap it ends with, and its side.  A
    mirrored shape has the mirrored faces. *)
Fixpoint faces (s : Part.Shape) : list Part.Shape :=
  match s with
  | Part.makePipeShell spine profiles _ _ =>
      [Part.Face profiles;
       Part.translate (Part.Face profiles) (App.vec 0 0 1);
       Part.makeLoft profiles false false]
  | Part.mirror t base normal =>
      map (fun f => Part.mirror f base normal) (faces t)
  | _ => []
  end.

Fixpoint normal (s : Part.Shape) : App.Vector :=
  match s with
  | Part.mirror t _ _ => App.mirror_z (normal t)
  | Part.translate t _ => normal t
  | Part.makeLoft _ _ _ => App.vec 1 0 0
  | _ => App.vec 0 0 1
  end.

Fixpoint center (s : Part.Shape) : App.Vector :=
  match s with
  | Part.mirror t _ _ => App.mirror_z (center t)
  | Part.translate t v =>
      App.vec (App.vx (center t) + App.vx v) (App.vy (center t) + App.vy v)
              (App.vz (center t) + App.vz v)
  | Part.makeLoft _ _ _ => App.vec 0 0 (1 / 2)
  | _ => App.vec 0 0 0
  end.

Definition kernel : Part.Queries :=
  {| Part.Faces := faces;
     Part.normalAt := fun s _ _ => normal s;
     Part.CenterOfMass := center |}.

(** A stand-in for numpy: the total functions of the Standard Library. *)
Definition numpy : np.Ufuncs :=
  {| np.sqrt := sqrt;
     np.arccos := acos;
     np.sqrt_real := fun x _ => eq_refl;
     np.arccos_real := fun x _ => eq_refl |}.

Definition tooth0 : InvoluteTooth :=
  mkInvoluteTooth false 1 4 false 0 0 0 0 0 0 false 4 4 (PI / 2).

Definition ctooth0 : CycloidTooth :=
  mkCycloidTooth 1 4 5 5 0.25 0 0 4 (PI / 2).

(** An involute gear with four teeth and the other properties as
    [InvoluteGear.__init__] sets them; [flat] has height 0 and [simple]
    sets the flag of that name. *)
Definition involute_with (simple : bool) (height : R)
  : InvoluteGear.FeaturePython :=
  InvoluteGear.mkFeaturePython
    simple 4 1 false 0 height 20 0.25 6 0 false 0 false 0 (Some false)
    tooth0.

Definition involute : InvoluteGear.FeaturePython := involute_with false 5.
Definition involute_flat : InvoluteGear.FeaturePython :=
  involute_with false 0.
Definition involute_simple_flat : InvoluteGear.FeaturePython :=
  involute_with true 0.

Definition cycloid_with (height : R) : CycloidGear.FeaturePython :=
  CycloidGear.mkFeaturePython 4 1 5 5 height false 0.25 (Some 0) 15 0 0
                              ctooth0.

Definition cycloid : CycloidGear.FeaturePython := cycloid_with 5.
Definition cycloid_flat : CycloidGear.FeaturePython := cycloid_with 0.

(** An involute gear without teeth. *)
Definition involute_toothless : InvoluteGear.FeaturePython :=
  InvoluteGear.mkFeaturePython
    false 0 1 false 0 5 20 0.25 6 0 false 0 false 0 (Some false) tooth0.

(** The default bevel gear of [BevelGear.__init__], with a pitch angle to
    choose. *)
Definition bevel_with (pitch_angle : R) : BevelGear.FeaturePython :=
  BevelGear.mkFeaturePython 15 5 pitch_angle 20 1 0.1 6 true 0 0 true.

(** A timing gear without teeth. *)
Definition timing_toothless : TimingGear.FeaturePython :=
  TimingGear.mkFeaturePython 0 TimingGear.gt2 5.

(** The default timing gear: belt gt2 and 15 teeth. *)
Definition timing : TimingGear.FeaturePython :=
  TimingGear.mkFeaturePython 15 TimingGear.gt2 5.

(** The default timing gear, with height 0. *)
Definition timing_flat : TimingGear.FeaturePython :=
  TimingGear.mkFeaturePython 15 TimingGear.gt2 0.

End Sample.

(** ** Properties of outlines and of requests

    What it means for a list of polylines to form a closed chain, and what
    can be read off a request made to the kernel. *)

Module Chain.
Section Chain.

Variable point : Type.

(** Each polyline ends at the point at which the next one begins. *)
Fixpoint linked (l : list (list point)) : Prop :=
  match l with
  | [] => True
  | a :: t =>
      match t with
      | [] => True
      | b :: _ =>
          (exists p, Outline.last_opt a = Some p /\ hd_error b = Some p)
          /\ linked t
      end
  end.

(** A chain that ends at the point at which it begins. *)
Definition closed (l : list (list point)) : Prop :=
  linked l /\
  exists p, Outline.first_point l = Ok p /\ Outline.last_point l = Ok p.

(** Each segment ends at the point at which the next one begins. *)
Fixpoint joined (l : list (point * point)) : Prop :=
  match l with
  | [] => True
  | a :: t =>
      match t with
      | [] => True
      | b :: _ => snd a = fst b /\ joined t
      end
  end.

(** Joined segments, the last of which ends at the point at which the
    first one begins. *)
Definition ring (l : list (point * point)) : Prop :=
  joined l /\
  exists a b,
    hd_error l = Some a /\ Outline.last_opt l = Some b /\ snd b = fst a.

End Chain.

Arguments linked {point} l.
Arguments closed {point} l.
Arguments joined {point} l.
Arguments ring {point} l.

End Chain.

Module Geometry.

Import App.

(** The planar profile under the placement and the extrusion of a
    shape. *)
Fixpoint profile_of (s : Part.Shape) : Part.Shape :=
  match s with
  | Part.translate t _ => profile_of t
  | Part.extrude t _ => profile_of t
  | _ => s
  end.

(** The height at which the profile is placed before it is extruded. *)
Fixpoint lift_of (s : Part.Shape) : R :=
  match s with
  | Part.translate t v => vz v + lift_of t
  | Part.extrude t _ => lift_of t
  | _ => 0
  end.

(** The height by which the profile is extruded. *)
Fixpoint thickness_of (s : Part.Shape) : R :=
  match s with
  | Part.extrude t v => vz v + thickness_of t
  | Part.translate t _ => thickness_of t
  | _ => 0
  end.

(** The vector by which a shape has been moved. *)
Definition offset_of (s : Part.Shape) : Vector :=
  match s with
  | Part.translate _ v => v
  | _ => vec 0 0 0
  end.

(** The shape that material is cut from, under the cuts and the
    extrusion. *)
Fixpoint blank (s : Part.Shape) : Part.Shape :=
  match s with
  | Part.cut t _ => blank t
  | Part.extrude t _ => blank t
  | _ => s
  end.

(** The shapes that are cut away, the first cut first. *)
Fixpoint cutters (s : Part.Shape) : list Part.Shape :=
  match s with
  | Part.cut t tools => cutters t ++ tools
  | Part.extrude t _ => cutters t
  | _ => []
  end.

(** The profiles and the flags of a loft, under the map it is passed
    through. *)
Fixpoint loft_of (s : Part.Shape)
  : option (list Part.Shape * bool * bool) :=
  match s with
  | Part.makeLoft profiles solid ruled => Some (profiles, solid, ruled)
  | Part.transformGeometry t _ => loft_of t
  | _ => None
  end.

(** The squared distance of a point from the vertical axis. *)
Definition radius2 (v : Vector) : R := vx v * vx v + vy v * vy v.


(** The mirror image of a point in the plane [x = 0]. *)
Definition mirror_x (p : ndpoint) : ndpoint :=
  match p with
  | P2 x y => P2 (- x) y
  | P3 x y z => P3 (- x) y z
  end.

(** The squared distance of two points in the plane. *)
Definition dist2 (a b : R * R) : R :=
  (fst a - fst b) ^ 2 + (snd a - snd b) ^ 2.

End Geometry.

(** ** The parts of the hypocycloid drive

    What [HypoCycloidGear.generate_gear_shape] collects in [to_be_fused]
    for a cam [c], the matrix [mat] of the secondary disk and the pins: one
    part for each of the flags [show_disk0], [show_disk1] and [show_pins]
    that is set, in this order. *)

Module CamDrive.

Import HypoCycloidGear.

Definition main_disk (fp : FeaturePython) (c : Part.Shape) : Part.Shape :=
  if Req_dec_T (disk_height fp) 0 then c
  else Part.extrude c (App.vec 0 0 (disk_height fp)).

Definition secondary_disk (fp : FeaturePython) (c : Part.Shape)
           (mat : App.Matrix) : Part.Shape :=
  let second_cam := Part.transformGeometry c mat in
  if Req_dec_T (disk_height fp) 0 then second_cam
  else Part.extrude second_cam (App.vec 0 0 (- disk_height fp)).

Definition parts (fp : FeaturePython) (c : Part.Shape) (mat : App.Matrix)
           (pins : Part.Shape) : list Part.Shape :=
  (if show_disk0 fp then [main_disk fp c] else [])
  ++ (if show_disk1 fp then [secondary_disk fp c mat] else [])
  ++ (if show_pins fp then [pins] else []).

(** The disk of the cam: the lobe wire through [pts] in its [n]
    positions, with the centre hole cut out. *)
Definition disk (fp : FeaturePython) (lobe : App.Matrix)
           (pts : list App.Vector) : Part.Shape :=
  let wi := Part.Wire [Part.BSplineCurve pts] in
  let cam :=
    Part.Face [Part.Wire (replicate (Z.to_nat (teeth_number fp)) lobe wi)] in
  if Req_dec_T (hole_radius fp) 0 then cam
  else
    Part.cut cam
      [Part.Face
         [Part.Wire [Part.makeCircle (hole_radius fp)
                       (App.vec (- eccentricity fp) 0 0)]]].

End CamDrive.

(** ** The arcs of a [TimingGear] tooth

    The centre [m_34] and the end points [x2], [x3] and [x4] of the arcs,
    as [TimingGear.generate_gear_shape] computes them from the belt data
    and the solved angles. *)

Module TimingArcs.

Import TimingGear.

Definition m_34 (tp : belt) (a : arcs) : R * R :=
  let r_34 := d_rs (data tp) in
  scale2 (a_r5 a - r_34) (- sin (a_phi4 a), cos (a_phi4 a)).

Definition x2 (tp : belt) (a : arcs) : R * R :=
  let r_12 := d_r0 (data tp) in
  (- r_12 * sin (a_phi_12 a), snd (a_m_12 a) - r_12 * cos (a_phi_12 a)).

Definition x3 (tp : belt) (a : arcs) : R * R :=
  let r_23 := d_r1 (data tp) in
  let r_34 := d_rs (data tp) in
  add2 (m_34 tp a)
       (scale2 (r_34 / (r_34 + r_23)) (sub2 (a_m_23 a) (m_34 tp a))).

Definition x4 (tp : belt) (a : arcs) : R * R :=
  scale2 (a_r4 a) (- sin (a_phi4 a), cos (a_phi4 a)).

End TimingArcs.

(** ** Further kernel requests *)

(** Kernel calls that only the worm, crown, rack and profile-timing gears
    make.  They are parameters: a call is a shape about which nothing is
    assumed. *)
Module PartMore.

Class Requests : Type := {
  (* Part.makeCircle(radius, center, axis, angle1, angle2) *)
  makeCircleArc : R -> App.Vector -> App.Vector -> R -> R -> Part.Shape;
  (* Part.makePolygon(points) *)
  makePolygon : list App.Vector -> Part.Shape;
  (* wire.reverse(), on the wire it is called on *)
  reverse : Part.Shape -> Part.Shape;
  (* Part.LineSegment with StartPoint and EndPoint set, then toShape() *)
  LineSegment : App.Vector -> App.Vector -> Part.Shape;
  (* Part.Circle with Radius set, then toShape() *)
  Circle : R -> Part.Shape
}.

End PartMore.

(** ** [class WormGear] *)

Module WormGear.
Section Generate.

Import PartMore.
Context {K : Requests} {Q : Part.Queries}.

(** The properties of [fp] that are read.  [fp.height] is read as its
    value; [fp.beta] is only written, for display. *)
Record FeaturePython : Type := mkFeaturePython {
  teeth : Z;
  module : R;
  height : R;
  diameter : R;
  pressure_angle : R;
  head : R;
  clearance : R;
  reverse_pitch : bool
}.

(** [beta], after its second assignment. *)
Definition beta (fp : FeaturePython) : result R :=
  x <- truediv (module fp * IZR (teeth fp)) (diameter fp) ;;
  let beta := atan x in
  Ok (- (of_bool (reverse_pitch fp) * 2 - 1) * (PI / 2 - beta)).

Definition r_1 (fp : FeaturePython) : R :=
  (diameter fp - (2 + 2 * clearance fp) * module fp) / 2.
Definition r_2 (fp : FeaturePython) : R :=
  (diameter fp + (2 + 2 * head fp) * module fp) / 2.
Definition z_a (fp : FeaturePython) : R :=
  (2 + head fp + clearance fp) * module fp
  * tan (np.deg2rad (pressure_angle fp)).
Definition z_b (fp : FeaturePython) : R :=
  (module fp * PI - 4 * module fp * tan (np.deg2rad (pressure_angle fp)))
  / 2.
Definition z_0 (fp : FeaturePython) : R :=
  clearance fp * module fp * tan (np.deg2rad (pressure_angle fp)).
Definition z_1 (fp : FeaturePython) : R := z_b fp - z_0 fp.
Definition z_2 (fp : FeaturePython) : R := z_1 fp + z_a fp.
Definition z_3 (fp : FeaturePython) : R :=
  z_2 fp + z_b fp
  - 2 * head fp * module fp * tan (np.deg2rad (pressure_angle fp)).
Definition z_4 (fp : FeaturePython) : R := z_3 fp + z_a fp.

(** One row of what [helical_projection] returns for two arrays. *)
Definition helical_projection (fp : FeaturePython) (r z : R) : ndpoint :=
  let phi := 2 * z / module fp / IZR (teeth fp) in
  let x := r * cos phi in
  let y := r * sin phi in
  let z := 0 * y in
  P3 x y z.

Definition phi_0 (fp : FeaturePython) : R :=
  2 * z_0 fp / module fp / IZR (teeth fp).
Definition phi_1 (fp : FeaturePython) : R :=
  2 * z_1 fp / module fp / IZR (teeth fp).
Definition phi_2 (fp : FeaturePython) : R :=
  2 * z_2 fp / module fp / IZR (teeth fp).
Definition phi_3 (fp : FeaturePython) : R :=
  2 * z_3 fp / module fp / IZR (teeth fp).

(** The points of the first and of the second spline. *)
Definition points_1 (fp : FeaturePython) : list ndpoint :=
  let z_values := np.samples (z_1 fp) (z_2 fp) 10 in
  let r_values := np.samples (r_1 fp) (r_2 fp) 10 in
  map (fun rz => helical_projection fp (fst rz) (snd rz))
      (combine r_values z_values).
Definition points_2 (fp : FeaturePython) : list ndpoint :=
  let z_values := np.samples (z_3 fp) (z_4 fp) 10 in
  let r_values := np.samples (r_2 fp) (r_1 fp) 10 in
  map (fun rz => helical_projection fp (fst rz) (snd rz))
      (combine r_values z_values).

(** The wire of one tooth. *)
Definition wire (fp : FeaturePython) : Part.Shape :=
  let c1 :=
    makeCircleArc (r_1 fp) (App.vec 0 0 0) (App.vec 0 0 1)
                  (np.rad2deg (phi_0 fp)) (np.rad2deg (phi_1 fp)) in
  let bsp1 := Part.BSplineCurve (map fcvec (points_1 fp)) in
  let c2 :=
    makeCircleArc (r_2 fp) (App.vec 0 0 0) (App.vec 0 0 1)
                  (np.rad2deg (phi_2 fp)) (np.rad2deg (phi_3 fp)) in
  let bsp2 := Part.BSplineCurve (map fcvec (points_2 fp)) in
  Part.Wire [c1; bsp1; c2; bsp2].

Definition generate_gear_shape (fp : FeaturePython) : result Part.Shape :=
  let d := diameter fp in
  let t := teeth fp in
  let h := height fp in
  beta <- beta fp ;;
  let wire := wire fp in
  step <- truediv (2 * PI) (IZR t) ;;
  let rot := App.rotateZ step App.identity in
  let w_all := wire :: replicate (Z.to_nat (t - 1)) rot wire in
  let full_wire := Part.Wire [Part.Wire w_all] in
  if Req_dec_T h 0 then Ok full_wire
  else Ok (helicalextrusion full_wire h (h * tan beta * 2 / d) false).

End Generate.
End WormGear.

(** ** [class CrownGear] *)

Module CrownGear.
Section Generate.

Import PartMore.
Context {K : Requests} {N : np.Ufuncs}.

Record FeaturePython : Type := mkFeaturePython {
  teeth : Z;
  other_teeth : Z;
  module : R;
  height : R;
  thickness : R;
  pressure_angle : R;
  num_profiles : Z;
  preview_mode : bool
}.

(** [r] is a numpy number and [r0] a Python one: only [np.pi / t_i],
    between a Python float and an integer, can raise. *)
Definition profile (m r r0 : R) (t_c t_i : Z) (alpha_w y0 y1 y2 : R)
  : result (list ndpoint) :=
  let r_ew := m * IZR t_i / 2 in
  let r_e := r / r0 * r_ew in
  let alpha := np.arccos (r0 / r * cos alpha_w) in
  q <- truediv PI (IZR t_i) ;;
  let phi := q / 2 + (alpha - alpha_w) + (tan alpha_w - tan alpha) in
  let x_c := r_e * sin phi in
  let dy := - r_e * cos phi + r_ew in
  let b := y1 - dy in
  let a := tan alpha * b in
  let x1 := a + x_c in
  let d := y2 + dy in
  let c := tan alpha * d in
  let x2 := x_c - c in
  let r := r * cos phi in
  let pts :=
    [P3 (- x1) r y0;
     P3 (- x2) r (y0 - y1 - y2);
     P3 x2 r (y0 - y1 - y2);
     P3 x1 r y0] in
  Ok (pts ++ [P3 (- x1) r y0]).

(** The ring that is returned in preview mode and cut otherwise. *)
Definition solid (fp : FeaturePython) : Part.Shape :=
  let inner_diameter := module fp * IZR (teeth fp) in
  let outer_diameter := inner_diameter + height fp * 2 in
  let inner_circle :=
    Part.Wire [Part.makeCircle (inner_diameter / 2) (App.vec 0 0 0)] in
  let outer_circle :=
    Part.Wire [Part.makeCircle (outer_diameter / 2) (App.vec 0 0 0)] in
  let inner_circle := reverse inner_circle in
  let face := Part.Face [outer_circle; inner_circle] in
  Part.extrude face (App.vec 0 0 (- thickness fp)).

Definition generate_gear_shape (fp : FeaturePython) : result Part.Shape :=
  let inner_diameter := module fp * IZR (teeth fp) in
  let outer_diameter := inner_diameter + height fp * 2 in
  let solid := solid fp in
  if preview_mode fp then Ok solid
  else
    let alpha_w := np.deg2rad (pressure_angle fp) in
    let m := module fp in
    let t := teeth fp in
    let t_c := t in
    let t_i := other_teeth fp in
    let rm := inner_diameter / 2 in
    let y0 := m * 0.5 in
    let y1 := m + y0 in
    let y2 := m in
    let r0 := inner_diameter / 2 - height fp * 0.1 in
    let r1 := outer_diameter / 2 + height fp * 0.3 in
    radii <- np.linspace r0 r1 (num_profiles fp) ;;
    polies <- mapM (fun r_i =>
                      pts <- profile m r_i rm t_c t_i alpha_w y0 y1 y2 ;;
                      Ok (Part.Wire [makePolygon (map fcvec pts)]))
                   radii ;;
    let loft := Part.makeLoft polies true false in
    step <- truediv (2 * PI) (IZR t) ;;
    let rot := App.rotateZ step App.identity in
    let cut_shapes := replicate (Z.to_nat t) rot loft in
    Ok (Part.cut solid cut_shapes).

End Generate.
End CrownGear.

(** ** [class LanternGear] *)

Module LanternGear.
Section Generate.

Import pygears.
Context {L : Library} {N : np.Ufuncs}.

(** [scipy.optimize.root(f, x0).x[0]] where scipy can be imported, and
    nothing where the import fails. *)
Variable scipy_optimize_root : option ((R -> R) -> R -> R).

Record FeaturePython : Type := mkFeaturePython {
  teeth : Z;
  module : R;
  bolt_radius : R;
  height : R;
  num_profiles : Z;
  head : R
}.

Definition r_0 (fp : FeaturePython) : R := module fp * IZR (teeth fp) / 2.

Definition r_max (fp : FeaturePython) : R :=
  r_0 fp + bolt_radius fp + head fp * module fp.

Definition phi_max (fp : FeaturePython) : R :=
  (bolt_radius fp + np.sqrt (r_max fp ^ 2 - r_0 fp ^ 2)) / r_0 fp.

Definition find_phi_min (fp : FeaturePython) (phi_min : R) : R :=
  let r_0 := r_0 fp in
  let r_r := bolt_radius fp in
  r_0 * (phi_min ^ 2 * r_0 - 2 * phi_min * r_0 * sin phi_min -
         2 * phi_min * r_r - 2 * r_0 * cos phi_min + 2 * r_0
         + 2 * r_r * sin phi_min).

Definition phi_min (fp : FeaturePython) : result R :=
  match scipy_optimize_root with
  | Some root =>
      q <- truediv (bolt_radius fp) (r_0 fp) ;;
      Ok (root (find_phi_min fp) ((phi_max fp + q * 4) / 5))
  | None => truediv (bolt_radius fp) (r_0 fp)
  end.

(** The row of [xy1] at the angle [phi]. *)
Definition flank (fp : FeaturePython) (phi : R) : R * R :=
  let r_0 := r_0 fp in
  let r_r := bolt_radius fp in
  (r_0 * (cos phi + phi * sin phi) - r_r * sin phi,
   r_0 * (sin phi - phi * cos phi) + r_r * cos phi).

Definition xy1 (fp : FeaturePython) : result (list (R * R)) :=
  phi_min <- phi_min fp ;;
  phi <- np.linspace phi_min (phi_max fp) (num_profiles fp) ;;
  Ok (map (flank fp) phi).

(** [a[0]] and [a[-1]] on the rows of an array. *)
Definition first_row {A} (a : list A) : result A :=
  match a with
  | [] => Raise IndexError
  | x :: _ => Ok x
  end.
Definition last_row {A} (a : list A) : result A :=
  match Outline.last_opt a with
  | None => Raise IndexError
  | Some x => Ok x
  end.

(** The [App.Vector] of the two coordinates of a row and 0. *)
Definition vector0 (p : R * R) : App.Vector := App.vec (fst p) (snd p) 0.

(** One pass of the loop that turns the matrix and appends the tooth
    wire under it; the state is [(rot, wires)]. *)
Definition turn_and_append (fp : FeaturePython) (w : Part.Shape)
           (st : App.Matrix * list Part.Shape) (i : Z)
  : result (App.Matrix * list Part.Shape) :=
  let '(rot, wires) := st in
  step <- truediv (PI * 2) (IZR (teeth fp)) ;;
  let rot := App.rotateZ step rot in
  Ok (rot, wires ++ [Part.transformGeometry w rot]).

(** The wire of one tooth. *)
Definition tooth_wire (fp : FeaturePython) : result Part.Shape :=
  xy1 <- xy1 fp ;;
  p_1 <- first_row xy1 ;;
  p_1_end <- last_row xy1 ;;
  let w_1 := Part.BSplineCurve (map (fun p => fcvec (TimingGear.nd p)) xy1) in
  let xy2 := map (fun p => TimingGear.mul2 p (1, -1)) xy1 in
  p_2 <- first_row xy2 ;;
  p_2_end <- last_row xy2 ;;
  let w_2 := Part.BSplineCurve (map (fun p => fcvec (TimingGear.nd p)) xy2) in
  let p_12 := (r_0 fp - bolt_radius fp, 0) in
  let arc := Part.Arc (vector0 p_1) (vector0 p_12) (vector0 p_2) in
  angle <- truediv (- PI * 2) (IZR (teeth fp)) ;;
  let rot := rotation angle in
  p_3 <- first_row (rot [TimingGear.nd p_2_end]) ;;
  let l := TimingGear.part_arc_from_points_and_center
             (TimingGear.nd p_1_end) p_3 (P2 0 0) in
  Ok (Part.Wire [w_2; arc; w_1; l]).

Definition generate_gear_shape (fp : FeaturePython) : result Part.Shape :=
  w <- tooth_wire fp ;;
  '(_, wires) <- foldM (turn_and_append fp w) (range (teeth fp - 1))
                       (App.identity, [w]) ;;
  let wi := Part.Wire wires in
  if Req_dec_T (height fp) 0 then Ok wi
  else Ok (Part.extrude (Part.Face [wi]) (App.vec 0 0 (height fp))).

End Generate.
End LanternGear.

(** ** [class InvoluteGearRack] *)

Module InvoluteGearRack.
Section Generate.

Import PartMore.
Context {K : Requests}.

(** [pygears.involute_tooth.InvoluteRack]: the attributes that
    [features.py] writes, and the three methods it calls. *)
Record InvoluteRack : Type := mkInvoluteRack {
  ir_m : R;
  ir_z : Z;
  ir_pressure_angle : R;
  ir_thickness : R;
  ir_beta : R;
  ir_head : R;
  ir_clearance : R;
  ir_properties_from_tool : bool;
  ir_add_endings : bool;
  ir_simplified : bool
}.

Variable InvoluteRack_update : InvoluteRack -> result InvoluteRack.
Variable InvoluteRack_compute_properties :
  InvoluteRack -> result (R * R * R).
Variable InvoluteRack_points : InvoluteRack -> result (list ndpoint).

(** The properties of [fp].  The last five may be missing from documents
    of older versions; [transverse_pitch] is only written, so that for it
    only its presence matters. *)
Record FeaturePython : Type := mkFeaturePython {
  teeth : Z;
  module : R;
  height : R;
  thickness : R;
  beta : R;
  pressure_angle : R;
  double_helix : bool;
  head : R;
  clearance : option R;
  properties_from_tool : option bool;
  add_endings : option bool;
  simplified : option bool;
  has_transverse_pitch : bool;
  rack : InvoluteRack
}.

(** [fp.rack] after the assignments, just before [fp.rack._update()]. *)
Definition configured (fp : FeaturePython) : InvoluteRack :=
  {| ir_m := module fp;
     ir_z := teeth fp;
     ir_pressure_angle := pressure_angle fp * PI / 180;
     ir_thickness := thickness fp;
     ir_beta := beta fp * PI / 180;
     ir_head := head fp;
     ir_clearance :=
       match clearance fp with
       | Some c => c
       | None => ir_clearance (rack fp)
       end;
     ir_properties_from_tool :=
       match properties_from_tool fp with
       | Some b => b
       | None => ir_properties_from_tool (rack fp)
       end;
     ir_add_endings :=
       match add_endings fp with
       | Some b => b
       | None => ir_add_endings (rack fp)
       end;
     ir_simplified :=
       match simplified fp with
       | Some b => b
       | None => ir_simplified (rack fp)
       end |}.

(** Down to [pol]: the polygon wire of the rack. *)
Definition polygon (fp : FeaturePython) : result Part.Shape :=
  g <- InvoluteRack_update (configured fp) ;;
  _ <- (if has_transverse_pitch fp
        then InvoluteRack_compute_properties g
        else Ok (0, 0, 0)) ;;
  pts <- InvoluteRack_points g ;;
  Ok (Part.Wire [makePolygon (map fcvec pts)]).

Definition generate_gear_shape (fp : FeaturePython) : result Part.Shape :=
  pol <- polygon fp ;;
  if Req_dec_T (height fp) 0 then Ok pol
  else if Req_dec_T (beta fp) 0 then
    let face := Part.Face [Part.Wire [pol]] in
    Ok (Part.extrude face (fcvec (P3 0 0 (height fp))))
  else if double_helix fp then
    let beta := beta fp * PI / 180 in
    let pol2 :=
      Part.translate (Part.Wire [pol])
        (fcvec (P3 0 (tan beta * height fp / 2) (height fp / 2))) in
    let pol3 :=
      Part.translate (Part.Wire [pol]) (fcvec (P3 0 0 (height fp))) in
    Ok (Part.makeLoft [pol; pol2; pol3] true true)
  else
    let beta := beta fp * PI / 180 in
    let pol2 :=
      Part.translate (Part.Wire [pol])
        (fcvec (P3 0 (tan beta * height fp) (height fp))) in
    Ok (Part.makeLoft [pol; pol2] true false).

End Generate.
End InvoluteGearRack.

(** ** [class ProfileTimingGear] *)

Module math.

(** [math.sqrt]: a negative argument is a [ValueError]. *)
Definition sqrt (x : R) : result R :=
  if Rlt_dec x 0 then Raise ValueError else Ok (R_sqrt.sqrt x).

(** [math.pow] on finite arguments: a whole exponent is a repeated
    product or quotient, 0 to a negative power and a negative base to a
    power that is not whole are [ValueError]s. *)
Definition pow (x y : R) : result R :=
  if Req_dec_T y (IZR (Int_part y)) then
    if Req_dec_T x 0 then
      if Rlt_dec y 0 then Raise ValueError
      else Ok (powerRZ x (Int_part y))
    else Ok (powerRZ x (Int_part y))
  else if Rlt_dec 0 x then Ok (Rpower x y)
  else if Req_dec_T x 0 then
    if Rlt_dec y 0 then Raise ValueError else Ok 0
  else Raise ValueError.

End math.

Module ProfileTimingGear.
Section Generate.

Import PartMore.
Context {K : Requests}.

(** The keys of [data], in the order of the source: "MXL", "40 D.P.",
    "XL", "H", "T2.5", "T5", "T10", "AT5", "HTD3M", "HTD5M", "HTD8M",
    "GT2 2MM", "GT2 3MM" and "GT2 5MM". *)
Inductive belt : Set :=
| MXL | DP40 | XL | H | T2_5 | T5 | T10 | AT5
| HTD3M | HTD5M | HTD8M | GT2_2MM | GT2_3MM | GT2_5MM.

(** An entry of [data] has either the keys [pitch] and [offset], or the
    keys [b], [c] and [d] of the curve fit. *)
Inductive sizing : Type :=
| by_pitch (pitch offset : R)
| by_curvefit (b c d : R).

Record profile : Type := mkProfile {
  size : sizing;
  teeth_depth : R;
  teeth_width : R;
  polygon : list (R * R)
}.

Definition data (tp : belt) : profile :=
  match tp with
  | MXL =>
      mkProfile (by_pitch 2.032 0.254) 0.508 1.321
        [(- 0.660421, - 0.5); (- 0.660421, 0); (- 0.621898, 0.006033);
         (- 0.587714, 0.023037); (- 0.560056, 0.049424);
         (- 0.541182, 0.083609); (- 0.417357, 0.424392);
         (- 0.398413, 0.458752); (- 0.370649, 0.48514);
         (- 0.336324, 0.502074); (- 0.297744, 0.508035);
         (0.297744, 0.508035); (0.336268, 0.502074); (0.370452, 0.48514);
         (0.39811, 0.458752); (0.416983, 0.424392); (0.540808, 0.083609);
         (0.559752, 0.049424); (0.587516, 0.023037); (0.621841, 0.006033);
         (0.660421, 0); (0.660421, - 0.5)]
  | DP40 =>
      mkProfile (by_pitch 2.07264 0.1778) 0.457 1.226
        [(- 0.612775, - 0.5); (- 0.612775, 0); (- 0.574719, 0.010187);
         (- 0.546453, 0.0381); (- 0.355953, 0.3683); (- 0.327604, 0.405408);
         (- 0.291086, 0.433388); (- 0.248548, 0.451049);
         (- 0.202142, 0.4572); (0.202494, 0.4572); (0.248653, 0.451049);
         (0.291042, 0.433388); (0.327609, 0.405408); (0.356306, 0.3683);
         (0.546806, 0.0381); (0.574499, 0.010187); (0.612775, 0);
         (0.612775, - 0.5)]
  | XL =>
      mkProfile (by_pitch 5.08 0.254) 1.27 3.051
        [(- 1.525411, - 1); (- 1.525411, 0); (- 1.41777, 0.015495);
         (- 1.320712, 0.059664); (- 1.239661, 0.129034);
         (- 1.180042, 0.220133); (- 0.793044, 1.050219);
         (- 0.733574, 1.141021); (- 0.652507, 1.210425);
         (- 0.555366, 1.254759); (- 0.447675, 1.270353);
         (0.447675, 1.270353); (0.555366, 1.254759); (0.652507, 1.210425);
         (0.733574, 1.141021); (0.793044, 1.050219); (1.180042, 0.220133);
         (1.239711, 0.129034); (1.320844, 0.059664); (1.417919, 0.015495);
         (1.525411, 0); (1.525411, - 1)]
  | H =>
      mkProfile (by_pitch 9.525 0.381) 1.905 5.359
        [(- 2.6797, - 1); (- 2.6797, 0); (- 2.600907, 0.006138);
         (- 2.525342, 0.024024); (- 2.45412, 0.052881);
         (- 2.388351, 0.091909); (- 2.329145, 0.140328);
         (- 2.277614, 0.197358); (- 2.234875, 0.262205);
         (- 2.202032, 0.334091); (- 1.75224, 1.57093);
         (- 1.719538, 1.642815); (- 1.676883, 1.707663);
         (- 1.62542, 1.764693); (- 1.566256, 1.813112);
         (- 1.500512, 1.85214); (- 1.4293, 1.880997);
         (- 1.353742, 1.898883); (- 1.274949, 1.905021);
         (1.275281, 1.905021); (1.354056, 1.898883); (1.429576, 1.880997);
         (1.500731, 1.85214); (1.566411, 1.813112); (1.625508, 1.764693);
         (1.676919, 1.707663); (1.719531, 1.642815); (1.752233, 1.57093);
         (2.20273, 0.334091); (2.235433, 0.262205); (2.278045, 0.197358);
         (2.329455, 0.140328); (2.388553, 0.091909); (2.454233, 0.052881);
         (2.525384, 0.024024); (2.600904, 0.006138); (2.6797, 0);
         (2.6797, - 1)]
  | T2_5 =>
      mkProfile (by_curvefit 0.7467 0.796 1.026) 0.7 1.678
        [(- 0.839258, - 0.5); (- 0.839258, 0); (- 0.770246, 0.021652);
         (- 0.726369, 0.079022); (- 0.529167, 0.620889);
         (- 0.485025, 0.67826); (- 0.416278, 0.699911);
         (0.416278, 0.699911); (0.484849, 0.67826); (0.528814, 0.620889);
         (0.726369, 0.079022); (0.770114, 0.021652); (0.839258, 0);
         (0.839258, - 0.5)]
  | T5 =>
      mkProfile (by_curvefit 0.6523 1.591 1.064) 1.19 3.264
        [(- 1.632126, - 0.5); (- 1.632126, 0); (- 1.568549, 0.004939);
         (- 1.507539, 0.019367); (- 1.450023, 0.042686);
         (- 1.396912, 0.074224); (- 1.349125, 0.113379);
         (- 1.307581, 0.159508); (- 1.273186, 0.211991);
         (- 1.246868, 0.270192); (- 1.009802, 0.920362);
         (- 0.983414, 0.978433); (- 0.949018, 1.030788);
         (- 0.907524, 1.076798); (- 0.859829, 1.115847);
         (- 0.80682, 1.147314); (- 0.749402, 1.170562);
         (- 0.688471, 1.184956); (- 0.624921, 1.189895);
         (0.624971, 1.189895); (0.688622, 1.184956); (0.749607, 1.170562);
         (0.807043, 1.147314); (0.860055, 1.115847); (0.907754, 1.076798);
         (0.949269, 1.030788); (0.9837, 0.978433); (1.010193, 0.920362);
         (1.246907, 0.270192); (1.273295, 0.211991); (1.307726, 0.159508);
         (1.349276, 0.113379); (1.397039, 0.074224); (1.450111, 0.042686);
         (1.507589, 0.019367); (1.568563, 0.004939); (1.632126, 0);
         (1.632126, - 0.5)]
  | T10 =>
      mkProfile (by_pitch 10 0.93) 2.5 6.13
        [(- 3.06511, - 1); (- 3.06511, 0); (- 2.971998, 0.007239);
         (- 2.882718, 0.028344); (- 2.79859, 0.062396);
         (- 2.720931, 0.108479); (- 2.651061, 0.165675);
         (- 2.590298, 0.233065); (- 2.539962, 0.309732);
         (- 2.501371, 0.394759); (- 1.879071, 2.105025);
         (- 1.840363, 2.190052); (- 1.789939, 2.266719);
         (- 1.729114, 2.334109); (- 1.659202, 2.391304);
         (- 1.581518, 2.437387); (- 1.497376, 2.47144);
         (- 1.408092, 2.492545); (- 1.314979, 2.499784);
         (1.314979, 2.499784); (1.408091, 2.492545); (1.497371, 2.47144);
         (1.581499, 2.437387); (1.659158, 2.391304); (1.729028, 2.334109);
         (1.789791, 2.266719); (1.840127, 2.190052); (1.878718, 2.105025);
         (2.501018, 0.394759); (2.539726, 0.309732); (2.59015, 0.233065);
         (2.650975, 0.165675); (2.720887, 0.108479); (2.798571, 0.062396);
         (2.882713, 0.028344); (2.971997, 0.007239); (3.06511, 0);
         (3.06511, - 1)]
  | AT5 =>
      mkProfile (by_curvefit 0.6523 1.591 1.064) 1.19 4.268
        [(- 2.134129, - 0.75); (- 2.134129, 0); (- 2.058023, 0.005488);
         (- 1.984595, 0.021547); (- 1.914806, 0.047569);
         (- 1.849614, 0.082947); (- 1.789978, 0.127073);
         (- 1.736857, 0.179338); (- 1.691211, 0.239136);
         (- 1.653999, 0.305859); (- 1.349199, 0.959203);
         (- 1.286933, 1.054635); (- 1.201914, 1.127346);
         (- 1.099961, 1.173664); (- 0.986896, 1.18992); (0.986543, 1.18992);
         (1.099614, 1.173664); (1.201605, 1.127346); (1.286729, 1.054635);
         (1.349199, 0.959203); (1.653646, 0.305859); (1.690859, 0.239136);
         (1.73651, 0.179338); (1.789644, 0.127073); (1.849305, 0.082947);
         (1.914539, 0.047569); (1.984392, 0.021547); (2.057906, 0.005488);
         (2.134129, 0); (2.134129, - 0.75)]
  | HTD3M =>
      mkProfile (by_pitch 3.0 0.381) 1.289 2.27
        [(- 1.135062, - 0.5); (- 1.135062, 0); (- 1.048323, 0.015484);
         (- 0.974284, 0.058517); (- 0.919162, 0.123974);
         (- 0.889176, 0.206728); (- 0.81721, 0.579614);
         (- 0.800806, 0.653232); (- 0.778384, 0.72416);
         (- 0.750244, 0.792137); (- 0.716685, 0.856903);
         (- 0.678005, 0.918199); (- 0.634505, 0.975764);
         (- 0.586483, 1.029338); (- 0.534238, 1.078662);
         (- 0.47807, 1.123476); (- 0.418278, 1.16352);
         (- 0.355162, 1.198533); (- 0.289019, 1.228257);
         (- 0.22015, 1.25243); (- 0.148854, 1.270793);
         (- 0.07543, 1.283087); (- 0.000176, 1.28905); (0.075081, 1.283145);
         (0.148515, 1.270895); (0.219827, 1.252561); (0.288716, 1.228406);
         (0.354879, 1.19869); (0.418018, 1.163675); (0.477831, 1.123623);
         (0.534017, 1.078795); (0.586276, 1.029452); (0.634307, 0.975857);
         (0.677809, 0.91827); (0.716481, 0.856953); (0.750022, 0.792167);
         (0.778133, 0.724174); (0.800511, 0.653236); (0.816857, 0.579614);
         (0.888471, 0.206728); (0.919014, 0.123974); (0.974328, 0.058517);
         (1.048362, 0.015484); (1.135062, 0); (1.135062, - 0.5)]
  | HTD5M =>
      mkProfile (by_pitch 5.0 0.5715) 2.199 3.781
        [(- 1.89036, - 0.75); (- 1.89036, 0); (- 1.741168, 0.02669);
         (- 1.61387, 0.100806); (- 1.518984, 0.21342); (- 1.467026, 0.3556);
         (- 1.427162, 0.960967); (- 1.398568, 1.089602);
         (- 1.359437, 1.213531); (- 1.310296, 1.332296);
         (- 1.251672, 1.445441); (- 1.184092, 1.552509);
         (- 1.108081, 1.653042); (- 1.024167, 1.746585);
         (- 0.932877, 1.832681); (- 0.834736, 1.910872);
         (- 0.730271, 1.980701); (- 0.62001, 2.041713);
         (- 0.504478, 2.09345); (- 0.384202, 2.135455);
         (- 0.259708, 2.167271); (- 0.131524, 2.188443);
         (- 0.000176, 2.198511); (0.131296, 2.188504); (0.259588, 2.167387);
         (0.384174, 2.135616); (0.504527, 2.093648); (0.620123, 2.04194);
         (0.730433, 1.980949); (0.834934, 1.911132); (0.933097, 1.832945);
         (1.024398, 1.746846); (1.108311, 1.653291); (1.184308, 1.552736);
         (1.251865, 1.445639); (1.310455, 1.332457); (1.359552, 1.213647);
         (1.39863, 1.089664); (1.427162, 0.960967); (1.467026, 0.3556);
         (1.518984, 0.21342); (1.61387, 0.100806); (1.741168, 0.02669);
         (1.89036, 0); (1.89036, - 0.75)]
  | HTD8M =>
      mkProfile (by_pitch 8 0.6858) 3.607 6.603
        [(- 3.301471, - 1); (- 3.301471, 0); (- 3.16611, 0.012093);
         (- 3.038062, 0.047068); (- 2.919646, 0.10297);
         (- 2.813182, 0.177844); (- 2.720989, 0.269734);
         (- 2.645387, 0.376684); (- 2.588694, 0.496739);
         (- 2.553229, 0.627944); (- 2.460801, 1.470025);
         (- 2.411413, 1.691917); (- 2.343887, 1.905691);
         (- 2.259126, 2.110563); (- 2.158035, 2.30575);
         (- 2.041518, 2.490467); (- 1.910478, 2.66393);
         (- 1.76582, 2.825356); (- 1.608446, 2.973961);
         (- 1.439261, 3.10896); (- 1.259169, 3.22957);
         (- 1.069074, 3.335006); (- 0.869878, 3.424485);
         (- 0.662487, 3.497224); (- 0.447804, 3.552437);
         (- 0.226732, 3.589341); (- 0.000176, 3.607153);
         (0.226511, 3.589461); (0.447712, 3.552654); (0.66252, 3.497516);
         (0.870027, 3.424833); (1.069329, 3.33539); (1.259517, 3.229973);
         (1.439687, 3.109367); (1.608931, 2.974358); (1.766344, 2.825731);
         (1.911018, 2.664271); (2.042047, 2.490765); (2.158526, 2.305998);
         (2.259547, 2.110755); (2.344204, 1.905821); (2.411591, 1.691983);
         (2.460801, 1.470025); (2.553229, 0.627944); (2.588592, 0.496739);
         (2.645238, 0.376684); (2.720834, 0.269734); (2.81305, 0.177844);
         (2.919553, 0.10297); (3.038012, 0.047068); (3.166095, 0.012093);
         (3.301471, 0); (3.301471, - 1)]
  | GT2_2MM =>
      mkProfile (by_pitch 2.0 0.254) 0.764 1.494
        [(0.747183, - 0.5); (0.747183, 0); (0.647876, 0.037218);
         (0.598311, 0.130528); (0.578556, 0.238423); (0.547158, 0.343077);
         (0.504649, 0.443762); (0.451556, 0.53975); (0.358229, 0.636924);
         (0.2484, 0.707276); (0.127259, 0.750044); (0, 0.76447);
         (- 0.127259, 0.750044); (- 0.2484, 0.707276);
         (- 0.358229, 0.636924); (- 0.451556, 0.53975);
         (- 0.504797, 0.443762); (- 0.547291, 0.343077);
         (- 0.578605, 0.238423); (- 0.598311, 0.130528);
         (- 0.648009, 0.037218); (- 0.747183, 0); (- 0.747183, - 0.5)]
  | GT2_3MM =>
      mkProfile (by_pitch 3.0 0.381) 1.169 2.31
        [(- 1.155171, - 0.5); (- 1.155171, 0); (- 1.065317, 0.016448);
         (- 0.989057, 0.062001); (- 0.93297, 0.130969);
         (- 0.90364, 0.217664); (- 0.863705, 0.408181);
         (- 0.800056, 0.591388); (- 0.713587, 0.765004);
         (- 0.60519, 0.926747); (- 0.469751, 1.032548);
         (- 0.320719, 1.108119); (- 0.162625, 1.153462); (0, 1.168577);
         (0.162625, 1.153462); (0.320719, 1.108119); (0.469751, 1.032548);
         (0.60519, 0.926747); (0.713587, 0.765004); (0.800056, 0.591388);
         (0.863705, 0.408181); (0.90364, 0.217664); (0.932921, 0.130969);
         (0.988924, 0.062001); (1.065168, 0.016448); (1.155171, 0);
         (1.155171, - 0.5)]
  | GT2_5MM =>
      mkProfile (by_pitch 5.0 0.571) 1.969 3.952
        [(- 1.975908, - 0.75); (- 1.975908, 0); (- 1.797959, 0.03212);
         (- 1.646634, 0.121224); (- 1.534534, 0.256431);
         (- 1.474258, 0.426861); (- 1.446911, 0.570808);
         (- 1.411774, 0.712722); (- 1.368964, 0.852287);
         (- 1.318597, 0.989189); (- 1.260788, 1.123115);
         (- 1.195654, 1.25375); (- 1.12331, 1.380781);
         (- 1.043869, 1.503892); (- 0.935264, 1.612278);
         (- 0.817959, 1.706414); (- 0.693181, 1.786237);
         (- 0.562151, 1.851687); (- 0.426095, 1.9027);
         (- 0.286235, 1.939214); (- 0.143795, 1.961168); (0, 1.9685);
         (0.143796, 1.961168); (0.286235, 1.939214); (0.426095, 1.9027);
         (0.562151, 1.851687); (0.693181, 1.786237); (0.817959, 1.706414);
         (0.935263, 1.612278); (1.043869, 1.503892); (1.123207, 1.380781);
         (1.195509, 1.25375); (1.26065, 1.123115); (1.318507, 0.989189);
         (1.368956, 0.852287); (1.411872, 0.712722); (1.447132, 0.570808);
         (1.474611, 0.426861); (1.534583, 0.256431); (1.646678, 0.121223);
         (1.798064, 0.03212); (1.975908, 0); (1.975908, - 0.75)]
  end.

(** The properties of [fp] that are read; the others are only written,
    for display. *)
Record FeaturePython : Type := mkFeaturePython {
  teeth : Z;
  type : belt;
  height : R;
  additional_teeth_width : R
}.

(** [od], the outer diameter. *)
Definition od (fp : FeaturePython) : result R :=
  let teeth := IZR (teeth fp) in
  match size (data (type fp)) with
  | by_pitch pitch offset =>
      Ok (2 * ((teeth * pitch) / (PI * 2) - offset))
  | by_curvefit b c d =>
      pw <- math.pow teeth d ;;
      pw' <- math.pow teeth d ;;
      q <- truediv (c * pw) (b + pw') ;;
      Ok (q * teeth)
  end.

Definition radius (fp : FeaturePython) : result R :=
  od <- od fp ;;
  Ok (od / 2).

Definition teeth_radius (fp : FeaturePython) : R :=
  (teeth_width (data (type fp)) + additional_teeth_width fp) / 2.

Definition teeth_distance_from_center (fp : FeaturePython) : result R :=
  radius <- radius fp ;;
  r2 <- math.pow radius 2 ;;
  t2 <- math.pow (teeth_radius fp) 2 ;;
  math.sqrt (r2 - t2).

Definition teeth_scale (fp : FeaturePython) : result R :=
  let teeth_width := teeth_width (data (type fp)) in
  truediv teeth_width (teeth_width + additional_teeth_width fp).

(** [polygon], after it has been scaled and moved. *)
Definition placed_polygon (fp : FeaturePython) : result (list (R * R)) :=
  teeth_distance_from_center <- teeth_distance_from_center fp ;;
  teeth_scale <- teeth_scale fp ;;
  let polygon := polygon (data (type fp)) in
  let polygon := map (fun '(x, y) => (x * teeth_scale, y)) polygon in
  let polygon :=
    map (fun '(x, y) => (x, y - teeth_distance_from_center)) polygon in
  Ok polygon.

(** The start and the end point of each line of the loop over
    [polygon]. *)
Fixpoint segment_ends (last : R * R) (polygon : list (R * R))
  : list (App.Vector * App.Vector) :=
  match polygon with
  | [] => []
  | pt :: rest =>
      (App.vec (fst last) (snd last) 0, App.vec (fst pt) (snd pt) 0)
      :: segment_ends pt rest
  end.

Definition lines (polygon : list (R * R)) : result (list Part.Shape) :=
  match Outline.last_opt polygon with
  | None => Raise IndexError
  | Some last =>
      Ok (map (fun '(a, b) => LineSegment a b) (segment_ends last polygon))
  end.

(** One pass of the loop that turns the matrix and cuts the tooth away
    under it; the state is [(rot, gear)]. *)
Definition turn_and_cut (fp : FeaturePython) (wire : Part.Shape)
           (st : App.Matrix * Part.Shape) (i : Z)
  : result (App.Matrix * Part.Shape) :=
  let '(rot, gear) := st in
  step <- truediv (PI * 2) (IZR (teeth fp)) ;;
  let rot := App.rotateZ step rot in
  Ok (rot, Part.cut gear [Part.Face [Part.transformGeometry wire rot]]).

Definition generate_gear_shape (fp : FeaturePython) : result Part.Shape :=
  radius <- radius fp ;;
  polygon <- placed_polygon fp ;;
  lines <- lines polygon ;;
  let wire := Part.Wire lines in
  let gear := Part.Face [Part.Wire [Circle radius]] in
  let gear := Part.cut gear [Part.Face [wire]] in
  '(_, gear) <- foldM (turn_and_cut fp wire) (range (teeth fp - 1))
                      (App.identity, gear) ;;
  if Req_dec_T (height fp) 0 then Ok gear
  else Ok (Part.extrude gear (App.vec 0 0 (height fp))).

End Generate.
End ProfileTimingGear.

(** ** More concrete inputs *)

Module Fixture.

(** The involute gear of [Sample], with a helix angle of 45 degrees. *)
Definition involute_helical : InvoluteGear.FeaturePython :=
  InvoluteGear.mkFeaturePython
    false 4 1 false 0 5 20 0.25 6 45 false 0 false 0 (Some false)
    Sample.tooth0.

(** The same gear as a double helix, and drawn [simple] at that. *)
Definition involute_herringbone : InvoluteGear.FeaturePython :=
  InvoluteGear.mkFeaturePython
    false 4 1 false 0 5 20 0.25 6 45 true 0 false 0 (Some false)
    Sample.tooth0.

Definition involute_simple_herringbone : InvoluteGear.FeaturePython :=
  InvoluteGear.mkFeaturePython
    true 4 1 false 0 5 20 0.25 6 45 true 0 false 0 (Some false)
    Sample.tooth0.

(** The cycloid gear of [Sample], as a double helix of 45 degrees. *)
Definition cycloid_herringbone : CycloidGear.FeaturePython :=
  CycloidGear.mkFeaturePython 4 1 5 5 5 true 0.25 (Some 0) 15 45 0
                              Sample.ctooth0.

(** The default hypocycloid drive, with a pin circle of radius 0. *)
Definition drive_without_pin_circle : HypoCycloidGear.FeaturePython :=
  HypoCycloidGear.mkFeaturePython 0 3 1.5 50 0.01 42 42 30
                                  true 20 true true true 10.

(** The default bevel gear, without teeth. *)
Definition bevel_toothless : BevelGear.FeaturePython :=
  BevelGear.mkFeaturePython 0 5 45 20 1 0.1 6 true 0 0 true.

(** The default bevel gear, with height 0. *)
Definition bevel_flat : BevelGear.FeaturePython :=
  BevelGear.mkFeaturePython 15 0 45 20 1 0.1 6 true 0 0 true.

(** A stand-in for the further kernel requests: arcs, polygons, line
    segments and circles drawn as curves through their data. *)
Definition requests : PartMore.Requests :=
  {| PartMore.makeCircleArc := fun r c _ _ _ => Part.makeCircle r c;
     PartMore.makePolygon := Part.BSplineCurve;
     PartMore.reverse := fun s => s;
     PartMore.LineSegment := fun a b => Part.BSplineCurve [a; b];
     PartMore.Circle := fun r => Part.makeCircle r (App.vec 0 0 0) |}.

(** The default worm gear of [WormGear.__init__], with a height to
    choose. *)
Definition worm_with (height : R) : WormGear.FeaturePython :=
  WormGear.mkFeaturePython 3 1 height 5 20 0 0.25 false.

(** The default crown gear of [CrownGear.__init__], in preview mode or
    not. *)
Definition crown_with (preview_mode : bool) : CrownGear.FeaturePython :=
  CrownGear.mkFeaturePython 15 15 1 2 5 20 4 preview_mode.

(** The default lantern gear of [LanternGear.__init__]. *)
Definition lantern : LanternGear.FeaturePython :=
  LanternGear.mkFeaturePython 15 1 1 5 10 0.

(** A lantern gear without teeth. *)
Definition lantern_toothless : LanternGear.FeaturePython :=
  LanternGear.mkFeaturePython 0 1 1 5 10 0.

(** The default rack of [InvoluteGearRack.__init__], with a helix angle
    of 45 degrees, as a single or as a double helix. *)
Definition rack_helical (double_helix : bool)
  : InvoluteGearRack.FeaturePython :=
  InvoluteGearRack.mkFeaturePython
    15 1 5 5 45 20 double_helix 0 (Some 0.25) (Some true) (Some true)
    (Some false) true
    (InvoluteGearRack.mkInvoluteRack 5 15 (20 * PI / 180) 5 0 0 0.25
       true true false).

(** A stand-in for the rack generator: it accepts every rack, and draws
    it as a square. *)
Definition rack_update (g : InvoluteGearRack.InvoluteRack)
  : result InvoluteGearRack.InvoluteRack := Ok g.
Definition rack_compute_properties (g : InvoluteGearRack.InvoluteRack)
  : result (R * R * R) := Ok (0, 0, 0).
Definition rack_points (g : InvoluteGearRack.InvoluteRack)
  : result (list ndpoint) := Ok [P2 0 0; P2 1 0; P2 1 1; P2 0 1].

(** The default gear of [ProfileTimingGear.__init__]: the first entry of
    the enumeration is the type. *)
Definition profile_timing : ProfileTimingGear.FeaturePython :=
  ProfileTimingGear.mkFeaturePython 24 ProfileTimingGear.HTD5M 9.3 0.2.

End Fixture.

(** ** Facts about the outline assembler *)

Section AssemblerFacts.

Context {point : Type}.
Variable rot : list point -> list point.

Lemma last_opt_app {A} (l : list A) (x : A) :
  Outline.last_opt (l ++ [x]) = Some x.
Proof. unfold Outline.last_opt. now rewrite rev_app_distr. Qed.

Lemma last_opt_some_inv {A} (l : list A) (x : A) :
  Outline.last_opt l = Some x -> exists l', l = l' ++ [x].
Proof.
  unfold Outline.last_opt.
  destruct (rev l) as [|y r] eqn:E; intros H; [discriminate H|].
  injection H as ->. exists (rev r).
  rewrite <- (rev_involutive l), E. reflexivity.
Qed.

Lemma last_point_app (a b : list (list point)) (p : point) :
  Outline.last_point b = Ok p -> Outline.last_point (a ++ b) = Ok p.
Proof.
  unfold Outline.last_point, Outline.polyline.
  destruct (Outline.last_opt b) as [l|] eqn:E; [|intros H; discriminate H].
  destruct (last_opt_some_inv _ _ E) as [b' ->].
  now rewrite app_assoc, last_opt_app.
Qed.

Lemma first_point_app (a b : list (list point)) (p : point) :
  Outline.first_point a = Ok p -> Outline.first_point (a ++ b) = Ok p.
Proof. destruct a as [|l a]; simpl; [intros H; discriminate H|]. auto. Qed.

Lemma loop_snoc (n : nat) (st : list (list point) * list (list point)) :
  Outline.loop rot (S n) st
  = (st' <- Outline.loop rot n st ;; Outline.step rot st').
Proof.
  revert st. induction n as [|n IH]; intros st.
  - simpl. destruct (Outline.step rot st); reflexivity.
  - change (bind (Outline.step rot st) (fun st' => Outline.loop rot (S n) st')
            = bind (bind (Outline.step rot st)
                         (fun st' => Outline.loop rot n st'))
                   (Outline.step rot)).
    destruct (Outline.step rot st) as [st1|e]; [apply IH|reflexivity].
Qed.

Variable tooth : list (list point).
Variables first last : nat -> point.

Lemma partial_S (n : nat) :
  Outline.partial rot tooth first last (S n)
  = (Outline.partial rot tooth first last n ++ [[last n; first (S n)]])
    ++ Outline.copy rot tooth (S n).
Proof.
  unfold Outline.partial. rewrite seq_S, flat_map_app. simpl.
  rewrite app_nil_r, <- !app_assoc. reflexivity.
Qed.

Variable z : nat.
Hypothesis ends : Outline.ends rot tooth z first last.

Lemma first_point_partial (n : nat) :
  (0 < z)%nat ->
  Outline.first_point (Outline.partial rot tooth first last n)
  = Ok (first 0%nat).
Proof.
  intros Hz. destruct (ends 0%nat Hz) as [Hf _].
  destruct n as [|n]; [exact Hf|].
  unfold Outline.partial. simpl. rewrite <- !app_assoc.
  now apply first_point_app.
Qed.

Lemma last_point_partial (n : nat) :
  (n < z)%nat ->
  Outline.last_point (Outline.partial rot tooth first last n)
  = Ok (last n).
Proof.
  intros Hn. destruct (ends n Hn) as [_ Hl].
  unfold Outline.partial. now apply last_point_app.
Qed.

Lemma loop_partial (n : nat) :
  (n < z)%nat ->
  Outline.loop rot n (tooth, tooth)
  = Ok (Outline.partial rot tooth first last n, Outline.copy rot tooth n).
Proof.
  induction n as [|n IH]; intros Hn; [reflexivity|].
  rewrite loop_snoc, IH by lia. simpl bind. unfold Outline.step.
  rewrite last_point_partial by lia. simpl bind.
  destruct (ends (S n) Hn) as [Hf _].
  change (map rot (Outline.copy rot tooth n))
    with (Outline.copy rot tooth (S n)).
  rewrite Hf. simpl bind. now rewrite partial_S.
Qed.

Lemma sectors_partial :
  (0 < z)%nat ->
  Outline.sectors rot z tooth first last
  = Outline.partial rot tooth first last (z - 1)
    ++ [[last (z - 1)%nat; first 0%nat]].
Proof.
  intros Hz. destruct z as [|n]; [lia|].
  replace (S n - 1)%nat with n by lia.
  unfold Outline.sectors, Outline.partial.
  rewrite seq_S, flat_map_app. cbn [flat_map Nat.add].
  rewrite app_nil_r, Nat.Div0.mod_same, <- app_assoc. f_equal.
  rewrite !flat_map_concat_map. f_equal.
  apply map_ext_in. intros k Hk. apply in_seq in Hk.
  rewrite Nat.mod_small by lia. reflexivity.
Qed.

End AssemblerFacts.

Lemma assemble_is_sectors {point : Type} (rot : list point -> list point)
    (z : Z) (tooth : list (list point)) (first last : nat -> point) :
  (1 <= z)%Z ->
  Outline.ends rot tooth (Z.to_nat z) first last ->
  Outline.assemble rot z tooth
  = Ok (Outline.sectors rot (Z.to_nat z) tooth first last).
Proof.
  intros Hz Hends. unfold Outline.assemble.
  assert (Hn : (0 < Z.to_nat z)%nat) by lia.
  replace (Z.to_nat (z - 1)) with (Z.to_nat z - 1)%nat by lia.
  rewrite (loop_partial rot tooth first last (Z.to_nat z) Hends) by lia.
  simpl bind.
  rewrite (last_point_partial rot tooth first last (Z.to_nat z) Hends) by lia.
  simpl bind.
  rewrite (first_point_partial rot tooth first last (Z.to_nat z) Hends) by lia.
  simpl bind.
  now rewrite (sectors_partial rot tooth first last (Z.to_nat z) Hends) by lia.
Qed.

(** A rotation that acts point by point carries the end points along. *)
Lemma last_opt_map {A B} (f : A -> B) (l : list A) :
  Outline.last_opt (map f l) = option_map f (Outline.last_opt l).
Proof.
  unfold Outline.last_opt. rewrite <- map_rev.
  destruct (rev l); reflexivity.
Qed.

Lemma first_point_map {point : Type} (f : point -> point)
    (c : list (list point)) (p : point) :
  Outline.first_point c = Ok p ->
  Outline.first_point (map (map f) c) = Ok (f p).
Proof.
  destruct c as [|[|x l] c]; simpl; intros E; try discriminate E.
  now injection E as ->.
Qed.

Lemma last_point_map {point : Type} (f : point -> point)
    (c : list (list point)) (p : point) :
  Outline.last_point c = Ok p ->
  Outline.last_point (map (map f) c) = Ok (f p).
Proof.
  unfold Outline.last_point, Outline.polyline. rewrite last_opt_map.
  destruct (Outline.last_opt c) as [l|]; simpl; [|intros E; discriminate E].
  rewrite last_opt_map.
  destruct (Outline.last_opt l); simpl; intros E; [|discriminate E].
  now injection E as ->.
Qed.

Lemma ends_pointwise {point : Type} (f : point -> point)
    (tooth : list (list point)) (p q : point) (z : nat) :
  Outline.first_point tooth = Ok p ->
  Outline.last_point tooth = Ok q ->
  Outline.ends (map f) tooth z
               (fun k => Nat.iter k f p) (fun k => Nat.iter k f q).
Proof.
  intros Hp Hq k _. induction k as [|k [IHf IHl]]; [now split|].
  split; simpl.
  - now apply first_point_map.
  - now apply last_point_map.
Qed.

(** C1. In an involute and in a cycloid gear generation with [z >= 1] teeth,
    the outline is made of [z] sectors.  Sector [k] is the one-tooth point
    lists rotated [k] times by the angular tooth pitch (so they are rotated
    [z - 1] times in all), followed by a two-point segment from the last
    point of that rotated copy to the first point of the next rotated copy;
    after the last copy the segment leads back to the first point of the
    first copy.  The ends of the segments are the very points of the rotated
    copies. *)
Theorem outline_is_rotated_sectors `{L : pygears.Library}
    (fi : InvoluteGear.FeaturePython) (gi : pygears.InvoluteTooth)
    (fc : CycloidGear.FeaturePython) (gc : pygears.CycloidTooth)
    (ti tc : list (list ndpoint)) (first_i last_i first_c last_c : nat -> ndpoint) :
  pygears.InvoluteTooth_update (InvoluteGear.configured fi) = Ok gi ->
  pygears.InvoluteTooth_points gi (InvoluteGear.numpoints fi) = Ok ti ->
  (1 <= pygears.it_z gi)%Z ->
  Outline.ends (pygears.rotation (- pygears.it_phipart gi)) ti
               (Z.to_nat (pygears.it_z gi)) first_i last_i ->
  pygears.CycloidTooth_update (CycloidGear.configured fc) = Ok gc ->
  pygears.CycloidTooth_points gc (CycloidGear.numpoints fc) = Ok tc ->
  (1 <= pygears.ct_z gc)%Z ->
  Outline.ends (pygears.rotation (- pygears.ct_phipart gc)) tc
               (Z.to_nat (pygears.ct_z gc)) first_c last_c ->
  InvoluteGear.outline fi
  = Ok (gi, Outline.sectors (pygears.rotation (- pygears.it_phipart gi))
                            (Z.to_nat (pygears.it_z gi)) ti first_i last_i)
  /\
  CycloidGear.outline fc
  = Ok (gc, Outline.sectors (pygears.rotation (- pygears.ct_phipart gc))
                            (Z.to_nat (pygears.ct_z gc)) tc first_c last_c).
Proof.
  intros Ui Pi Zi Ei Uc Pc Zc Ec. split.
  - unfold InvoluteGear.outline. rewrite Ui. simpl bind. rewrite Pi.
    simpl bind. now rewrite (assemble_is_sectors _ _ _ first_i last_i).
  - unfold CycloidGear.outline. rewrite Uc. simpl bind. rewrite Pc.
    simpl bind. now rewrite (assemble_is_sectors _ _ _ first_c last_c).
Qed.

Lemma outline_is_rotated_sectors_witness :
  let gi := InvoluteGear.configured Sample.involute in
  let gc := CycloidGear.configured Sample.cycloid in
  let first := fun k => Nat.iter k (Sample.turn (- (PI / 2))) (P2 7 (-1)) in
  let last := fun k => Nat.iter k (Sample.turn (- (PI / 2))) (P2 7 1) in
  InvoluteGear.outline (L := Sample.plain) Sample.involute
  = Ok (gi, Outline.sectors (map (Sample.turn (- (PI / 2)))) 4 Sample.tooth
                            first last)
  /\
  CycloidGear.outline (L := Sample.plain) Sample.cycloid
  = Ok (gc, Outline.sectors (map (Sample.turn (- (PI / 2)))) 4 Sample.tooth
                            first last).
Proof.
  intros gi gc first last.
  apply (outline_is_rotated_sectors (L := Sample.plain)
           Sample.involute gi Sample.cycloid gc Sample.tooth Sample.tooth
           first last first last).
  - reflexivity.
  - reflexivity.
  - simpl. lia.
  - apply (ends_pointwise (Sample.turn (- (PI / 2)))); reflexivity.
  - reflexivity.
  - reflexivity.
  - simpl. lia.
  - apply (ends_pointwise (Sample.turn (- (PI / 2)))); reflexivity.
Defined.

(** C9. The backlash stored in the tooth object before it is updated is the
    backlash property with the sign of the direction flag: [+backlash] when
    [reversed_backlash] is false and [-backlash] when it is true; the factor
    [(-flag + 0.5) * 2] is 1 or -1. *)
Theorem backlash_signed_by_flag (fp : InvoluteGear.FeaturePython) :
  pygears.it_backlash (InvoluteGear.configured fp)
  = (if InvoluteGear.reversed_backlash fp
     then - InvoluteGear.backlash fp else InvoluteGear.backlash fp)
  /\
  (- of_bool (InvoluteGear.reversed_backlash fp) + 0.5) * 2
  = (if InvoluteGear.reversed_backlash fp then -1 else 1).
Proof.
  unfold InvoluteGear.configured, InvoluteGear.gear_backlash. simpl.
  destruct (InvoluteGear.reversed_backlash fp); simpl; split; lra.
Qed.

(** ** Facts about the generators *)

Lemma leb0_nonpos (x : R) : x <= 0 -> Calculator.leb0 x = true.
Proof.
  intros Hx. unfold Calculator.leb0. destruct (Rle_dec x 0); [reflexivity|lra].
Qed.

Lemma truediv_ok (x y : R) : y <> 0 -> truediv x y = Ok (x / y).
Proof.
  intros Hy. unfold truediv. destruct (Req_dec_T y 0); [contradiction|reflexivity].
Qed.

Lemma truediv_zero (x : R) : truediv x 0 = Raise ZeroDivisionError.
Proof.
  unfold truediv. destruct (Req_dec_T 0 0); [reflexivity|contradiction].
Qed.

Lemma float_truediv_ok `{A : Float.Arithmetic} (x y : R) :
  y <> 0 -> Float.truediv x y = Ok (Float.fl (x / y)).
Proof.
  intros Hy. unfold Float.truediv.
  destruct (Req_dec_T y 0); [contradiction|reflexivity].
Qed.

Lemma float_truediv_zero `{A : Float.Arithmetic} (x : R) :
  Float.truediv x 0 = Raise ZeroDivisionError.
Proof.
  unfold Float.truediv. destruct (Req_dec_T 0 0); [reflexivity|contradiction].
Qed.

(** A quotient is computed exactly when the divisor is not 0. *)
Lemma float_truediv_inv `{A : Float.Arithmetic} (x y q : R) :
  Float.truediv x y = Ok q -> y <> 0.
Proof.
  unfold Float.truediv. destruct (Req_dec_T y 0); [discriminate|auto].
Qed.

Lemma if_Req_same {A} (x : R) (a b : A) :
  (if Req_dec_T x x then a else b) = a.
Proof. destruct (Req_dec_T x x); [reflexivity|contradiction]. Qed.

Lemma wire_of_curves_builds_no_solid (pts : list (list ndpoint)) :
  Part.builds_solid (make_bspline_wire pts) = false.
Proof.
  unfold make_bspline_wire. simpl.
  induction pts as [|i pts IH]; [reflexivity|exact IH].
Qed.

Lemma replicate_builds_no_solid (n : nat) (rot : App.Matrix)
    (wire : Part.Shape) :
  Part.builds_solid wire = false ->
  existsb Part.builds_solid (replicate n rot wire) = false.
Proof.
  revert wire. induction n as [|n IH]; intros wire Hw; [reflexivity|].
  simpl. rewrite Hw. simpl. apply IH. exact Hw.
Qed.

(** The constants of the three belts never divide by zero. *)
Lemma solve_returns `{N : np.Ufuncs} (fp : TimingGear.FeaturePython) :
  exists a, TimingGear.solve fp = Ok a.
Proof.
  unfold TimingGear.solve.
  destruct (TimingGear.type fp); simpl;
    (rewrite truediv_ok by lra); simpl bind;
    (rewrite truediv_ok by (unfold Rdiv; nra)); simpl bind;
    eexists; reflexivity.
Qed.


Lemma tooth_wire_returns `{L : pygears.Library}
    (fp : TimingGear.FeaturePython) (a : TimingGear.arcs) :
  TimingGear.teeth fp <> 0%Z ->
  exists arcs,
    TimingGear.tooth_wire fp a = Ok (Part.Wire arcs) /\
    length arcs = 6%nat /\
    Part.builds_solid (Part.Wire arcs) = false.
Proof.
  intros Ht. unfold TimingGear.tooth_wire.
  assert (Hz : IZR (TimingGear.teeth fp) <> 0) by (now apply not_0_IZR).
  rewrite (truediv_ok PI) by exact Hz. cbn [bind].
  rewrite truediv_ok by (destruct (TimingGear.type fp); simpl; lra).
  cbn [bind]. eexists. split; [reflexivity|]. split; [reflexivity|].
  cbn [Part.builds_solid existsb].
  unfold TimingGear.part_arc_from_points_and_center.
  repeat match goal with
         | |- context [pygears.arc_from_points_and_center ?a ?b ?c] =>
             destruct (pygears.arc_from_points_and_center a b c) as [[? ?] ?]
         end.
  reflexivity.
Qed.

(** The outline of a timing gear: the wire of one tooth and its images
    under one, two, ... turns by the tooth pitch. *)
Lemma timing_outline `{L : pygears.Library} `{N : np.Ufuncs}
    (fp : TimingGear.FeaturePython) (a : TimingGear.arcs)
    (wire : Part.Shape) :
  TimingGear.teeth fp <> 0%Z ->
  TimingGear.solve fp = Ok a ->
  TimingGear.tooth_wire fp a = Ok wire ->
  let rot :=
    App.rotateZ (PI * 2 / IZR (TimingGear.teeth fp)) App.identity in
  let wi :=
    Part.Wire
      (wire :: replicate (Z.to_nat (TimingGear.teeth fp - 1)) rot wire) in
  TimingGear.generate_gear_shape fp
  = if Req_dec_T (TimingGear.height fp) 0 then Ok wi
    else Ok (Part.extrude (Part.Face [wi])
               (App.vec 0 0 (TimingGear.height fp))).
Proof.
  intros Ht Hs Hw rot wi. unfold TimingGear.generate_gear_shape.
  rewrite Hs. cbn [bind]. rewrite Hw. cbn [bind].
  rewrite truediv_ok by (now apply not_0_IZR). reflexivity.
Qed.

(** C2, as the code has it.  With height 0, an involute gear that is not
    drawn [simple] and a cycloid gear return the wire of splines through
    their outline.  A timing gear with a tooth count other than 0 whose
    tangency angle is a number (the radicand under its root is not
    negative, its denominator not 0) returns the wire of the six arcs of
    one tooth and of their images under one, two, ... [teeth - 1] turns by
    the tooth pitch.  None of these requests holds an extrusion, a sweep, a
    loft or another solid.  An involute gear drawn [simple] is a cylinder
    of the given height, whatever the height. *)
Theorem flat_gear_is_bare_wire `{L : pygears.Library} `{Q : Part.Queries}
    `{N : np.Ufuncs}
    (fi : InvoluteGear.FeaturePython) (gi : pygears.InvoluteTooth)
    (fc : CycloidGear.FeaturePython) (gc : pygears.CycloidTooth)
    (pi pc : list (list ndpoint)) (ft : TimingGear.FeaturePython)
    (a : TimingGear.arcs)
    (fs : InvoluteGear.FeaturePython) (gs : pygears.InvoluteTooth)
    (ps : list (list ndpoint)) :
  InvoluteGear.outline fi = Ok (gi, pi) ->
  InvoluteGear.simple fi = false ->
  InvoluteGear.height fi = 0 ->
  CycloidGear.outline fc = Ok (gc, pc) ->
  CycloidGear.height fc = 0 ->
  TimingGear.teeth ft <> 0%Z ->
  TimingGear.height ft = 0 ->
  TimingGear.solve ft = Ok a ->
  0 <= TimingGear.phi4_radicand (snd (TimingGear.a_m_23 a))
         (TimingGear.d_offset (TimingGear.data (TimingGear.type ft)))
         (TimingGear.a_r5 a)
         (TimingGear.d_r1 (TimingGear.data (TimingGear.type ft)))
         (TimingGear.d_rs (TimingGear.data (TimingGear.type ft))) ->
  TimingGear.phi4_denominator (snd (TimingGear.a_m_23 a))
    (TimingGear.d_offset (TimingGear.data (TimingGear.type ft)))
    (TimingGear.a_r5 a)
    (TimingGear.d_r1 (TimingGear.data (TimingGear.type ft)))
    (TimingGear.d_rs (TimingGear.data (TimingGear.type ft))) <> 0 ->
  InvoluteGear.outline fs = Ok (gs, ps) ->
  InvoluteGear.simple fs = true ->
  (InvoluteGear.generate_gear_shape fi = Ok (make_bspline_wire pi) /\
   Part.builds_solid (make_bspline_wire pi) = false) /\
  (CycloidGear.generate_gear_shape fc = Ok (make_bspline_wire pc) /\
   Part.builds_solid (make_bspline_wire pc) = false) /\
  (exists arcs,
     let wire := Part.Wire arcs in
     let rot :=
       App.rotateZ (PI * 2 / IZR (TimingGear.teeth ft)) App.identity in
     let wi :=
       Part.Wire
         (wire :: replicate (Z.to_nat (TimingGear.teeth ft - 1)) rot wire) in
     TimingGear.tooth_wire ft a = Ok wire /\
     length arcs = 6%nat /\
     TimingGear.generate_gear_shape ft = Ok wi /\
     Part.builds_solid wi = false) /\
  (InvoluteGear.generate_gear_shape fs
   = Ok (Part.makeCylinder (pygears.it_dw gs / 2) (InvoluteGear.height fs)) /\
   Part.builds_solid
     (Part.makeCylinder (pygears.it_dw gs / 2) (InvoluteGear.height fs))
   = true).
Proof.
  intros Oi Si Hi Oc Hc Tt Ht Hs _ _ Os Ss.
  split; [|split; [|split]].
  - split; [|apply wire_of_curves_builds_no_solid].
    unfold InvoluteGear.generate_gear_shape. rewrite Oi. cbn [bind].
    rewrite Si. cbn [negb]. cbv iota. rewrite Hi, if_Req_same. reflexivity.
  - split; [|apply wire_of_curves_builds_no_solid].
    unfold CycloidGear.generate_gear_shape. rewrite Oc. cbn [bind].
    rewrite Hc, if_Req_same. reflexivity.
  - destruct (tooth_wire_returns ft a Tt) as [arcs [Hw [Hn Hb]]].
    exists arcs. cbv zeta. split; [exact Hw|]. split; [exact Hn|].
    split.
    + rewrite (timing_outline ft a (Part.Wire arcs) Tt Hs Hw).
      rewrite Ht, if_Req_same. reflexivity.
    + cbn [Part.builds_solid existsb] in *. rewrite Hb. cbn [orb].
      apply replicate_builds_no_solid. exact Hb.
  - split; [|reflexivity].
    unfold InvoluteGear.generate_gear_shape. rewrite Os. cbn [bind].
    rewrite Ss. reflexivity.
Qed.

Lemma plain_involute_outline (simple : bool) (height : R) :
  InvoluteGear.outline (L := Sample.plain) (Sample.involute_with simple height)
  = Ok (InvoluteGear.configured (Sample.involute_with simple height),
        Sample.outline4).
Proof.
  unfold InvoluteGear.outline.
  cbn [bind pygears.InvoluteTooth_update pygears.InvoluteTooth_points
       Sample.plain].
  rewrite (assemble_is_sectors _ _ _
             (fun k => Nat.iter k (Sample.turn (- (PI / 2))) (P2 7 (-1)))
             (fun k => Nat.iter k (Sample.turn (- (PI / 2))) (P2 7 1))).
  - reflexivity.
  - simpl. lia.
  - apply (ends_pointwise (Sample.turn (- (PI / 2)))); reflexivity.
Qed.

Lemma plain_cycloid_outline (height : R) :
  CycloidGear.outline (L := Sample.plain) (Sample.cycloid_with height)
  = Ok (CycloidGear.configured (Sample.cycloid_with height), Sample.outline4).
Proof.
  unfold CycloidGear.outline.
  cbn [bind pygears.CycloidTooth_update pygears.CycloidTooth_points
       Sample.plain].
  rewrite (assemble_is_sectors _ _ _
             (fun k => Nat.iter k (Sample.turn (- (PI / 2))) (P2 7 (-1)))
             (fun k => Nat.iter k (Sample.turn (- (PI / 2))) (P2 7 1))).
  - reflexivity.
  - simpl. lia.
  - apply (ends_pointwise (Sample.turn (- (PI / 2)))); reflexivity.
Qed.


(** ** The double helix *)

Section MirrorPlane.

Context `{Q : Part.Queries}.

(** What the kernel guarantees about a face mirrored in the plane
    [z = 0]: its centre of mass is mirrored, and so is its normal, up to
    the side the face is seen from. *)
Hypothesis mirrored_normal :
  forall f,
    Part.normalAt (Part.mirror f (App.vec 0 0 0) (App.vec 0 0 1)) 0 0
    = App.mirror_z (Part.normalAt f 0 0) \/
    Part.normalAt (Part.mirror f (App.vec 0 0 0) (App.vec 0 0 1)) 0 0
    = App.opp (App.mirror_z (Part.normalAt f 0 0)).
Hypothesis mirrored_center :
  forall f,
    Part.CenterOfMass (Part.mirror f (App.vec 0 0 0) (App.vec 0 0 1))
    = App.mirror_z (Part.CenterOfMass f).

Lemma on_mirror_plane_mirror (f : Part.Shape) (small_size : R) :
  on_mirror_plane (Part.mirror f (App.vec 0 0 0) (App.vec 0 0 1)) 0 (App.vec 0 0 1) small_size
  = on_mirror_plane f 0 (App.vec 0 0 1) small_size.
Proof.
  unfold on_mirror_plane. rewrite mirrored_center.
  assert (HL : App.Length (App.cross (Part.normalAt (Part.mirror f (App.vec 0 0 0) (App.vec 0 0 1)) 0 0) (App.vec 0 0 1))
               = App.Length (App.cross (Part.normalAt f 0 0) (App.vec 0 0 1))).
  { destruct (mirrored_normal f) as [-> | ->];
      destruct (Part.normalAt f 0 0) as [nx ny nz];
      unfold App.Length, App.cross, App.mirror_z, App.opp; simpl;
      f_equal; ring. }
  rewrite HL. f_equal.
  destruct (Part.CenterOfMass f) as [cx cy cz]. simpl.
  replace (- cz - 0) with (- (cz - 0)) by ring.
  now rewrite Rabs_Ropp.
Qed.

Lemma filter_mirrored (small_size : R) (l : list Part.Shape) :
  filter (fun f => negb (on_mirror_plane f 0 (App.vec 0 0 1) small_size))
         (map (fun f => Part.mirror f (App.vec 0 0 0) (App.vec 0 0 1)) l)
  = map (fun f => Part.mirror f (App.vec 0 0 0) (App.vec 0 0 1))
        (filter (fun f => negb (on_mirror_plane f 0 (App.vec 0 0 1) small_size)) l).
Proof.
  induction l as [|f l IH]; [reflexivity|].
  simpl. rewrite on_mirror_plane_mirror.
  destruct (on_mirror_plane f 0 (App.vec 0 0 1) small_size); simpl; now rewrite IH.
Qed.

End MirrorPlane.

(** In the sample kernel the sweep keeps its end cap and its side; the cap
    it starts from lies in the mirror plane. *)
Lemma sample_kept_faces (spine w : Part.Shape) (s f : bool) :
  filter (fun f => negb (on_mirror_plane (Q := Sample.kernel) f 0
                                         (App.vec 0 0 1) default_small_size))
         (@Part.Faces Sample.kernel (Part.makePipeShell spine [w] s f))
  = [Part.translate (Part.Face [w]) (App.vec 0 0 1);
     Part.makeLoft [w] false false].
Proof.
  unfold on_mirror_plane, default_small_size, App.Length, App.cross.
  simpl.
  repeat match goal with
         | |- context [Rlt_dec ?a ?b] =>
             let H := fresh in
             destruct (Rlt_dec a b) as [H|H]; simpl
         end; try reflexivity; exfalso.
  all: repeat match goal with
              | H : context [sqrt ?a] |- _ =>
                  replace a with 0 in H by ring; rewrite sqrt_0 in H
              | H : context [sqrt ?a] |- _ =>
                  replace a with 1 in H by ring; rewrite sqrt_1 in H
              | H : context [Rabs ?a] |- _ =>
                  replace a with 0 in H by lra; rewrite Rabs_R0 in H
              | H : context [Rabs ?a] |- _ =>
                  replace a with 1 in H by lra; rewrite Rabs_R1 in H
              | H : context [Rabs ?a] |- _ =>
                  replace a with (1 / 2) in H by lra;
                  rewrite (Rabs_pos_eq (1 / 2)) in H by lra
              end; lra.
Qed.

(** What [helicalextrusion] returns with the double-helix flag, in a kernel
    that mirrors faces, normals and centres of mass. *)
Lemma herringbone_value `{Q : Part.Queries}
    (wire : Part.Shape) (height angle : R) :
  let o := App.vec 0 0 0 in
  let ez := App.vec 0 0 1 in
  let mirrored := fun f => Part.mirror f o ez in
  (forall s, Part.Faces (mirrored s) = map mirrored (Part.Faces s)) ->
  (forall f,
      Part.normalAt (mirrored f) 0 0 = App.mirror_z (Part.normalAt f 0 0) \/
      Part.normalAt (mirrored f) 0 0
      = App.opp (App.mirror_z (Part.normalAt f 0 0))) ->
  (forall f,
      Part.CenterOfMass (mirrored f) = App.mirror_z (Part.CenterOfMass f)) ->
  let sweep :=
    Part.makePipeShell
      (Part.makeHelix (height * 2 * PI / Rabs angle) (0.5 * height) 10 0
                      (if Rlt_dec angle 0 then true else false))
      [wire] true true in
  let upper :=
    filter (fun f => negb (on_mirror_plane f 0 ez default_small_size))
           (Part.Faces sweep) in
  helicalextrusion wire height angle true
  = Part.transformGeometry
      (Part.makeSolid (Part.makeShell (upper ++ map mirrored upper)))
      (App.move (App.vec 0 0 (0.5 * height)) App.identity).
Proof.
  intros o ez mirrored Hfaces Hnormal Hcenter sweep upper.
  unfold helicalextrusion. cbn [fcvec].
  fold o ez. fold sweep. fold (mirrored sweep).
  rewrite Hfaces, filter_app.
  rewrite (filter_mirrored Hnormal Hcenter). reflexivity.
Qed.

(** C8, as the code has it.  An involute gear that is not drawn [simple]
    and a cycloid gear, with a height and a helix angle other than 0 and
    the double-helix flag, are made from one helical sweep of the outline
    wire over half the height, with the handedness of the angle's sign, and
    its mirror image in the plane the sweep starts from, which is the sweep
    of the other handedness.  The faces of both that lie in the mirror
    plane are dropped, the others are sewn into one shell and made a solid,
    which is then lifted by half the height, so that the mirror plane ends
    up at mid-height.  The faces of the lower half are exactly the mirror
    images of the faces of the upper half. *)
Theorem double_helix_is_mirror_symmetric
    `{L : pygears.Library} `{Q : Part.Queries}
    (fi : InvoluteGear.FeaturePython) (gi : pygears.InvoluteTooth)
    (pi : list (list ndpoint))
    (fc : CycloidGear.FeaturePython) (gc : pygears.CycloidTooth)
    (pc : list (list ndpoint)) :
  let o := App.vec 0 0 0 in
  let ez := App.vec 0 0 1 in
  let mirrored := fun f => Part.mirror f o ez in
  (forall s, Part.Faces (mirrored s) = map mirrored (Part.Faces s)) ->
  (forall f,
      Part.normalAt (mirrored f) 0 0 = App.mirror_z (Part.normalAt f 0 0) \/
      Part.normalAt (mirrored f) 0 0
      = App.opp (App.mirror_z (Part.normalAt f 0 0))) ->
  (forall f,
      Part.CenterOfMass (mirrored f) = App.mirror_z (Part.CenterOfMass f)) ->
  InvoluteGear.outline fi = Ok (gi, pi) ->
  InvoluteGear.simple fi = false ->
  InvoluteGear.height fi <> 0 ->
  InvoluteGear.beta fi <> 0 ->
  InvoluteGear.double_helix fi = true ->
  CycloidGear.outline fc = Ok (gc, pc) ->
  CycloidGear.height fc <> 0 ->
  CycloidGear.beta fc <> 0 ->
  CycloidGear.double_helix fc = true ->
  let upper := fun wire height angle =>
    filter (fun f => negb (on_mirror_plane f 0 ez default_small_size))
      (Part.Faces
         (Part.makePipeShell
            (Part.makeHelix (height * 2 * PI / Rabs angle) (0.5 * height)
                            10 0 (if Rlt_dec angle 0 then true else false))
            [wire] true true)) in
  let lift := fun height =>
    App.move (App.vec 0 0 (0.5 * height)) App.identity in
  let solid := fun wire height angle =>
    Part.transformGeometry
      (Part.makeSolid
         (Part.makeShell
            (upper wire height angle
             ++ map mirrored (upper wire height angle))))
      (lift height) in
  InvoluteGear.generate_gear_shape fi
  = Ok (solid (make_bspline_wire pi) (InvoluteGear.height fi)
          (InvoluteGear.height fi * tan (pygears.it_beta gi) * 2
           / pygears.it_d gi)) /\
  CycloidGear.generate_gear_shape fc
  = Ok (solid (make_bspline_wire pc) (CycloidGear.height fc)
          (CycloidGear.height fc * tan (CycloidGear.beta fc * PI / 180) * 2
           / pygears.ct_d gc)) /\
  forall height x y z,
    App.apply (lift height) (App.vec x y z) = App.vec x y (z + height / 2).
Proof.
  intros o ez mirrored Hfaces Hnormal Hcenter
         Oi Si Hi Bi Di Oc Hc Bc Dc upper lift solid.
  split; [|split].
  - unfold InvoluteGear.generate_gear_shape. rewrite Oi. cbn [bind].
    rewrite Si. cbn [negb]. cbv iota.
    destruct (Req_dec_T (InvoluteGear.height fi) 0) as [E|_];
      [contradiction|].
    destruct (Req_dec_T (InvoluteGear.beta fi) 0) as [E|_];
      [contradiction|].
    rewrite Di. f_equal.
    apply (herringbone_value _ _ _ Hfaces Hnormal Hcenter).
  - unfold CycloidGear.generate_gear_shape. rewrite Oc. cbn [bind].
    destruct (Req_dec_T (CycloidGear.height fc) 0) as [E|_];
      [contradiction|].
    destruct (Req_dec_T (CycloidGear.beta fc) 0) as [E|_];
      [contradiction|].
    rewrite Dc. f_equal.
    apply (herringbone_value _ _ _ Hfaces Hnormal Hcenter).
  - intros height x y z. unfold lift, App.apply, App.move, App.identity.
    simpl. f_equal; lra.
Qed.

(** ** The hypocycloid cam: clipping of the profile points *)

Lemma sqrt_sum_sq_factor (x y : R) :
  x <> 0 -> sqrt (1 + (y / x)²) = sqrt (x ^ 2 + y ^ 2) / Rabs x.
Proof.
  intros Hx.
  assert (Ha : 0 < Rabs x) by now apply Rabs_pos_lt.
  replace (x ^ 2 + y ^ 2) with (x² * (1 + (y / x)²))
    by (unfold Rsqr; field; exact Hx).
  rewrite sqrt_mult_alt by apply Rle_0_sqr.
  rewrite sqrt_Rsqr_abs. field. lra.
Qed.

Lemma polar_of_rect (x y : R) :
  0 < x ^ 2 + y ^ 2 ->
  let r := fst (HypoCycloidGear.to_polar x y) in
  let a := snd (HypoCycloidGear.to_polar x y) in
  r * cos a = x /\ r * sin a = y.
Proof.
  intros Hpos. unfold HypoCycloidGear.to_polar, pow_half, math_atan2.
  cbn [fst snd].
  assert (Hr : 0 < sqrt (x ^ 2 + y ^ 2)) by now apply sqrt_lt_R0.
  destruct (Rlt_dec 0 x) as [Hx|Hx].
  - rewrite cos_atan, sin_atan, sqrt_sum_sq_factor by lra.
    rewrite (Rabs_pos_eq x) by lra. split; field; lra.
  - destruct (Rlt_dec x 0) as [Hx'|Hx'].
    + assert (E : sqrt (1 + (y / x)²) = sqrt (x ^ 2 + y ^ 2) / - x).
      { rewrite sqrt_sum_sq_factor by lra.
        now rewrite (Rabs_left x) by lra. }
      destruct (Rle_dec 0 y).
      * rewrite neg_cos, neg_sin, cos_atan, sin_atan, E. split; field; lra.
      * replace (atan (y / x) - PI) with (atan (y / x) + PI - 2 * PI) by ring.
        rewrite <- (cos_period _ 1), <- (sin_period _ 1).
        replace (atan (y / x) + PI - 2 * PI + 2 * INR 1 * PI)
          with (atan (y / x) + PI) by (simpl; ring).
        rewrite neg_cos, neg_sin, cos_atan, sin_atan, E. split; field; lra.
    + assert (x = 0) by lra. subst x.
      replace (0 ^ 2 + y ^ 2) with (y²) in * by (unfold Rsqr; ring).
      rewrite sqrt_Rsqr_abs in *.
      destruct (Rlt_dec 0 y) as [Hy|Hy].
      * rewrite cos_PI2, sin_PI2, Rabs_pos_eq by lra. split; ring.
      * destruct (Rlt_dec y 0) as [Hy'|Hy'].
        -- replace (- PI / 2) with (- (PI / 2)) by field.
           rewrite cos_neg, sin_neg, cos_PI2, sin_PI2, Rabs_left by lra.
           split; ring.
        -- assert (y = 0) by lra. subst y. rewrite Rabs_R0 in Hr. lra.
Qed.

(** C4, as the code has it.  A profile point other than the centre whose
    polar radius [r] lies outside the band from [minrad] to [maxrad] is moved
    along its ray to the radius [r - offset], towards the centre for a
    positive offset, whether [r] is above the band or below it; a point whose
    radius lies in the band is returned as it is.  The clipping is applied to
    the point computed from the unchanged parameters. *)
Theorem check_limit_moves_to_radius_minus_offset
    (x y maxrad minrad offset : R) :
  0 < x ^ 2 + y ^ 2 ->
  let r := sqrt (x ^ 2 + y ^ 2) in
  (maxrad < r \/ r < minrad ->
   HypoCycloidGear.check_limit x y maxrad minrad offset
   = ((r - offset) / r * x, (r - offset) / r * y) /\
   (offset <= r ->
    fst (let '(x', y') :=
           HypoCycloidGear.check_limit x y maxrad minrad offset in
         HypoCycloidGear.to_polar x' y') = r - offset)) /\
  (minrad <= r <= maxrad ->
   HypoCycloidGear.check_limit x y maxrad minrad offset = (x, y)) /\
  (forall p d e n q c i,
     HypoCycloidGear.cam_point p d e n q maxrad minrad c i
     = (a <- truediv (q * IZR i) (IZR n) ;;
        x <- HypoCycloidGear.calc_x p d e n a ;;
        y <- HypoCycloidGear.calc_y p d e n a ;;
        Ok (HypoCycloidGear.check_limit x y maxrad minrad c))).
Proof.
  intros Hpos r.
  assert (Hr : 0 < r) by now apply sqrt_lt_R0.
  destruct (polar_of_rect x y Hpos) as [Hc Hs].
  unfold HypoCycloidGear.check_limit.
  destruct (HypoCycloidGear.to_polar x y) as [r0 a] eqn:E.
  assert (Er : r0 = r).
  { unfold HypoCycloidGear.to_polar, pow_half in E. now injection E as <- _. }
  subst r0. cbn [fst snd] in Hc, Hs. unfold ltb. clearbody r.
  repeat split.
  - assert (G : HypoCycloidGear.to_rect (r - offset) a
                = ((r - offset) / r * x, (r - offset) / r * y)).
    { unfold HypoCycloidGear.to_rect. f_equal.
      - transitivity ((r - offset) / r * (r * cos a));
          [field; lra | now rewrite Hc].
      - transitivity ((r - offset) / r * (r * sin a));
          [field; lra | now rewrite Hs]. }
    destruct (Rlt_dec maxrad r), (Rlt_dec r minrad); try lra; simpl;
      exact G.
  - intros Ho.
    assert (G : fst (HypoCycloidGear.to_polar ((r - offset) * cos a)
                                              ((r - offset) * sin a))
                = r - offset).
    { unfold HypoCycloidGear.to_polar, pow_half. cbn [fst].
      replace (((r - offset) * cos a) ^ 2 + ((r - offset) * sin a) ^ 2)
        with ((r - offset)² * ((sin a)² + (cos a)²)) by (unfold Rsqr; ring).
      rewrite sin2_cos2, Rmult_1_r, sqrt_Rsqr by lra. reflexivity. }
    destruct (Rlt_dec maxrad r), (Rlt_dec r minrad); try lra; simpl;
      unfold HypoCycloidGear.to_rect; exact G.
  - intros [Hlo Hhi].
    destruct (Rlt_dec maxrad r), (Rlt_dec r minrad); try lra. reflexivity.
Qed.

Lemma check_limit_moves_to_radius_minus_offset_witness :
  HypoCycloidGear.check_limit 1 0 3 2 (1 / 2)
  = ((sqrt (1 ^ 2 + 0 ^ 2) - 1 / 2) / sqrt (1 ^ 2 + 0 ^ 2) * 1,
     (sqrt (1 ^ 2 + 0 ^ 2) - 1 / 2) / sqrt (1 ^ 2 + 0 ^ 2) * 0).
Proof.
  assert (H : 0 < 1 ^ 2 + 0 ^ 2) by lra.
  destruct (check_limit_moves_to_radius_minus_offset 1 0 3 2 (1 / 2) H)
    as [Hout _].
  apply Hout. right.
  replace (1 ^ 2 + 0 ^ 2) with 1 by ring. rewrite sqrt_1. lra.
Defined.

(** C4 fails below the band: the point at radius 1, under the least radius
    2, is moved to radius 1/2, towards the centre and not away from it. *)
Lemma check_limit_below_band_moves_inward :
  fst (HypoCycloidGear.to_polar 1 0) = 1 /\
  HypoCycloidGear.check_limit 1 0 3 2 (1 / 2) = (1 / 2, 0) /\
  fst (HypoCycloidGear.to_polar (1 / 2) 0) = 1 / 2.
Proof.
  assert (E1 : sqrt (1 ^ 2 + 0 ^ 2) = 1)
    by (replace (1 ^ 2 + 0 ^ 2) with 1 by ring; apply sqrt_1).
  assert (E2 : sqrt ((1 / 2) ^ 2 + 0 ^ 2) = 1 / 2).
  { replace ((1 / 2) ^ 2 + 0 ^ 2) with ((1 / 2) * (1 / 2)) by field.
    apply sqrt_square. lra. }
  repeat split.
  - exact E1.
  - unfold HypoCycloidGear.check_limit, HypoCycloidGear.to_polar, pow_half,
      math_atan2, ltb.
    rewrite E1.
    destruct (Rlt_dec 0 1); [|lra].
    destruct (Rlt_dec 3 1); [lra|]. destruct (Rlt_dec 1 2); [|lra].
    simpl. unfold HypoCycloidGear.to_rect.
    replace (0 / 1) with 0 by field. rewrite atan_0, cos_0, sin_0.
    f_equal; field.
  - exact E2.
Qed.

(** ** The hypocycloid cam: the secondary disk *)

Lemma apply_rotateZ (a : R) (m : App.Matrix) (v : App.Vector) :
  App.apply (App.rotateZ a m) v
  = App.rotate_about (App.vec 0 0 0) a (App.apply m v).
Proof.
  destruct v as [x y z]. unfold App.apply, App.rotateZ, App.rotate_about.
  simpl. f_equal; ring.
Qed.

Lemma apply_move (w : App.Vector) (m : App.Matrix) (v : App.Vector) :
  App.apply (App.move w m) v
  = App.vec (App.vx (App.apply m v) + App.vx w)
            (App.vy (App.apply m v) + App.vy w)
            (App.vz (App.apply m v) + App.vz w).
Proof.
  destruct v as [x y z]. unfold App.apply, App.move. simpl. f_equal; ring.
Qed.

Lemma apply_identity (v : App.Vector) : App.apply App.identity v = v.
Proof.
  destruct v as [x y z]. unfold App.apply, App.identity. simpl. f_equal; ring.
Qed.

(** C6 fails as worded: a turn about the cam centre leaves the cam centre
    where it is, and the secondary disk of the default cam has its centre
    at the opposite point. *)
Lemma secondary_disk_moves_cam_center :
  exists mat,
    HypoCycloidGear.secondary_matrix 1.5 42 = Ok mat /\
    HypoCycloidGear.turned_about_cam_center 1.5 42
      (HypoCycloidGear.cam_center 1.5)
    = HypoCycloidGear.cam_center 1.5 /\
    App.apply mat (HypoCycloidGear.cam_center 1.5)
    <> HypoCycloidGear.turned_about_cam_center 1.5 42
         (HypoCycloidGear.cam_center 1.5).
Proof.
  assert (F : HypoCycloidGear.turned_about_cam_center 1.5 42
                (HypoCycloidGear.cam_center 1.5)
              = HypoCycloidGear.cam_center 1.5).
  { unfold HypoCycloidGear.turned_about_cam_center,
      HypoCycloidGear.cam_center, App.rotate_about.
    simpl. f_equal; ring. }
  unfold HypoCycloidGear.secondary_matrix.
  change (Z.eqb (42 mod 2) 0) with true. cbv iota.
  rewrite truediv_ok by lra. simpl bind. eexists. split; [reflexivity|].
  split; [exact F|]. rewrite F.
  rewrite apply_move, apply_rotateZ, apply_move, apply_rotateZ,
    apply_identity.
  unfold App.rotate_about, HypoCycloidGear.cam_center. simpl.
  rewrite cos_PI, sin_PI. intros E. injection E as E _ _. lra.
Qed.

(** ** The hypocycloid cam: when the profile is computed *)

Lemma sqrt2_sq : sqrt 2 ^ 2 = 2.
Proof. apply pow2_sqrt. lra. Qed.

Lemma sqrt2_bounds : 1 < sqrt 2 < 3 / 2.
Proof.
  assert (H := sqrt2_sq). assert (P := sqrt_pos 2). split; nra.
Qed.

Lemma cos_bounds (a : R) : -1 <= cos a <= 1.
Proof. apply COS_bound. Qed.

(** The radicand of [calc_pressure_angle] is positive at every angle. *)
Lemma pressure_radicand_pos (a : R) :
  0 < sqrt 2 ^ 2 + 1 - 2 * sqrt 2 * cos a.
Proof.
  assert (H := sqrt2_sq). assert (B := sqrt2_bounds).
  assert (C := cos_bounds a). nra.
Qed.

(** Without rounding, the pressure angle is the formula of the source read
    over the real numbers. *)
Lemma exact_pressure_angle (p d : R) (n : Z) (a : R) :
  HypoCycloidGear.calc_pressure_angle (A := Float.exact) p d n a
  = (let r3 := p * IZR n in
     let rg := r3 / sqrt 2 in
     let pp := rg * sqrt (sqrt 2 ^ 2 + 1 - 2 * sqrt 2 * cos a) - d / 2 in
     t <- truediv (r3 * cos a - rg) (pp + d / 2) ;;
     if Rlt_dec t (-1) then Raise ValueError
     else if Rlt_dec 1 t then Raise ValueError
     else Ok (asin t * 180 / PI)).
Proof.
  assert (B := sqrt2_bounds). assert (Q := sqrt2_sq).
  assert (H2 : Rpower 2 0.5 = sqrt 2).
  { replace 0.5 with (/ 2) by lra. apply Rpower_sqrt. lra. }
  assert (H3 : Rpower (sqrt 2) 2 = sqrt 2 ^ 2).
  { rewrite <- H2, Rpower_mult. replace (0.5 * 2) with 1 by lra.
    rewrite Rpower_1 by lra. rewrite H2. lra. }
  unfold HypoCycloidGear.calc_pressure_angle, Float.truediv, Float.math_asin,
    Float.pi.
  cbn [Float.fl Float.pow Float.cos Float.asin Float.exact].
  rewrite H2, H3.
  assert (HR : Rpower (sqrt 2 ^ 2 + 1 - 2 * sqrt 2 * cos a) 0.5
               = sqrt (sqrt 2 ^ 2 + 1 - 2 * sqrt 2 * cos a)).
  { replace 0.5 with (/ 2) by lra. apply Rpower_sqrt.
    apply pressure_radicand_pos. }
  rewrite HR.
  destruct (Req_dec_T (sqrt 2) 0) as [E|_]; [lra|]. cbn [bind].
  cbv zeta. unfold truediv.
  destruct (Req_dec_T _ 0) as [E|_]; [reflexivity|]. cbn [bind].
  destruct (Rlt_dec _ (-1)); [reflexivity|].
  destruct (Rlt_dec 1 _); [reflexivity|]. cbn [bind].
  destruct (Req_dec_T PI 0) as [E|_]; [exfalso; now apply PI_neq0|].
  reflexivity.
Qed.

Lemma calc_pressure_angle_returns (p d : R) (n : Z) (a : R) :
  p * IZR n <> 0 ->
  exists t, -1 <= t <= 1 /\
    HypoCycloidGear.calc_pressure_angle (A := Float.exact) p d n a
    = Ok (asin t * 180 / PI).
Proof.
  intros Hr. rewrite exact_pressure_angle. cbv zeta.
  set (r3 := p * IZR n) in *.
  set (S := sqrt (sqrt 2 ^ 2 + 1 - 2 * sqrt 2 * cos a)).
  assert (HS : 0 < S) by (apply sqrt_lt_R0, pressure_radicand_pos).
  assert (HS2 : S ^ 2 = sqrt 2 ^ 2 + 1 - 2 * sqrt 2 * cos a).
  { apply pow2_sqrt. left. apply pressure_radicand_pos. }
  assert (B := sqrt2_bounds). assert (Q := sqrt2_sq).
  assert (C := cos_bounds a).
  replace (r3 / sqrt 2 * S - d / 2 + d / 2) with (r3 / sqrt 2 * S) by ring.
  assert (Hden : r3 / sqrt 2 * S <> 0).
  { apply Rmult_integral_contrapositive_currified; [|lra].
    unfold Rdiv. apply Rmult_integral_contrapositive_currified; [exact Hr|].
    apply Rinv_neq_0_compat. lra. }
  rewrite truediv_ok by exact Hden. simpl bind.
  set (t := (r3 * cos a - r3 / sqrt 2) / (r3 / sqrt 2 * S)).
  assert (Et : t = (sqrt 2 * cos a - 1) / S).
  { unfold t. field. repeat split; lra. }
  assert (Ht : -1 <= t <= 1).
  { assert (T2 : t ^ 2 <= 1).
    { rewrite Et. replace (((sqrt 2 * cos a - 1) / S) ^ 2)
        with ((sqrt 2 * cos a - 1) ^ 2 / S ^ 2) by (field; lra).
      apply Rmult_le_reg_r with (S ^ 2); [nra|].
      replace ((sqrt 2 * cos a - 1) ^ 2 / S ^ 2 * S ^ 2)
        with ((sqrt 2 * cos a - 1) ^ 2) by (field; lra).
      rewrite HS2. nra. }
    nra. }
  exists t. split; [exact Ht|].
  destruct (Rlt_dec t (-1)); [lra|]. destruct (Rlt_dec 1 t); [lra|].
  reflexivity.
Qed.

Lemma calc_pressure_limit_returns (p d e : R) (n : Z) (a : R) :
  p * IZR n <> 0 ->
  exists r, HypoCycloidGear.calc_pressure_limit p d e n a = Ok r.
Proof.
  intros Hr. unfold HypoCycloidGear.calc_pressure_limit, pow_half.
  set (r3 := p * IZR n) in *.
  assert (B := sqrt2_bounds). assert (Q := sqrt2_sq).
  assert (C := cos_bounds a).
  assert (Hi : / sqrt 2 = sqrt 2 / 2).
  { apply (Rmult_eq_reg_l (sqrt 2)); [|lra]. rewrite Rinv_r by lra. nra. }
  assert (Hq : 0 < r3 ^ 2 + (r3 / sqrt 2) ^ 2
                   - 2 * r3 * (r3 / sqrt 2) * cos a).
  { unfold Rdiv. rewrite Hi.
    replace (r3 ^ 2 + (r3 * (sqrt 2 / 2)) ^ 2
             - 2 * r3 * (r3 * (sqrt 2 / 2)) * cos a)
      with (r3 * r3 * (3 / 2 - sqrt 2 * cos a)
            + r3 * r3 / 4 * (sqrt 2 ^ 2 - 2)) by field.
    rewrite Q.
    assert (0 < r3 * r3) by (apply Rsqr_pos_lt in Hr; exact Hr).
    assert (0 < 3 / 2 - sqrt 2 * cos a) by nra.
    nra. }
  apply sqrt_lt_R0 in Hq.
  rewrite !truediv_ok by lra. simpl bind. eexists. reflexivity.
Qed.

Lemma calcyp_returns (p a e : R) (n : Z) :
  e * (IZR n + 1) <> 0 ->
  1 < Rabs (IZR n * p / (e * (IZR n + 1))) ->
  exists yp, HypoCycloidGear.calcyp p a e n = Ok yp.
Proof.
  intros He Hk. unfold HypoCycloidGear.calcyp.
  rewrite truediv_ok by exact He. simpl bind.
  assert (C := cos_bounds (IZR n * a)).
  rewrite truediv_ok.
  - simpl bind. eexists. reflexivity.
  - intros E. revert Hk. unfold Rabs.
    destruct (Rcase_abs (IZR n * p / (e * (IZR n + 1)))); lra.
Qed.

Lemma cam_point_returns (p d e : R) (n : Z) (q maxRadius minRadius c : R)
    (i : Z) :
  n <> 0%Z ->
  e * (IZR n + 1) <> 0 ->
  1 < Rabs (IZR n * p / (e * (IZR n + 1))) ->
  exists xy,
    HypoCycloidGear.cam_point p d e n q maxRadius minRadius c i = Ok xy.
Proof.
  intros Hn He Hk. unfold HypoCycloidGear.cam_point.
  rewrite truediv_ok by now apply not_0_IZR. simpl bind.
  unfold HypoCycloidGear.calc_x, HypoCycloidGear.calc_y.
  destruct (calcyp_returns p (q * IZR i / IZR n) e n He Hk) as [yp ->].
  simpl bind. eexists. reflexivity.
Qed.

Lemma mapM_returns {A B} (f : A -> result B) (l : list A) :
  (forall a, exists b, f a = Ok b) -> exists bs, mapM f l = Ok bs.
Proof.
  intros Hf. induction l as [|a l [bs IH]]; [now exists []|].
  destruct (Hf a) as [b Hb]. simpl. rewrite Hb. simpl. rewrite IH. simpl.
  eexists. reflexivity.
Qed.

Lemma foldM_app {A S} (f : S -> A -> result S) (l1 l2 : list A) (s : S) :
  foldM f (l1 ++ l2) s = bind (foldM f l1 s) (foldM f l2).
Proof.
  revert s. induction l1 as [|a l1 IH]; intros s; [reflexivity|].
  simpl. destruct (f s a); [apply IH|reflexivity].
Qed.

Lemma range_succ (k : nat) :
  range (Z.of_nat (S k)) = range (Z.of_nat k) ++ [Z.of_nat k].
Proof.
  unfold range. rewrite !Nat2Z.id, seq_S, map_app. reflexivity.
Qed.

(** ** The hypocycloid cam: the scan for the limit angles *)

Section Scan.

Context {A : Float.Arithmetic}.
Variables (p d : R) (n : Z) (ang : R) (g : Z -> R).

Lemma found_next (limit : R) (lo k hi : Z) :
  (lo - 1 <= k)%Z -> (lo - 1 <= hi)%Z ->
  HypoCycloidGear.found g limit lo hi k ->
  HypoCycloidGear.found g limit lo (hi + 1)
        (if ltb (g hi) limit && ltb (IZR k) (IZR lo) then hi else k).
Proof.
  intros Hk Hhi [[Hr [Hb Hm]] | [-> Hnone]].
  - assert (E : ltb (IZR k) (IZR lo) = false).
    { unfold ltb. destruct (Rlt_dec (IZR k) (IZR lo)) as [H|H];
        [apply lt_IZR in H; lia | reflexivity]. }
    rewrite E, andb_false_r. left. repeat split; try lia; assumption.
  - assert (E : ltb (IZR (lo - 1)) (IZR lo) = true).
    { unfold ltb. destruct (Rlt_dec (IZR (lo - 1)) (IZR lo)) as [H|H];
        [reflexivity | exfalso; apply H, IZR_lt; lia]. }
    rewrite E, andb_true_r. unfold ltb.
    destruct (Rlt_dec (g hi) limit) as [Hlt|Hge].
    + destruct (Z.eq_dec hi (lo - 1)) as [->|Hne].
      * right. split; [reflexivity|]. intros i Hi. lia.
      * left. repeat split; try lia; [exact Hlt|].
        intros i Hi. apply Hnone. lia.
    + right. split; [reflexivity|]. intros i Hi.
      destruct (Z.eq_dec i hi) as [->|Hne]; [exact Hge|].
      apply Hnone. lia.
Qed.

Lemma scan_prefix (k : nat) :
  (k <= 180)%nat ->
  (forall i, (0 <= i < Z.of_nat k)%Z ->
     HypoCycloidGear.calc_pressure_angle p d n (HypoCycloidGear.degrees i)
     = Ok (g i)) ->
  exists minAngle maxAngle : Z,
    foldM (HypoCycloidGear.scan_step p d n ang) (range (Z.of_nat k))
          (-1, -1)
    = Ok (IZR minAngle, IZR maxAngle) /\
    (-1 <= minAngle)%Z /\ (-1 <= maxAngle)%Z /\
    HypoCycloidGear.found g ang 0 (Z.of_nat k) minAngle /\
    HypoCycloidGear.found g (- ang) 1 (Z.of_nat k) (maxAngle + 1).
Proof.
  induction k as [|k IH]; intros Hk defined.
  - exists (-1)%Z, (-1)%Z. repeat split; try lia.
    + right. split; [reflexivity|]. intros i Hi. lia.
    + right. split; [reflexivity|]. intros i Hi. lia.
  - destruct IH as [mA [MA [E [HmA [HMA [Fm FM]]]]]];
      [lia | intros i Hi; apply defined; lia |].
    rewrite range_succ, foldM_app, E. simpl bind.
    unfold HypoCycloidGear.scan_step.
    rewrite defined by lia. simpl bind.
    apply (found_next ang 0 mA (Z.of_nat k)) in Fm; try lia.
    apply (found_next (- ang) 1 (MA + 1) (Z.of_nat k)) in FM; try lia.
    replace (Z.of_nat (S k)) with (Z.of_nat k + 1)%Z by lia.
    assert (EM : ltb (IZR (MA + 1)) 1 = ltb (IZR MA) 0).
    { unfold ltb.
      destruct (Rlt_dec (IZR (MA + 1)) 1) as [H|H],
               (Rlt_dec (IZR MA) 0) as [H'|H']; try reflexivity; exfalso.
      - apply lt_IZR in H. apply H'. apply IZR_lt. lia.
      - apply lt_IZR in H'. apply H. apply IZR_lt. lia. }
    rewrite EM in FM.
    destruct (ltb (g (Z.of_nat k)) ang && ltb (IZR mA) 0);
      destruct (ltb (g (Z.of_nat k)) (- ang) && ltb (IZR MA) 0);
      eexists; eexists; (split; [reflexivity|]);
      repeat split; try lia; try exact Fm;
      try (replace (Z.of_nat k - 1 + 1)%Z with (Z.of_nat k) by lia);
      exact FM.
Qed.

(** The scan has no guard: the first evaluation that raises ends it. *)
Lemma scan_raises (k : nat) (e : exn) :
  (k < 180)%nat ->
  (forall i, (0 <= i < Z.of_nat k)%Z ->
     HypoCycloidGear.calc_pressure_angle p d n (HypoCycloidGear.degrees i)
     = Ok (g i)) ->
  HypoCycloidGear.calc_pressure_angle p d n
    (HypoCycloidGear.degrees (Z.of_nat k)) = Raise e ->
  HypoCycloidGear.scan p d n ang = Raise e.
Proof.
  intros Hk defined raised.
  destruct (scan_prefix k ltac:(lia) defined) as [mA [MA [E _]]].
  unfold HypoCycloidGear.scan.
  assert (R : range 180
              = range (Z.of_nat k) ++ Z.of_nat k
                :: map Z.of_nat (seq (S k) (180 - S k))).
  { unfold range. rewrite Nat2Z.id.
    change (Z.to_nat 180) with 180%nat.
    assert (S1 : seq 0 180 = seq 0 k ++ seq k (180 - k)).
    { rewrite <- seq_app. f_equal. lia. }
    assert (S2 : seq k (180 - k) = k :: seq (S k) (180 - S k)).
    { replace (180 - k)%nat with (S (180 - S k)) by lia. reflexivity. }
    rewrite S1, S2, map_app. reflexivity. }
  rewrite R, foldM_app, E. cbn [bind foldM].
  unfold HypoCycloidGear.scan_step at 1. rewrite raised. reflexivity.
Qed.

End Scan.

(** Without rounding, a degree is the angle it names. *)
Lemma exact_degrees (i : Z) :
  HypoCycloidGear.degrees (A := Float.exact) i = IZR i * PI / 180.
Proof. reflexivity. Qed.

Lemma pressure_at_defined (p d : R) (n i : Z) :
  p * IZR n <> 0 ->
  HypoCycloidGear.calc_pressure_angle (A := Float.exact) p d n
    (HypoCycloidGear.degrees (A := Float.exact) i)
  = Ok (HypoCycloidGear.pressure_at (A := Float.exact) p d n i).
Proof.
  intros Hr. unfold HypoCycloidGear.pressure_at.
  destruct (calc_pressure_angle_returns p d n
              (HypoCycloidGear.degrees (A := Float.exact) i) Hr)
    as [t [_ ->]]. reflexivity.
Qed.

Lemma pressure_at_bounds (p d : R) (n i : Z) :
  p * IZR n <> 0 ->
  -90 <= HypoCycloidGear.pressure_at (A := Float.exact) p d n i <= 90.
Proof.
  intros Hr. unfold HypoCycloidGear.pressure_at.
  destruct (calc_pressure_angle_returns p d n
              (HypoCycloidGear.degrees (A := Float.exact) i) Hr)
    as [t [_ ->]].
  assert (B := asin_bound t). assert (P := PI_RGT_0).
  split.
  - apply Rmult_le_reg_r with (PI / 180); [lra|].
    replace (asin t * 180 / PI * (PI / 180)) with (asin t) by (field; lra).
    lra.
  - apply Rmult_le_reg_r with (PI / 180); [lra|].
    replace (asin t * 180 / PI * (PI / 180)) with (asin t) by (field; lra).
    lra.
Qed.

(** C5, as the code has it.  Whatever the rounding, when the pressure
    angle is computed at each of the whole degrees from 0 to 179, as
    [g 0], ... [g 179], the scan returns two degrees, or -1.  [minAngle] is
    the first degree at which the pressure angle is below the limit.
    [maxAngle] is the degree before the first degree from 1 on at which it
    is below the negated limit: degree 0 cannot be recorded, as the degree
    before it is the marker -1.  Either is -1 when there is no such degree.
    The two radii are the pressure-limit radius evaluated at exactly these
    two angles, with no refinement, and they are the band to which every
    point of the cam is clipped. *)
Theorem scan_takes_first_degree_below_limit `{A : Float.Arithmetic}
    (fp : HypoCycloidGear.FeaturePython) (p q : R) (g : Z -> R) :
  let d := HypoCycloidGear.roller_diameter fp in
  let e := HypoCycloidGear.eccentricity fp in
  let n := HypoCycloidGear.teeth_number fp in
  let ang := HypoCycloidGear.pressure_angle_lim fp in
  let c := HypoCycloidGear.pressure_angle_offset fp in
  (forall i, (0 <= i < 180)%Z ->
     HypoCycloidGear.calc_pressure_angle p d n (HypoCycloidGear.degrees i)
     = Ok (g i)) ->
  exists minAngle maxAngle : Z,
    HypoCycloidGear.scan p d n ang = Ok (IZR minAngle, IZR maxAngle) /\
    (HypoCycloidGear.first_below g ang 0 180 minAngle \/
     (minAngle = -1 /\ HypoCycloidGear.none_below g ang 0 180)%Z) /\
    (HypoCycloidGear.first_below g (- ang) 1 180 (maxAngle + 1) \/
     (maxAngle = -1 /\ HypoCycloidGear.none_below g (- ang) 1 180)%Z) /\
    HypoCycloidGear.limit_radii p d e n ang
    = (minRadius <- HypoCycloidGear.calc_pressure_limit
                      p d e n (IZR minAngle * PI / 180) ;;
       maxRadius <- HypoCycloidGear.calc_pressure_limit
                      p d e n (IZR maxAngle * PI / 180) ;;
       Ok (minRadius, maxRadius)) /\
    (forall minRadius maxRadius,
       HypoCycloidGear.calc_pressure_limit p d e n (IZR minAngle * PI / 180)
       = Ok minRadius ->
       HypoCycloidGear.calc_pressure_limit p d e n (IZR maxAngle * PI / 180)
       = Ok maxRadius ->
       HypoCycloidGear.cam_points fp p q
       = ('(x, y) <- HypoCycloidGear.cam_point
                       p d e n q maxRadius minRadius c 0 ;;
          rest <- mapM (fun i =>
                          '(x, y) <- HypoCycloidGear.cam_point
                                       p d e n q maxRadius minRadius c
                                       (i + 1) ;;
                          Ok (fcvec (P3 (x - e) y 0)))
                       (range (HypoCycloidGear.segment_count fp)) ;;
          Ok ([App.vec (x - e) y 0] ++ rest))).
Proof.
  intros d e n ang c defined.
  destruct (scan_prefix p d n ang g 180 (le_n _) defined)
    as [mA [MA [E [_ [_ [Fm FM]]]]]].
  change (Z.of_nat 180) with 180%Z in *.
  exists mA, MA.
  assert (S : HypoCycloidGear.scan p d n ang = Ok (IZR mA, IZR MA))
    by exact E.
  split; [exact S|]. split; [|split; [|split]].
  - destruct Fm as [F | [-> N]]; [left; exact F | right; now split].
  - destruct FM as [F | [EM N]]; [left; exact F|].
    right. split; [lia|exact N].
  - unfold HypoCycloidGear.limit_radii. rewrite S. reflexivity.
  - intros minRadius maxRadius Hmin Hmax.
    unfold HypoCycloidGear.cam_points, HypoCycloidGear.limit_radii.
    fold d e n ang c. rewrite S. cbn [bind]. rewrite Hmin. cbn [bind].
    rewrite Hmax. reflexivity.
Qed.

Lemma scan_takes_first_degree_below_limit_witness :
  exists minAngle maxAngle : Z,
    HypoCycloidGear.scan (A := Float.exact) (66 / 42) 3 42 50
    = Ok (IZR minAngle, IZR maxAngle) /\
    (-1 <= minAngle < 180)%Z.
Proof.
  assert (Hr : 66 / 42 * IZR 42 <> 0) by lra.
  destruct (scan_takes_first_degree_below_limit (A := Float.exact)
              (HypoCycloidGear.sample 42 true true true)
              (66 / 42) (2 * PI / 42)
              (HypoCycloidGear.pressure_at (A := Float.exact) (66 / 42) 3 42)
              (fun i _ => pressure_at_defined (66 / 42) 3 42 i Hr))
    as [mA [MA [E [Fm _]]]].
  exists mA, MA. split; [exact E|].
  destruct Fm as [[H _] | [H _]]; lia.
Defined.

(** C5 fails at degree 0.  With a limit of -100 degrees the pressure angle
    is below the negated limit from degree 0 on, so the degree before the
    first such degree would be -1; the scan returns 0. *)
Lemma scan_skips_degree_zero :
  HypoCycloidGear.first_below
    (HypoCycloidGear.pressure_at (A := Float.exact) (66 / 42) 3 42)
    (- -100) 0 180 0 /\
  HypoCycloidGear.scan (A := Float.exact) (66 / 42) 3 42 (-100)
  = Ok (IZR (-1), IZR 0).
Proof.
  assert (Hr : 66 / 42 * 42 <> 0) by lra.
  assert (B := fun i => pressure_at_bounds (66 / 42) 3 42 i Hr).
  split.
  - repeat split; try lia. specialize (B 0%Z). lra.
  - destruct (scan_prefix (A := Float.exact) (66 / 42) 3 42 (-100)
                (HypoCycloidGear.pressure_at (A := Float.exact)
                   (66 / 42) 3 42)
                180 (le_n _)
                (fun i _ => pressure_at_defined (66 / 42) 3 42 i Hr))
      as [mA [MA [E [_ [_ [Fm FM]]]]]].
    change (Z.of_nat 180) with 180%Z in *.
    unfold HypoCycloidGear.scan. rewrite E.
    assert (mA = -1)%Z as ->.
    { destruct Fm as [[_ [H _]] | [H _]]; [|lia].
      specialize (B mA). lra. }
    assert (MA = 0)%Z as ->; [|reflexivity].
    destruct FM as [[Hr1 [_ Hm]] | [_ N]].
    + destruct (Z.eq_dec (MA + 1) 1) as [H|H]; [lia|].
      exfalso. apply (Hm 1%Z); [lia|]. specialize (B 1%Z). lra.
    + exfalso. apply (N 1%Z); [lia|]. specialize (B 1%Z). lra.
Qed.

(** ** The hypocycloid cam: what is returned *)

Lemma scan_returns (p d : R) (n : Z) (ang : R) :
  p * IZR n <> 0 ->
  exists minAngle maxAngle : Z,
    HypoCycloidGear.scan (A := Float.exact) p d n ang
    = Ok (IZR minAngle, IZR maxAngle).
Proof.
  intros Hr.
  destruct (scan_prefix (A := Float.exact) p d n ang
              (HypoCycloidGear.pressure_at (A := Float.exact) p d n)
              180 (le_n _)
              (fun i _ => pressure_at_defined p d n i Hr))
    as [mA [MA [E _]]].
  exists mA, MA. exact E.
Qed.

Lemma cam_returns (fp : HypoCycloidGear.FeaturePython) (p q : R) :
  let e := HypoCycloidGear.eccentricity fp in
  let n := HypoCycloidGear.teeth_number fp in
  n <> 0%Z ->
  p <> 0 ->
  e * (IZR n + 1) <> 0 ->
  1 < Rabs (IZR n * p / (e * (IZR n + 1))) ->
  exists c, HypoCycloidGear.cam (A := Float.exact) fp p q = Ok c.
Proof.
  intros e n Hn Hp He Hk.
  assert (Hz : IZR n <> 0) by now apply not_0_IZR.
  assert (Hr : p * IZR n <> 0)
    by now apply Rmult_integral_contrapositive_currified.
  unfold HypoCycloidGear.cam, HypoCycloidGear.cam_points,
    HypoCycloidGear.limit_radii.
  fold e n.
  destruct (scan_returns p (HypoCycloidGear.roller_diameter fp) n
              (HypoCycloidGear.pressure_angle_lim fp) Hr) as [mA [MA ->]].
  simpl bind.
  destruct (calc_pressure_limit_returns
              p (HypoCycloidGear.roller_diameter fp) e n
              (IZR mA * PI / 180) Hr) as [r1 ->]. simpl bind.
  destruct (calc_pressure_limit_returns
              p (HypoCycloidGear.roller_diameter fp) e n
              (IZR MA * PI / 180) Hr) as [r2 ->]. simpl bind.
  destruct (cam_point_returns p (HypoCycloidGear.roller_diameter fp) e n q
              r2 r1 (HypoCycloidGear.pressure_angle_offset fp) 0 Hn He Hk)
    as [[x y] ->]. simpl bind.
  match goal with
  | |- context [mapM ?f ?l] =>
      destruct (mapM_returns f l) as [rest ->]
  end.
  - intros i.
    destruct (cam_point_returns p (HypoCycloidGear.roller_diameter fp) e n q
                r2 r1 (HypoCycloidGear.pressure_angle_offset fp) (i + 1)
                Hn He Hk) as [[x' y'] ->].
    simpl bind. eexists. reflexivity.
  - simpl bind. unfold HypoCycloidGear.lobe_matrix.
    rewrite truediv_ok by exact Hz. simpl bind.
    destruct (Req_dec_T (HypoCycloidGear.hole_radius fp) 0);
      eexists; reflexivity.
Qed.

(** C10, as the code has it.  When the cam profile is computed without an
    exception and none of [show_disk0], [show_disk1] and [show_pins] is set,
    nothing is collected for the compound and the function ends without a
    [return]: the result is [None]. *)
Theorem nothing_shown_returns_None `{A : Float.Arithmetic}
    (fp : HypoCycloidGear.FeaturePython) (p q : R) (c : Part.Shape) :
  Float.truediv (HypoCycloidGear.pin_circle_radius fp)
                (IZR (HypoCycloidGear.teeth_number fp)) = Ok p ->
  truediv (2 * PI) (IZR (HypoCycloidGear.segment_count fp)) = Ok q ->
  HypoCycloidGear.cam fp p q = Ok c ->
  HypoCycloidGear.show_disk0 fp = false ->
  HypoCycloidGear.show_disk1 fp = false ->
  HypoCycloidGear.show_pins fp = false ->
  HypoCycloidGear.generate_gear_shape fp = Ok None.
Proof.
  intros Hp Hq Hc H0 H1 Hs. unfold HypoCycloidGear.generate_gear_shape.
  rewrite Hp. simpl bind. rewrite Hq. simpl bind. rewrite Hc. simpl bind.
  rewrite H0, H1, Hs. reflexivity.
Qed.

Lemma nothing_shown_returns_None_witness :
  HypoCycloidGear.generate_gear_shape (A := Float.exact)
    (HypoCycloidGear.sample 42 false false false) = Ok None.
Proof.
  destruct (cam_returns (HypoCycloidGear.sample 42 false false false)
              (66 / 42) (2 * PI / 42)) as [c Hc].
  - simpl. lia.
  - lra.
  - simpl. lra.
  - simpl. rewrite Rabs_pos_eq; lra.
  - apply (nothing_shown_returns_None (A := Float.exact)
             (HypoCycloidGear.sample 42 false false false)
             (66 / 42) (2 * PI / 42) c).
    + simpl. apply truediv_ok. lra.
    + simpl. apply truediv_ok. lra.
    + exact Hc.
    + reflexivity.
    + reflexivity.
    + reflexivity.
Defined.

(** C10 fails when the profile cannot be computed: with no teeth the
    generator raises before it looks at the flags. *)
Lemma nothing_shown_no_teeth_raises :
  HypoCycloidGear.generate_gear_shape (A := Float.exact)
    (HypoCycloidGear.sample 0 false false false) = Raise ZeroDivisionError.
Proof.
  unfold HypoCycloidGear.generate_gear_shape. simpl.
  rewrite float_truediv_zero. reflexivity.
Qed.

(** ** The timing gear: the tangency angle *)

Lemma sin_2atan (t : R) : sin (2 * atan t) = 2 * t / (1 + t ^ 2).
Proof.
  assert (H : 0 < 1 + t²) by (unfold Rsqr; nra).
  assert (W := sqrt_sqrt (1 + t²) (Rlt_le _ _ H)).
  assert (Wp := sqrt_lt_R0 _ H).
  rewrite sin_2a, sin_atan, cos_atan.
  replace (1 + t ^ 2) with (sqrt (1 + t²) * sqrt (1 + t²))
    by (rewrite W; unfold Rsqr; ring).
  field. lra.
Qed.

Lemma cos_2atan (t : R) : cos (2 * atan t) = (1 - t ^ 2) / (1 + t ^ 2).
Proof.
  assert (H : 0 < 1 + t²) by (unfold Rsqr; nra).
  assert (W := sqrt_sqrt (1 + t²) (Rlt_le _ _ H)).
  assert (Wp := sqrt_lt_R0 _ H).
  rewrite cos_2a, sin_atan, cos_atan.
  replace (1 / sqrt (1 + t²) * (1 / sqrt (1 + t²))
           - t / sqrt (1 + t²) * (t / sqrt (1 + t²)))
    with ((1 - t ^ 2) / (sqrt (1 + t²) * sqrt (1 + t²))) by (field; lra).
  rewrite W. unfold Rsqr. f_equal. ring.
Qed.

(** The closed form is a root of the tangency equation wherever its square
    root and its quotient are defined. *)
Lemma phi4_is_root `{N : np.Ufuncs} (m_23y offset r5 r_23 r_34 : R) :
  0 <= TimingGear.phi4_radicand m_23y offset r5 r_23 r_34 ->
  TimingGear.phi4_denominator m_23y offset r5 r_23 r_34 <> 0 ->
  TimingGear.tangency_residual m_23y offset r5 r_23 r_34
    (TimingGear.phi4_of m_23y offset r5 r_23 r_34) = 0.
Proof.
  intros HD Hden.
  unfold TimingGear.tangency_residual, TimingGear.phi4_of.
  rewrite (np.sqrt_real _ HD).
  set (D := TimingGear.phi4_radicand m_23y offset r5 r_23 r_34) in *.
  set (den := TimingGear.phi4_denominator m_23y offset r5 r_23 r_34) in *.
  assert (Hs := sqrt_sqrt D HD).
  set (s := sqrt D) in *.
  set (t := (-2 * offset * r5 + 2 * offset * r_34 + s) / den).
  rewrite sin_2atan, cos_2atan.
  assert (H1 : 0 < 1 + t ^ 2) by nra.
  set (Rr := r5 - r_34).
  set (K := Rr ^ 2 + offset ^ 2 + m_23y ^ 2 - (r_34 + r_23) ^ 2).
  assert (Eden : den = K + 2 * Rr * m_23y).
  { unfold den, K, Rr, TimingGear.phi4_denominator. ring. }
  assert (ED : s * s = 4 * Rr ^ 2 * (offset ^ 2 + m_23y ^ 2) - K ^ 2).
  { rewrite Hs. unfold D, K, Rr, TimingGear.phi4_radicand. ring. }
  assert (Et : den * t = - 2 * offset * Rr + s).
  { unfold t, Rr. field. exact Hden. }
  assert (Q : den * (den * t ^ 2 + 4 * Rr * offset * t + (K - 2 * Rr * m_23y))
              = 0).
  { replace (den * (den * t ^ 2 + 4 * Rr * offset * t + (K - 2 * Rr * m_23y)))
      with ((den * t) ^ 2 + 4 * Rr * offset * (den * t)
            + den * (K - 2 * Rr * m_23y)) by ring.
    rewrite Et, Eden.
    replace ((- 2 * offset * Rr + s) ^ 2
             + 4 * Rr * offset * (- 2 * offset * Rr + s)
             + (K + 2 * Rr * m_23y) * (K - 2 * Rr * m_23y))
      with (s * s - (4 * Rr ^ 2 * (offset ^ 2 + m_23y ^ 2) - K ^ 2)) by ring.
    rewrite ED. ring. }
  apply Rmult_integral in Q. destruct Q as [Q|Q]; [contradiction|].
  replace ((Rr * (2 * t / (1 + t ^ 2)) + offset) ^ 2
           + (Rr * ((1 - t ^ 2) / (1 + t ^ 2)) - m_23y) ^ 2
           - (r_34 + r_23) ^ 2)
    with ((den * t ^ 2 + 4 * Rr * offset * t + (K - 2 * Rr * m_23y))
          / (1 + t ^ 2)).
  - rewrite Q. field. lra.
  - rewrite Eden. unfold K. field. lra.
Qed.


Lemma PI_bounds : 3.14 < PI < 3.15.
Proof.
  generalize (PI_2_3_7_ineq 1).
  unfold sum_f_R0, tg_alt, PI_2_3_7_tg, Ratan_seq. simpl.
  intros [H1 H2]. split; lra.
Qed.

Lemma sin_lower (a : R) :
  0 <= a <= PI -> a - a ^ 3 / 6 - a ^ 7 / 5040 <= sin a.
Proof.
  intros [H0 H1]. destruct (SIN a H0 H1) as [H _].
  unfold sin_lb, sin_approx, sum_f_R0, sin_term in H.
  rewrite !INR_IZR_INZ in H.
  change (Z.of_nat (fact (2 * 0 + 1))) with 1%Z in H.
  change (Z.of_nat (fact (2 * 1 + 1))) with 6%Z in H.
  change (Z.of_nat (fact (2 * 2 + 1))) with 120%Z in H.
  change (Z.of_nat (fact (2 * 3 + 1))) with 5040%Z in H.
  simpl in H.
  assert (0 <= a ^ 5) by (apply pow_le; lra).
  lra.
Qed.

Lemma tan_PI30 : 0.1 < tan (PI / 30).
Proof.
  assert (P := PI_bounds).
  assert (S := sin_lower (PI / 30) ltac:(lra)).
  set (a := PI / 30) in *.
  assert (Ha : 0.104 < a < 0.105) by (unfold a; lra).
  assert (0 < cos a) by (apply cos_gt_0; unfold a; lra).
  assert (C := COS_bound a).
  assert (Hs : 0.1 < sin a).
  { assert (a ^ 3 <= 0.105 ^ 3) by (apply pow_incr; lra).
    assert (a ^ 7 <= 0.105 ^ 7) by (apply pow_incr; lra).
    lra. }
  unfold tan. apply Rlt_le_trans with (sin a); [exact Hs|].
  apply Rmult_le_reg_r with (cos a); [lra|].
  replace (sin a / cos a * cos a) with (sin a) by (field; lra).
  nra.
Qed.

Lemma atan_below (t : R) : t < 0.1 -> atan t < PI / 30.
Proof.
  intros Ht. assert (P := PI_bounds). assert (T := tan_PI30).
  destruct (Rlt_dec (atan t) (PI / 30)) as [H|H]; [exact H|exfalso].
  assert (B := atan_bound t).
  destruct (Req_dec (atan t) (PI / 30)) as [E|N].
  - rewrite <- E, tan_atan in T. lra.
  - assert (L : tan (PI / 30) < tan (atan t))
      by (apply tan_increasing; lra).
    rewrite tan_atan in L. lra.
Qed.

(** The radius [r5] of the default gear: belt gt2, 15 teeth. *)
Lemma gt2_15_r5_bounds : 4.5 < 2 * 15 / PI / 2 - 0.254 < 4.53.
Proof.
  assert (P := PI_bounds).
  assert (E : 2 * 15 / PI / 2 * PI = 15) by (field; lra).
  set (y := 2 * 15 / PI / 2) in *. split; nra.
Qed.

(** For belt gt2 the centre of the flank arc is at the height [r5]. *)
Lemma gt2_flank_center (x : R) :
  0.40 / tan (atan (sqrt (1 / (((0.555 - 1) / 0.40) ^ 2 - 1))))
  + (x - 0.75 + 0.555) = x.
Proof.
  rewrite tan_atan.
  assert (E : sqrt (1 / (((0.555 - 1) / 0.40) ^ 2 - 1)) = 1 / 0.4875).
  { apply sqrt_lem_1.
    - apply Rlt_le. apply Rdiv_lt_0_compat; [lra|]. unfold Rdiv. nra.
    - lra.
    - replace (((0.555 - 1) / 0.40) ^ 2 - 1) with (0.4875 * 0.4875) by lra.
      lra. }
  rewrite E. lra.
Qed.

Lemma gt2_15_solve `{N : np.Ufuncs} :
  let x := 2 * 15 / PI / 2 - 0.254 in
  let phi_12 := atan (sqrt (1 / (((0.555 - 1) / 0.40) ^ 2 - 1))) in
  let m_12 := (0, x - 0.75 + 0.555) in
  let m_23 := (0.40, 0.40 / tan phi_12 + snd m_12) in
  TimingGear.solve Sample.timing
  = Ok (TimingGear.mkArcs phi_12 x x m_12 m_23
          (TimingGear.phi4_of (snd m_23) 0.40 x 1 0.15)).
Proof.
  intros x phi_12 m_12 m_23. unfold TimingGear.solve. simpl.
  rewrite truediv_ok by lra. simpl bind.
  rewrite truediv_ok by (unfold Rdiv; nra). simpl bind.
  rewrite np.sqrt_real; [reflexivity|].
  apply Rlt_le. apply Rdiv_lt_0_compat; [lra|]. unfold Rdiv. nra.
Qed.

(** In the default gear the closed form is defined, and its angle lies
    between 0 and the half pitch angle. *)
Lemma gt2_15_phi4 `{N : np.Ufuncs} (x : R) :
  4.5 < x < 4.53 ->
  0 <= TimingGear.phi4_radicand x 0.40 x 1 0.15 /\
  TimingGear.phi4_denominator x 0.40 x 1 0.15 <> 0 /\
  0 < TimingGear.phi4_of x 0.40 x 1 0.15 < PI / 15.
Proof.
  intros Hx.
  assert (ED : TimingGear.phi4_radicand x 0.40 x 1 0.15
               = 5.2 * x ^ 2 - 0.876 * x - 1.2852)
    by (unfold TimingGear.phi4_radicand;
        replace 0.40 with (2 / 5) by lra; replace 0.15 with (3 / 20) by lra;
        replace 5.2 with (26 / 5) by lra; replace 0.876 with (219 / 250) by lra;
        replace 1.2852 with (3213 / 2500) by lra; field).
  assert (Eden : TimingGear.phi4_denominator x 0.40 x 1 0.15
                 = 4 * x ^ 2 - 0.6 * x - 1.14)
    by (unfold TimingGear.phi4_denominator;
        replace 0.40 with (2 / 5) by lra; replace 0.15 with (3 / 20) by lra;
        replace 0.6 with (3 / 5) by lra; replace 1.14 with (57 / 50) by lra;
        field).
  assert (HD : 0 <= TimingGear.phi4_radicand x 0.40 x 1 0.15)
    by (rewrite ED; nra).
  assert (Hden : 0 < TimingGear.phi4_denominator x 0.40 x 1 0.15)
    by (rewrite Eden; nra).
  split; [exact HD|]. split; [lra|].
  unfold TimingGear.phi4_of. rewrite (np.sqrt_real _ HD).
  assert (Hs := sqrt_sqrt _ HD). assert (Hp := sqrt_pos
    (TimingGear.phi4_radicand x 0.40 x 1 0.15)).
  set (s := sqrt (TimingGear.phi4_radicand x 0.40 x 1 0.15)) in *.
  set (den := TimingGear.phi4_denominator x 0.40 x 1 0.15) in *.
  rewrite ED in Hs.
  assert (Hlo : 0.8 * x - 0.12 < s) by nra.
  assert (Hhi : s < 0.1 * den + 0.8 * x - 0.12).
  { rewrite Eden.
    assert (11 < 0.1 * (4 * x ^ 2 - 0.6 * x - 1.14) + 0.8 * x - 0.12) by nra.
    assert (s * s < 102) by nra.
    assert (s < 11) by nra. lra. }
  set (t := (-2 * 0.40 * x + 2 * 0.40 * 0.15 + s) / den).
  assert (Ht0 : 0 < t) by (apply Rdiv_lt_0_compat; lra).
  assert (Ht1 : t < 0.1).
  { apply Rmult_lt_reg_r with den; [exact Hden|].
    replace (t * den) with (-2 * 0.40 * x + 2 * 0.40 * 0.15 + s)
      by (unfold t; field; lra).
    lra. }
  assert (A0 : 0 < atan t) by (rewrite <- atan_0; now apply atan_increasing).
  assert (A1 := atan_below t Ht1). lra.
Qed.







(** ** The flat gears and the double helix, at concrete inputs *)

Lemma sample_involute_outline (fp : InvoluteGear.FeaturePython) :
  InvoluteGear.teeth fp = 4%Z ->
  InvoluteGear.gear fp = Sample.tooth0 ->
  InvoluteGear.outline (L := Sample.plain) fp
  = Ok (InvoluteGear.configured fp, Sample.outline4).
Proof.
  intros Ht Hg. unfold InvoluteGear.outline.
  cbn [bind pygears.InvoluteTooth_update pygears.InvoluteTooth_points
       Sample.plain].
  cbn [pygears.it_phipart pygears.it_z InvoluteGear.configured].
  rewrite Ht, Hg.
  rewrite (assemble_is_sectors _ _ _
             (fun k => Nat.iter k (Sample.turn (- (PI / 2))) (P2 7 (-1)))
             (fun k => Nat.iter k (Sample.turn (- (PI / 2))) (P2 7 1))).
  - reflexivity.
  - simpl. lia.
  - apply (ends_pointwise (Sample.turn (- (PI / 2)))); reflexivity.
Qed.

Lemma sample_cycloid_outline (fp : CycloidGear.FeaturePython) :
  CycloidGear.teeth fp = 4%Z ->
  CycloidGear.gear fp = Sample.ctooth0 ->
  CycloidGear.outline (L := Sample.plain) fp
  = Ok (CycloidGear.configured fp, Sample.outline4).
Proof.
  intros Ht Hg. unfold CycloidGear.outline.
  cbn [bind pygears.CycloidTooth_update pygears.CycloidTooth_points
       Sample.plain].
  cbn [pygears.ct_phipart pygears.ct_z CycloidGear.configured].
  rewrite Ht, Hg.
  rewrite (assemble_is_sectors _ _ _
             (fun k => Nat.iter k (Sample.turn (- (PI / 2))) (P2 7 (-1)))
             (fun k => Nat.iter k (Sample.turn (- (PI / 2))) (P2 7 1))).
  - reflexivity.
  - simpl. lia.
  - apply (ends_pointwise (Sample.turn (- (PI / 2)))); reflexivity.
Qed.

Lemma flat_gear_is_bare_wire_witness :
  (InvoluteGear.generate_gear_shape (L := Sample.plain) (Q := Sample.kernel)
     Sample.involute_flat = Ok (make_bspline_wire Sample.outline4) /\
   Part.builds_solid (make_bspline_wire Sample.outline4) = false) /\
  (CycloidGear.generate_gear_shape (L := Sample.plain) (Q := Sample.kernel)
     Sample.cycloid_flat = Ok (make_bspline_wire Sample.outline4) /\
   Part.builds_solid (make_bspline_wire Sample.outline4) = false) /\
  (exists arcs,
     length arcs = 6%nat /\
     TimingGear.generate_gear_shape (L := Sample.plain) (N := Sample.numpy)
       Sample.timing_flat
     = Ok (Part.Wire
             (Part.Wire arcs
              :: replicate 14
                   (App.rotateZ (PI * 2 / IZR 15) App.identity)
                   (Part.Wire arcs))) /\
     Part.builds_solid
       (Part.Wire
          (Part.Wire arcs
           :: replicate 14
                (App.rotateZ (PI * 2 / IZR 15) App.identity)
                (Part.Wire arcs))) = false) /\
  (InvoluteGear.generate_gear_shape (L := Sample.plain) (Q := Sample.kernel)
     Sample.involute_simple_flat = Ok (Part.makeCylinder (4 / 2) 0)).
Proof.
  destruct (gt2_15_phi4 (N := Sample.numpy) _ gt2_15_r5_bounds)
    as [HD [Hden _]].
  assert (S := gt2_15_solve (N := Sample.numpy)). cbv zeta in S.
  match type of S with
  | _ = Ok ?a =>
      destruct (flat_gear_is_bare_wire
                  (L := Sample.plain) (Q := Sample.kernel) (N := Sample.numpy)
                  Sample.involute_flat
                  (InvoluteGear.configured Sample.involute_flat)
                  Sample.cycloid_flat
                  (CycloidGear.configured Sample.cycloid_flat)
                  Sample.outline4 Sample.outline4 Sample.timing_flat a
                  Sample.involute_simple_flat
                  (InvoluteGear.configured Sample.involute_simple_flat)
                  Sample.outline4)
        as [Hi [Hc [[arcs [Hw [Hn [Ht Hb]]]] [Hs _]]]]
  end.
  - apply plain_involute_outline.
  - reflexivity.
  - reflexivity.
  - apply plain_cycloid_outline.
  - reflexivity.
  - simpl. lia.
  - reflexivity.
  - exact S.
  - cbn [TimingGear.a_m_23 TimingGear.a_r5 snd Sample.timing_flat
         TimingGear.type TimingGear.data TimingGear.d_offset TimingGear.d_r1
         TimingGear.d_rs].
    rewrite gt2_flank_center. exact HD.
  - cbn [TimingGear.a_m_23 TimingGear.a_r5 snd Sample.timing_flat
         TimingGear.type TimingGear.data TimingGear.d_offset TimingGear.d_r1
         TimingGear.d_rs].
    rewrite gt2_flank_center. exact Hden.
  - apply plain_involute_outline.
  - reflexivity.
  - split; [exact Hi|]. split; [exact Hc|]. split; [|exact Hs].
    exists arcs. split; [exact Hn|]. split; [exact Ht|exact Hb].
Defined.

(** C2 fails for an involute gear drawn [simple]: with height 0 the
    generator asks the kernel for a cylinder, not for the outline wire. *)
Lemma simple_flat_involute_is_cylinder :
  InvoluteGear.height Sample.involute_simple_flat = 0 /\
  InvoluteGear.generate_gear_shape (L := Sample.plain) (Q := Sample.kernel)
    Sample.involute_simple_flat = Ok (Part.makeCylinder (4 / 2) 0) /\
  Part.builds_solid (Part.makeCylinder (4 / 2) 0) = true.
Proof.
  split; [reflexivity|]. split; [|reflexivity].
  unfold InvoluteGear.generate_gear_shape.
  unfold Sample.involute_simple_flat. rewrite plain_involute_outline.
  reflexivity.
Qed.

Lemma double_helix_is_mirror_symmetric_witness :
  let ez := App.vec 0 0 1 in
  let mirrored := fun f => Part.mirror f (App.vec 0 0 0) ez in
  let wire := make_bspline_wire Sample.outline4 in
  let side := Part.makeLoft [wire] false false in
  let top := Part.translate (Part.Face [wire]) ez in
  let solid :=
    Part.transformGeometry
      (Part.makeSolid
         (Part.makeShell ([top; side] ++ [mirrored top; mirrored side])))
      (App.move (App.vec 0 0 (0.5 * 5)) App.identity) in
  InvoluteGear.generate_gear_shape (L := Sample.plain) (Q := Sample.kernel)
    Fixture.involute_herringbone = Ok solid /\
  CycloidGear.generate_gear_shape (L := Sample.plain) (Q := Sample.kernel)
    Fixture.cycloid_herringbone = Ok solid.
Proof.
  intros ez mirrored wire side top solid.
  destruct (double_helix_is_mirror_symmetric
              (L := Sample.plain) (Q := Sample.kernel)
              Fixture.involute_herringbone
              (InvoluteGear.configured Fixture.involute_herringbone)
              Sample.outline4
              Fixture.cycloid_herringbone
              (CycloidGear.configured Fixture.cycloid_herringbone)
              Sample.outline4)
    as [Ei [Ec _]].
  - intros s. reflexivity.
  - intros f. left. reflexivity.
  - intros f. reflexivity.
  - apply sample_involute_outline; reflexivity.
  - reflexivity.
  - simpl. lra.
  - simpl. lra.
  - reflexivity.
  - apply sample_cycloid_outline; reflexivity.
  - simpl. lra.
  - simpl. lra.
  - reflexivity.
  - split.
    + rewrite Ei. rewrite sample_kept_faces. reflexivity.
    + rewrite Ec. rewrite sample_kept_faces. reflexivity.
Defined.

(** C8 fails for an involute gear drawn [simple]: with a height of 5, a
    helix angle of 45 degrees and the double-helix flag, the generator asks
    the kernel for a cylinder, and sweeps nothing. *)
Lemma simple_double_helix_is_cylinder :
  0 < InvoluteGear.height Fixture.involute_simple_herringbone /\
  InvoluteGear.beta Fixture.involute_simple_herringbone <> 0 /\
  InvoluteGear.double_helix Fixture.involute_simple_herringbone = true /\
  InvoluteGear.generate_gear_shape (L := Sample.plain) (Q := Sample.kernel)
    Fixture.involute_simple_herringbone = Ok (Part.makeCylinder (4 / 2) 5).
Proof.
  split; [simpl; lra|]. split; [simpl; lra|]. split; [reflexivity|].
  unfold InvoluteGear.generate_gear_shape.
  rewrite sample_involute_outline by reflexivity. reflexivity.
Qed.

(** ** Invalid input *)

Lemma involute_checked_rejects `{L : pygears.Library} `{Q : Part.Queries}
    (fp : InvoluteGear.FeaturePython) :
  (InvoluteGear.teeth fp <= 0)%Z ->
  InvoluteGear.generate_gear_shape (L := Calculator.checked L) fp
  = Raise InvalidParameter.
Proof.
  intros Hz. unfold InvoluteGear.generate_gear_shape, InvoluteGear.outline.
  cbn [pygears.InvoluteTooth_update Calculator.checked].
  unfold Calculator.InvoluteTooth_update.
  cbn [pygears.it_z pygears.it_m_n InvoluteGear.configured].
  apply Z.leb_le in Hz. rewrite Hz, orb_true_r. reflexivity.
Qed.

Lemma bevel_checked_rejects `{L : pygears.Library}
    (fp : BevelGear.FeaturePython) :
  BevelGear.pitch_angle fp <= 0 ->
  BevelGear.generate_gear_shape (L := Calculator.checked L) fp
  = Raise InvalidParameter.
Proof.
  intros Ha. unfold BevelGear.generate_gear_shape, BevelGear.outline.
  cbn [pygears.BevelTooth_update Calculator.checked].
  unfold Calculator.BevelTooth_update.
  cbn [pygears.bt_pitch_angle BevelGear.configured].
  rewrite (leb0_nonpos (BevelGear.pitch_angle fp * PI / 180)).
  - rewrite orb_true_r. reflexivity.
  - assert (P := PI_RGT_0). nra.
Qed.

Lemma hypocycloid_toothless_raises `{A : Float.Arithmetic}
    (fp : HypoCycloidGear.FeaturePython) :
  HypoCycloidGear.teeth_number fp = 0%Z ->
  HypoCycloidGear.generate_gear_shape fp = Raise ZeroDivisionError.
Proof.
  intros Hn. unfold HypoCycloidGear.generate_gear_shape.
  rewrite Hn, float_truediv_zero. reflexivity.
Qed.

Lemma timing_toothless_raises `{L : pygears.Library} `{N : np.Ufuncs}
    (fp : TimingGear.FeaturePython) :
  TimingGear.teeth fp = 0%Z ->
  TimingGear.generate_gear_shape fp = Raise ZeroDivisionError.
Proof.
  intros Hn. unfold TimingGear.generate_gear_shape.
  destruct (solve_returns fp) as [a ->]. simpl bind.
  unfold TimingGear.tooth_wire. rewrite Hn, truediv_zero. reflexivity.
Qed.

(** C3, as the code has it.  With the parameter check of the tooth
    generators, an involute gear without teeth and a bevel gear with pitch
    angle 0 fail with [InvalidParameter], before any outline is assembled.
    The generators written out in [features.py] have no such check: a
    hypocycloid cam and a timing gear without teeth fail with
    [ZeroDivisionError].  In all four cases nothing is returned. *)
Theorem invalid_input_raises `{L : pygears.Library} `{Q : Part.Queries}
    `{A : Float.Arithmetic} `{N : np.Ufuncs}
    (fi : InvoluteGear.FeaturePython) (fb : BevelGear.FeaturePython)
    (fh : HypoCycloidGear.FeaturePython) (ft : TimingGear.FeaturePython) :
  (InvoluteGear.teeth fi <= 0)%Z ->
  BevelGear.pitch_angle fb <= 0 ->
  HypoCycloidGear.teeth_number fh = 0%Z ->
  TimingGear.teeth ft = 0%Z ->
  InvoluteGear.generate_gear_shape (L := Calculator.checked L) fi
  = Raise InvalidParameter /\
  BevelGear.generate_gear_shape (L := Calculator.checked L) fb
  = Raise InvalidParameter /\
  HypoCycloidGear.generate_gear_shape fh = Raise ZeroDivisionError /\
  TimingGear.generate_gear_shape (L := Calculator.checked L) ft
  = Raise ZeroDivisionError.
Proof.
  intros Hi Hb Hh Ht. repeat split.
  - now apply involute_checked_rejects.
  - now apply bevel_checked_rejects.
  - now apply hypocycloid_toothless_raises.
  - now apply timing_toothless_raises.
Qed.

Lemma invalid_input_raises_witness :
  InvoluteGear.generate_gear_shape (L := Sample.library) (Q := Sample.kernel)
    Sample.involute_toothless = Raise InvalidParameter /\
  BevelGear.generate_gear_shape (L := Sample.library) (Sample.bevel_with 0)
  = Raise InvalidParameter /\
  HypoCycloidGear.generate_gear_shape (A := Float.exact)
    (HypoCycloidGear.sample 0 true true true) = Raise ZeroDivisionError /\
  TimingGear.generate_gear_shape (L := Sample.library) (N := Sample.numpy)
    Sample.timing_toothless
  = Raise ZeroDivisionError.
Proof.
  apply (invalid_input_raises (L := Sample.plain) (Q := Sample.kernel)
           (A := Float.exact) (N := Sample.numpy)
           Sample.involute_toothless (Sample.bevel_with 0)
           (HypoCycloidGear.sample 0 true true true)
           Sample.timing_toothless).
  - simpl. lia.
  - simpl. lra.
  - reflexivity.
  - reflexivity.
Defined.

(** C3 fails for the hypocycloid cam: without teeth the default cam raises
    [ZeroDivisionError], which is not [InvalidParameter]. *)
Lemma hypocycloid_toothless_is_zero_division :
  HypoCycloidGear.generate_gear_shape (A := Float.exact)
    (HypoCycloidGear.sample 0 true true true) = Raise ZeroDivisionError /\
  HypoCycloidGear.generate_gear_shape (A := Float.exact)
    (HypoCycloidGear.sample 0 true true true) <> Raise InvalidParameter.
Proof.
  assert (E : HypoCycloidGear.generate_gear_shape (A := Float.exact)
                (HypoCycloidGear.sample 0 true true true)
              = Raise ZeroDivisionError)
    by (apply hypocycloid_toothless_raises; reflexivity).
  split; [exact E|]. rewrite E. discriminate.
Qed.

(** ** The outline as a closed chain *)

Section ChainFacts.

Context {point : Type}.

Lemma last_point_cons (a : list point) (t : list (list point)) :
t <> [] -> Outline.last_point (a :: t) = Outline.last_point t.
Proof.
intros Ht. destruct (exists_last Ht) as [t' [x ->]].
unfold Outline.last_point, Outline.polyline.
now rewrite app_comm_cons, !last_opt_app.
Qed.

Lemma last_point_single (a : list point) (p : point) :
Outline.last_point [a] = Ok p -> Outline.last_opt a = Some p.
Proof.
unfold Outline.last_point, Outline.polyline.
change (Outline.last_opt [a]) with (Some a). cbv beta iota.
destruct (Outline.last_opt a); intros E; [|discriminate E].
now injection E as ->.
Qed.

Lemma linked_app (l1 l2 : list (list point)) (p : point) :
Chain.linked l1 -> Chain.linked l2 ->
Outline.last_point l1 = Ok p -> Outline.first_point l2 = Ok p ->
Chain.linked (l1 ++ l2).
Proof.
induction l1 as [|a t IH]; intros H1 H2 Hl Hf; [discriminate Hl|].
destruct t as [|b t'].
- destruct l2 as [|[|x b] l2]; try discriminate Hf.
  simpl in Hf. injection Hf as ->.
  cbn [app Chain.linked]. split; [|exact H2].
  exists p. split; [now apply last_point_single|reflexivity].
- destruct H1 as [Hab Ht].
  change ((a :: b :: t') ++ l2) with (a :: b :: (t' ++ l2)).
  cbn [Chain.linked]. split; [exact Hab|].
  apply IH; [exact Ht|exact H2| |exact Hf].
  rewrite last_point_cons in Hl by discriminate. exact Hl.
Qed.

Lemma linked_map (f : point -> point) (l : list (list point)) :
Chain.linked l -> Chain.linked (map (map f) l).
Proof.
induction l as [|a t IH]; [easy|].
destruct t as [|b t']; [easy|].
intros [[p [Ha Hb]] Ht]. cbn [map Chain.linked]. split.
- exists (f p). rewrite last_opt_map, Ha. split; [reflexivity|].
  destruct b as [|x b]; [discriminate Hb|].
  simpl in Hb. injection Hb as ->. reflexivity.
- apply IH, Ht.
Qed.

Lemma linked_copy (f : point -> point) (tooth : list (list point))
  (k : nat) :
Chain.linked tooth -> Chain.linked (Outline.copy (map f) tooth k).
Proof.
intros H. induction k as [|k IH]; [exact H|].
simpl. now apply linked_map.
Qed.

Lemma last_point_segment (l : list (list point)) (a b : point) :
Outline.last_point (l ++ [[a; b]]) = Ok b.
Proof. now apply last_point_app. Qed.

Lemma linked_partial (f : point -> point) (tooth : list (list point))
  (p q : point) (n : nat) :
Chain.linked tooth ->
Outline.first_point tooth = Ok p ->
Outline.last_point tooth = Ok q ->
Chain.linked (Outline.partial (map f) tooth
                (fun k => Nat.iter k f p) (fun k => Nat.iter k f q) n).
Proof.
intros Hl Hp Hq.
pose proof (ends_pointwise f tooth p q (S n) Hp Hq) as He.
induction n as [|n IH].
- unfold Outline.partial. simpl. exact Hl.
- rewrite partial_S.
  assert (He' : Outline.ends (map f) tooth (S n)
                  (fun k => Nat.iter k f p) (fun k => Nat.iter k f q))
    by (intros k Hk; apply He; lia).
  apply linked_app with (p := Nat.iter (S n) f p).
  + apply linked_app with (p := Nat.iter n f q).
    * apply IH, He'.
    * exact I.
    * apply (last_point_partial (map f) tooth _ _ (S n) He'). lia.
    * reflexivity.
  + now apply linked_copy.
  + apply last_point_segment.
  + apply (He (S n)). lia.
Qed.

End ChainFacts.

Lemma assemble_at_least_one {point : Type} (rot : list point -> list point)
    (z : Z) (tooth : list (list point)) :
  Outline.assemble rot z tooth = Outline.assemble rot (Z.max z 1) tooth.
Proof.
  unfold Outline.assemble.
  replace (Z.to_nat (Z.max z 1 - 1)) with (Z.to_nat (z - 1)) by lia.
  reflexivity.
Qed.

(** X1. Whatever the tooth count, when the polylines of one tooth form a
    chain (each ends where the next begins) and the rotation acts point by
    point, the assembler returns an outline that is a closed chain: every
    polyline of it, joining segments included, ends at the point at which
    the next one begins, and the last one ends at the first point of the
    first. *)
Theorem outline_is_closed_chain {point : Type} (f : point -> point)
    (z : Z) (tooth : list (list point)) (p q : point) :
  Chain.linked tooth ->
  Outline.first_point tooth = Ok p ->
  Outline.last_point tooth = Ok q ->
  exists out,
    Outline.assemble (map f) z tooth = Ok out /\ Chain.closed out.
Proof.
  intros Hl Hp Hq.
  set (first := fun k => Nat.iter k f p).
  set (last := fun k => Nat.iter k f q).
  set (n := Z.to_nat (Z.max z 1)).
  assert (He : Outline.ends (map f) tooth n first last)
    by now apply ends_pointwise.
  assert (Hn : (0 < n)%nat) by (unfold n; lia).
  exists (Outline.sectors (map f) n tooth first last). split.
  - rewrite assemble_at_least_one.
    apply assemble_is_sectors; [lia|exact He].
  - rewrite (sectors_partial (map f) tooth first last n He Hn).
    assert (Hf : Outline.first_point
                   (Outline.partial (map f) tooth first last (n - 1))
                 = Ok p)
      by exact (first_point_partial (map f) tooth first last n He (n - 1) Hn).
    split.
    + apply linked_app with (p := last (n - 1)%nat).
      * now apply linked_partial.
      * exact I.
      * apply (last_point_partial (map f) tooth first last n He). lia.
      * reflexivity.
    + exists p. split.
      * now apply first_point_app.
      * apply last_point_segment.
Qed.

Lemma outline_is_closed_chain_witness :
  exists out,
    Outline.assemble (map (Sample.turn (- (PI / 2)))) 4 Sample.tooth = Ok out
    /\ Chain.closed out.
Proof.
  apply (outline_is_closed_chain (Sample.turn (- (PI / 2))) 4 Sample.tooth
           (P2 7 (-1)) (P2 7 1)).
  - simpl. split; [|exact I]. exists (P2 8 0). split; reflexivity.
  - reflexivity.
  - reflexivity.
Defined.

Lemma loop_lengths {point : Type} (rot : list point -> list point)
    (tooth : list (list point)) (n : nat)
    (pts rotated : list (list point)) :
  Outline.loop rot n (tooth, tooth) = Ok (pts, rotated) ->
  length rotated = length tooth /\
  length pts = (S n * length tooth + n)%nat.
Proof.
  revert pts rotated. induction n as [|n IH]; intros pts rotated.
  - simpl. intros E. injection E as <- <-. lia.
  - rewrite loop_snoc.
    destruct (Outline.loop rot n _) as [[pts' r']|e];
      [|intros E; simpl in E; discriminate E].
    destruct (IH pts' r' eq_refl) as [Hr Hp].
    simpl bind. unfold Outline.step.
    destruct (Outline.last_point _) as [a|e]; [|intros E; simpl in E; discriminate E].
    destruct (Outline.first_point _) as [b|e];
      [|intros E; simpl in E; discriminate E].
    simpl bind. intros E. injection E as <- <-.
    unfold Outline.polyline in *.
    rewrite !length_app, !length_map. simpl length. lia.
Qed.

(** X2. Whenever the assembler returns an outline, it holds one sector per
    tooth: as many polylines as the tooth has plus one joining segment,
    times the tooth count.  A tooth count below 1 gives the outline of one
    tooth; the assembler itself rejects no count. *)
Theorem outline_has_one_sector_per_tooth {point : Type}
    (rot : list point -> list point) (z : Z)
    (tooth out : list (list point)) :
  Outline.assemble rot z tooth = Ok out ->
  length out = (Z.to_nat (Z.max z 1) * (length tooth + 1))%nat.
Proof.
  unfold Outline.assemble.
  destruct (Outline.loop rot (Z.to_nat (z - 1)) _)
    as [[pts r]|e] eqn:E; [|intros H; simpl in H; discriminate H].
  destruct (loop_lengths rot tooth _ pts r E) as [_ Hp].
  simpl bind.
  destruct (Outline.last_point _) as [a|e]; [|intros H; simpl in H; discriminate H].
  destruct (Outline.first_point _) as [b|e]; [|intros H; simpl in H; discriminate H].
  simpl bind. intros H. injection H as <-.
  unfold Outline.polyline in *.
  rewrite length_app, Hp. simpl length.
  replace (Z.to_nat (Z.max z 1)) with (S (Z.to_nat (z - 1))) by lia.
  lia.
Qed.

Lemma outline_has_one_sector_per_tooth_witness :
  length Sample.outline4 = (Z.to_nat (Z.max 4 1) * (length Sample.tooth + 1))%nat.
Proof.
  apply (outline_has_one_sector_per_tooth (map (Sample.turn (- (PI / 2)))) 4
           Sample.tooth Sample.outline4).
  apply assemble_is_sectors; [lia|].
  apply ends_pointwise; reflexivity.
Defined.

Lemma assemble_without_last_point {point : Type}
    (rot : list point -> list point) (z : Z) (tooth : list (list point))
    (e : exn) :
  Outline.last_point tooth = Raise e ->
  Outline.assemble rot z tooth = Raise e.
Proof.
  intros H. unfold Outline.assemble.
  destruct (Z.to_nat (z - 1)) as [|n]; simpl.
  - now rewrite H.
  - now rewrite H.
Qed.

(** X3. The assembler raises [IndexError] on a tooth without polylines and
    on a tooth whose last polyline is empty, for every tooth count and
    rotation: [pts[-1][-1]] is read before anything is appended. *)
Theorem assemble_empty_tooth_raises {point : Type}
    (rot : list point -> list point) (z : Z) :
  Outline.assemble rot z [] = Raise IndexError /\
  forall tooth, Outline.assemble rot z (tooth ++ [[]]) = Raise IndexError.
Proof.
  split; [now apply assemble_without_last_point|].
  intros tooth. apply assemble_without_last_point.
  unfold Outline.last_point, Outline.polyline.
  now rewrite last_opt_app.
Qed.

(** ** Solids of the involute, cycloid and bevel gears *)

Lemma helicalextrusion_builds_solid `{Q : Part.Queries} (wire : Part.Shape)
    (height angle : R) (double_helix : bool) :
  Part.builds_solid (helicalextrusion wire height angle double_helix) = true.
Proof. unfold helicalextrusion. destruct double_helix; reflexivity. Qed.

Lemma not_true_false (b : bool) : b <> true -> b = false.
Proof. destruct b; [intros H; now elim H|reflexivity]. Qed.

(** X4. Once the outline is there, an involute gear is a solid exactly
    when it is drawn [simple] or its height is not 0, and a cycloid gear
    exactly when its height is not 0: no branch with a height returns a
    wire, whatever the helix angle. *)
Theorem solid_exactly_when_tall_or_simple
    `{L : pygears.Library} `{Q : Part.Queries}
    (fi : InvoluteGear.FeaturePython) (gi : pygears.InvoluteTooth)
    (fc : CycloidGear.FeaturePython) (gc : pygears.CycloidTooth)
    (pi pc : list (list ndpoint)) :
  InvoluteGear.outline fi = Ok (gi, pi) ->
  CycloidGear.outline fc = Ok (gc, pc) ->
  (exists s, InvoluteGear.generate_gear_shape fi = Ok s /\
     (Part.builds_solid s = true <->
      InvoluteGear.simple fi = true \/ InvoluteGear.height fi <> 0)) /\
  (exists s, CycloidGear.generate_gear_shape fc = Ok s /\
     (Part.builds_solid s = true <-> CycloidGear.height fc <> 0)).
Proof.
  intros Oi Oc. split.
  - unfold InvoluteGear.generate_gear_shape. rewrite Oi. simpl bind.
    destruct (InvoluteGear.simple fi); simpl negb; cbv iota.
    + eexists. split; [reflexivity|]. simpl. tauto.
    + destruct (Req_dec_T (InvoluteGear.height fi) 0) as [Hh|Hh].
      * eexists. split; [reflexivity|].
        fold (make_bspline_wire pi).
        rewrite wire_of_curves_builds_no_solid. split.
        -- intros H. discriminate H.
        -- intros [H|H]; [discriminate H|contradiction].
      * destruct (Req_dec_T (InvoluteGear.beta fi) 0);
          (eexists; split; [reflexivity|]).
        -- simpl. tauto.
        -- rewrite helicalextrusion_builds_solid. tauto.
  - unfold CycloidGear.generate_gear_shape. rewrite Oc. simpl bind.
    destruct (Req_dec_T (CycloidGear.height fc) 0) as [Hh|Hh].
    + eexists. split; [reflexivity|].
      fold (make_bspline_wire pc).
      rewrite wire_of_curves_builds_no_solid. split.
      * intros H. discriminate H.
      * intros H. contradiction.
    + destruct (Req_dec_T (CycloidGear.beta fc) 0);
        (eexists; split; [reflexivity|]).
      * simpl. tauto.
      * rewrite helicalextrusion_builds_solid. tauto.
Qed.

Lemma solid_exactly_when_tall_or_simple_witness :
  (exists s,
     InvoluteGear.generate_gear_shape (L := Sample.plain) (Q := Sample.kernel)
       Sample.involute = Ok s /\
     (Part.builds_solid s = true <->
      InvoluteGear.simple Sample.involute = true \/
      InvoluteGear.height Sample.involute <> 0)) /\
  (exists s,
     CycloidGear.generate_gear_shape (L := Sample.plain) (Q := Sample.kernel)
       Sample.cycloid = Ok s /\
     (Part.builds_solid s = true <-> CycloidGear.height Sample.cycloid <> 0)).
Proof.
  apply (solid_exactly_when_tall_or_simple (L := Sample.plain)
           (Q := Sample.kernel)
           Sample.involute (InvoluteGear.configured Sample.involute)
           Sample.cycloid (CycloidGear.configured Sample.cycloid)
           Sample.outline4 Sample.outline4).
  - exact (plain_involute_outline false 5).
  - exact (plain_cycloid_outline 5).
Defined.

Lemma helix_pitch (h t d : R) :
  0 < h -> 0 < d -> t <> 0 ->
  h * 2 * PI / Rabs (h * t * 2 / d) = PI * d / Rabs t.
Proof.
  intros Hh Hd Ht.
  assert (E : Rabs (h * t * 2 / d) = h * Rabs t * 2 / d).
  { unfold Rdiv. rewrite !Rabs_mult, Rabs_inv.
    rewrite (Rabs_pos_eq h), (Rabs_pos_eq 2), (Rabs_pos_eq d) by lra.
    reflexivity. }
  rewrite E. assert (Hr : Rabs t <> 0) by now apply Rabs_no_R0.
  field. repeat split; lra.
Qed.

Lemma helix_direction (h t d : R) :
  0 < h -> 0 < d ->
  (if Rlt_dec (h * t * 2 / d) 0 then true else false)
  = (if Rlt_dec t 0 then true else false).
Proof.
  intros Hh Hd.
  assert (Hk : 0 < h * 2 / d) by (apply Rdiv_lt_0_compat; lra).
  assert (E : h * t * 2 / d = t * (h * 2 / d)) by (field; lra).
  rewrite E.
  destruct (Rlt_dec (t * (h * 2 / d)) 0), (Rlt_dec t 0);
    try reflexivity; exfalso; nra.
Qed.

(** X5. A helical involute gear that is not [simple] and not a double
    helix, with a positive height and pitch diameter, is swept along a
    helix over its whole height.  The lead of the helix is
    [PI * d / |tan beta|], the lead of a helix that crosses the pitch
    cylinder at the helix angle; it does not depend on the height.  The
    helix is left-handed exactly when [tan beta] is negative. *)
Theorem involute_helix_lead `{L : pygears.Library} `{Q : Part.Queries}
    (fp : InvoluteGear.FeaturePython) (g : pygears.InvoluteTooth)
    (pts : list (list ndpoint)) :
  InvoluteGear.outline fp = Ok (g, pts) ->
  InvoluteGear.simple fp = false ->
  InvoluteGear.double_helix fp = false ->
  0 < InvoluteGear.height fp ->
  InvoluteGear.beta fp <> 0 ->
  0 < pygears.it_d g ->
  tan (pygears.it_beta g) <> 0 ->
  InvoluteGear.generate_gear_shape fp
  = Ok (Part.makePipeShell
          (Part.makeHelix
             (PI * pygears.it_d g / Rabs (tan (pygears.it_beta g)))
             (InvoluteGear.height fp) 10 0
             (if Rlt_dec (tan (pygears.it_beta g)) 0 then true else false))
          [make_bspline_wire pts] true true).
Proof.
  intros O Hs Hd Hh Hb Hpd Ht.
  unfold InvoluteGear.generate_gear_shape. rewrite O. simpl bind.
  rewrite Hs. simpl negb. cbv iota.
  destruct (Req_dec_T (InvoluteGear.height fp) 0) as [E|_]; [lra|].
  destruct (Req_dec_T (InvoluteGear.beta fp) 0) as [E|_]; [contradiction|].
  rewrite Hd. unfold helicalextrusion.
  rewrite helix_pitch, helix_direction by assumption.
  reflexivity.
Qed.

Lemma helical_involute_outline :
  InvoluteGear.outline (L := Sample.plain) Fixture.involute_helical
  = Ok (InvoluteGear.configured Fixture.involute_helical, Sample.outline4).
Proof.
  unfold InvoluteGear.outline.
  cbn [bind pygears.InvoluteTooth_update pygears.InvoluteTooth_points
       Sample.plain].
  rewrite (assemble_is_sectors _ _ _
             (fun k => Nat.iter k (Sample.turn (- (PI / 2))) (P2 7 (-1)))
             (fun k => Nat.iter k (Sample.turn (- (PI / 2))) (P2 7 1))).
  - reflexivity.
  - simpl. lia.
  - apply (ends_pointwise (Sample.turn (- (PI / 2)))); reflexivity.
Qed.

Lemma tan_45_degrees : tan (45 * PI / 180) = 1.
Proof.
  replace (45 * PI / 180) with (PI / 4) by field. apply tan_PI4.
Qed.

Lemma involute_helix_lead_witness :
  InvoluteGear.generate_gear_shape (L := Sample.plain) (Q := Sample.kernel)
    Fixture.involute_helical
  = Ok (Part.makePipeShell
          (Part.makeHelix (PI * 4 / Rabs (tan (45 * PI / 180))) 5 10 0
             (if Rlt_dec (tan (45 * PI / 180)) 0 then true else false))
          [make_bspline_wire Sample.outline4] true true).
Proof.
  apply (involute_helix_lead (L := Sample.plain) (Q := Sample.kernel)
           Fixture.involute_helical
           (InvoluteGear.configured Fixture.involute_helical)
           Sample.outline4).
  - apply helical_involute_outline.
  - reflexivity.
  - reflexivity.
  - simpl. lra.
  - simpl. lra.
  - simpl. lra.
  - simpl. rewrite tan_45_degrees. lra.
Defined.

(** X6. A bevel gear without teeth raises [ZeroDivisionError] when its
    tooth generator accepts the parameters: the rotation angle
    [2 * PI / teeth] is computed right after the tooth points, before the
    outline loop could run. *)
Theorem bevel_toothless_is_zero_division `{L : pygears.Library}
    (fp : BevelGear.FeaturePython) (g : pygears.BevelTooth)
    (pts : list (list ndpoint)) :
  pygears.BevelTooth_update (BevelGear.configured fp) = Ok g ->
  pygears.BevelTooth_points g (BevelGear.numpoints fp) = Ok pts ->
  BevelGear.teeth fp = 0%Z ->
  BevelGear.generate_gear_shape fp = Raise ZeroDivisionError.
Proof.
  intros Hu Hp Ht. unfold BevelGear.generate_gear_shape, BevelGear.outline.
  rewrite Hu. simpl bind. rewrite Hp. simpl bind.
  rewrite Ht, truediv_zero. reflexivity.
Qed.

Lemma bevel_toothless_is_zero_division_witness :
  BevelGear.generate_gear_shape (L := Sample.plain) Fixture.bevel_toothless
  = Raise ZeroDivisionError.
Proof.
  apply (bevel_toothless_is_zero_division (L := Sample.plain)
           Fixture.bevel_toothless
           (BevelGear.configured Fixture.bevel_toothless) Sample.tooth);
    reflexivity.
Defined.

(** X7. Once the outline is there, a bevel gear is always a solid loft,
    also with height 0: there is no branch that returns the wire.  The
    loft goes through the outline scaled about the apex of the cone, from
    the scale [scale_0] to the scale [scale_1], which is [scale_0] plus the
    height: through these two copies for a helix angle of 0, and otherwise
    through 20 copies at evenly spaced scales, each point of which is also
    passed through [spherical_rot], with the same angle argument for every
    copy. *)
Theorem bevel_is_always_lofted `{L : pygears.Library}
    (fp : BevelGear.FeaturePython) (g : pygears.BevelTooth)
    (pts : list (list ndpoint)) :
  BevelGear.outline fp = Ok (g, pts) ->
  let scale := BevelGear.scale_of fp in
  let scale_0 :=
    if BevelGear.has_version fp then scale - BevelGear.height fp
    else scale - BevelGear.height fp / 2 in
  let scale_1 :=
    if BevelGear.has_version fp then scale
    else scale + BevelGear.height fp / 2 in
  let angle :=
    BevelGear.beta fp * PI / 180 * sin (PI / 4)
    / sin (BevelGear.pitch_angle fp * PI / 180) in
  let station := fun scale_i =>
    make_bspline_wire
      (map (map (fun p =>
                   if Req_dec_T (BevelGear.beta fp) 0
                   then BevelGear.scale_point scale_i p
                   else BevelGear.spherical_rot
                          (BevelGear.scale_point scale_i p) angle))
           pts) in
  let stations :=
    if Req_dec_T (BevelGear.beta fp) 0 then [scale_0; scale_1]
    else BevelGear.linspace20 scale_0 scale_1 in
  exists s,
    BevelGear.generate_gear_shape fp = Ok s /\
    Geometry.loft_of s = Some (map station stations, true, false) /\
    Part.builds_solid s = true /\
    length stations
    = (if Req_dec_T (BevelGear.beta fp) 0 then 2 else 20)%nat /\
    hd_error stations = Some scale_0 /\
    Outline.last_opt stations = Some scale_1 /\
    scale_1 - scale_0 = BevelGear.height fp /\
    (forall k, (k < 19)%nat ->
       nth (S k) (BevelGear.linspace20 scale_0 scale_1) 0
       - nth k (BevelGear.linspace20 scale_0 scale_1) 0
       = BevelGear.height fp / 19).
Proof.
  intros O scale scale_0 scale_1 angle station stations.
  assert (E0 : (if negb (BevelGear.has_version fp)
                then scale - BevelGear.height fp / 2
                else scale - BevelGear.height fp) = scale_0)
    by (unfold scale_0; destruct (BevelGear.has_version fp); reflexivity).
  assert (E1 : (if negb (BevelGear.has_version fp)
                then scale + BevelGear.height fp / 2 else scale) = scale_1)
    by (unfold scale_1; destruct (BevelGear.has_version fp); reflexivity).
  assert (Hh : scale_1 - scale_0 = BevelGear.height fp).
  { unfold scale_1, scale_0. destruct (BevelGear.has_version fp); field. }
  unfold BevelGear.generate_gear_shape. rewrite O. cbn [bind].
  fold scale. rewrite E0, E1. fold angle.
  set (wires := if Req_dec_T (BevelGear.beta fp) 0 then _ else _).
  assert (W : wires = map station stations).
  { unfold wires, stations, station.
    destruct (Req_dec_T (BevelGear.beta fp) 0); [reflexivity|].
    apply map_ext. intros scale_i. f_equal.
    apply map_ext. intros pt. now rewrite map_map. }
  assert (Hl : length stations
               = (if Req_dec_T (BevelGear.beta fp) 0 then 2 else 20)%nat).
  { unfold stations. destruct (Req_dec_T (BevelGear.beta fp) 0);
      reflexivity. }
  assert (Hf : hd_error stations = Some scale_0).
  { unfold stations. destruct (Req_dec_T (BevelGear.beta fp) 0);
      [reflexivity|].
    unfold BevelGear.linspace20. cbn [seq map hd_error INR]. f_equal.
    ring. }
  assert (Hla : Outline.last_opt stations = Some scale_1).
  { unfold stations. destruct (Req_dec_T (BevelGear.beta fp) 0);
      [reflexivity|].
    unfold BevelGear.linspace20. rewrite last_opt_map.
    change (Outline.last_opt (seq 0 20)) with (Some 19%nat).
    cbn [option_map]. f_equal. rewrite INR_IZR_INZ. simpl IZR. field. }
  assert (Hs : forall k, (k < 19)%nat ->
             nth (S k) (BevelGear.linspace20 scale_0 scale_1) 0
             - nth k (BevelGear.linspace20 scale_0 scale_1) 0
             = BevelGear.height fp / 19).
  { intros k Hk. unfold BevelGear.linspace20.
    set (f := fun k : nat => scale_0 + INR k * ((scale_1 - scale_0) / 19)).
    rewrite (nth_indep _ 0 (f 0%nat))
      by (rewrite length_map, length_seq; lia).
    rewrite (nth_indep _ 0 (f 0%nat) (n := k))
      by (rewrite length_map, length_seq; lia).
    rewrite !map_nth, !seq_nth by lia. unfold f.
    cbn [Nat.add]. rewrite S_INR, Hh. field. }
  clearbody wires. subst wires.
  destruct (BevelGear.reset_origin fp); eexists;
    (split; [reflexivity|]); repeat split; assumption.
Qed.

Lemma plain_bevel_outline (fp : BevelGear.FeaturePython) :
  (1 <= BevelGear.teeth fp)%Z ->
  exists pts,
    BevelGear.outline (L := Sample.plain) fp
    = Ok (BevelGear.configured fp, pts).
Proof.
  intros Ht. unfold BevelGear.outline.
  cbn [bind pygears.BevelTooth_update pygears.BevelTooth_points
       Sample.plain].
  rewrite truediv_ok by (apply not_0_IZR; lia). simpl bind.
  cbn [pygears.rotation3D Sample.plain pygears.bt_z BevelGear.configured].
  rewrite (assemble_is_sectors _ _ _
             (fun k => Nat.iter k
                         (Sample.turn (2 * PI / IZR (BevelGear.teeth fp)))
                         (P2 7 (-1)))
             (fun k => Nat.iter k
                         (Sample.turn (2 * PI / IZR (BevelGear.teeth fp)))
                         (P2 7 1))).
  - simpl bind. eexists. reflexivity.
  - exact Ht.
  - apply ends_pointwise; reflexivity.
Qed.

Lemma bevel_is_always_lofted_witness :
  exists s wires,
    BevelGear.generate_gear_shape (L := Sample.plain) Fixture.bevel_flat
    = Ok s /\
    Geometry.loft_of s = Some (wires, true, false) /\
    length wires = 2%nat /\
    Part.builds_solid s = true.
Proof.
  destruct (plain_bevel_outline Fixture.bevel_flat) as [pts O];
    [simpl; lia|].
  destruct (bevel_is_always_lofted (L := Sample.plain) Fixture.bevel_flat
              (BevelGear.configured Fixture.bevel_flat) pts O)
    as [s [E [Hl [Hs [Hn _]]]]].
  eexists. eexists. split; [exact E|]. split; [exact Hl|].
  split; [|exact Hs].
  rewrite length_map, Hn.
  destruct (Req_dec_T (BevelGear.beta Fixture.bevel_flat) 0) as [_|N];
    [reflexivity|].
  exfalso. apply N. reflexivity.
Defined.

(** X8. With [reset_origin] set, the loft of a bevel gear is passed
    through the map that sends [(x, y, z)] to [(x, y, scale_1 - z)], where
    [scale_1] is the scale of the outer profile: a mirror image in a
    horizontal plane that brings the plane of height [scale_1] to the
    plane [z = 0], and that is its own inverse. *)
Theorem bevel_reset_origin_mirrors `{L : pygears.Library}
    (fp : BevelGear.FeaturePython) (g : pygears.BevelTooth)
    (pts : list (list ndpoint)) :
  BevelGear.outline fp = Ok (g, pts) ->
  BevelGear.reset_origin fp = true ->
  let scale_1 :=
    if BevelGear.has_version fp then BevelGear.scale_of fp
    else BevelGear.scale_of fp + BevelGear.height fp / 2 in
  exists wires mat,
    BevelGear.generate_gear_shape fp
    = Ok (Part.transformGeometry (Part.makeLoft wires true false) mat) /\
    (forall x y z,
       App.apply mat (App.vec x y z) = App.vec x y (scale_1 - z)) /\
    (forall x y, App.apply mat (App.vec x y scale_1) = App.vec x y 0) /\
    (forall v, App.apply mat (App.apply mat v) = v).
Proof.
  intros O Hr scale_1. unfold BevelGear.generate_gear_shape.
  rewrite O. cbn [bind]. rewrite Hr.
  eexists. eexists. split; [reflexivity|].
  assert (E : (if negb (BevelGear.has_version fp)
               then BevelGear.scale_of fp + BevelGear.height fp / 2
               else BevelGear.scale_of fp) = scale_1)
    by (unfold scale_1; destruct (BevelGear.has_version fp); reflexivity).
  rewrite E.
  assert (A : forall x y z,
             App.apply (App.move (fcvec (P3 0 0 scale_1))
                          (App.set_A33 (-1) App.identity)) (App.vec x y z)
             = App.vec x y (scale_1 - z)).
  { intros x y z. unfold App.apply. simpl. f_equal; ring. }
  split; [exact A|]. split.
  - intros x y. rewrite A. f_equal. ring.
  - intros [x y z]. rewrite !A. f_equal. ring.
Qed.

Lemma bevel_reset_origin_mirrors_witness :
  exists wires mat,
    BevelGear.generate_gear_shape (L := Sample.plain) (Sample.bevel_with 45)
    = Ok (Part.transformGeometry (Part.makeLoft wires true false) mat) /\
    (forall x y,
       App.apply mat (App.vec x y (BevelGear.scale_of (Sample.bevel_with 45)))
       = App.vec x y 0).
Proof.
  destruct (plain_bevel_outline (Sample.bevel_with 45)) as [pts O];
    [simpl; lia|].
  destruct (bevel_reset_origin_mirrors (L := Sample.plain)
              (Sample.bevel_with 45)
              (BevelGear.configured (Sample.bevel_with 45)) pts O eq_refl)
    as [wires [mat [E [_ [H _]]]]].
  exists wires, mat. split; [exact E|exact H].
Defined.

(** ** More on the hypocycloid cam *)

Lemma rotate_about_zero (c v : App.Vector) : App.rotate_about c 0 v = v.
Proof.
  destruct v as [x y z]. unfold App.rotate_about. simpl.
  rewrite cos_0, sin_0. f_equal; ring.
Qed.

Lemma rotate_about_plus (c : App.Vector) (a b : R) (v : App.Vector) :
  App.rotate_about c a (App.rotate_about c b v)
  = App.rotate_about c (a + b) v.
Proof.
  destruct c as [cx cy cz], v as [x y z]. unfold App.rotate_about. simpl.
  rewrite cos_plus, sin_plus. f_equal; ring.
Qed.

Lemma rotate_about_full_turn (c v : App.Vector) :
  App.rotate_about c (2 * PI) v = v.
Proof.
  destruct v as [x y z]. unfold App.rotate_about. simpl.
  rewrite cos_2PI, sin_2PI. f_equal; ring.
Qed.

Lemma iter_rotate_about (c : App.Vector) (a : R) (k : nat) (v : App.Vector) :
  Nat.iter k (App.rotate_about c a) v = App.rotate_about c (INR k * a) v.
Proof.
  induction k as [|k IH].
  - simpl. rewrite Rmult_0_l. symmetry. apply rotate_about_zero.
  - cbn [Nat.iter nat_rect]. change (nat_rect _ ?x _ k) with
      (Nat.iter k (App.rotate_about c a) x).
    rewrite IH, rotate_about_plus. f_equal. rewrite S_INR. ring.
Qed.

Lemma iter_ext {A} (f g : A -> A) (k : nat) (x : A) :
  (forall y, f y = g y) -> Nat.iter k f x = Nat.iter k g x.
Proof.
  intros H. induction k as [|k IH]; [reflexivity|].
  simpl. now rewrite IH, H.
Qed.

Lemma lobe_matrix_apply (e step : R) (v : App.Vector) :
  App.apply (App.move (App.vec (- e) 0 0)
               (App.rotateZ step (App.move (App.vec e 0 0) App.identity))) v
  = App.rotate_about (HypoCycloidGear.cam_center e) step v.
Proof.
  rewrite apply_move, apply_rotateZ, apply_move, apply_identity.
  destruct v as [x y z].
  unfold App.rotate_about, HypoCycloidGear.cam_center. simpl.
  f_equal; ring.
Qed.

(** X9. For a positive tooth count [n], the matrix that carries one lobe
    of the cam to the next is the turn by [2 * PI / n] about the cam
    centre [(-e, 0)].  Applied [k] times it is the turn by [k] times that
    angle, and applied [n] times it is the identity: the [n] wires of the
    cam are the lobe in its [n] positions, the last of them in the place of
    the lobe as it was computed. *)
Theorem lobe_matrix_turns_about_cam_center (e : R) (n : Z) :
  (0 < n)%Z ->
  exists mat,
    HypoCycloidGear.lobe_matrix e n = Ok mat /\
    (forall k v,
       Nat.iter k (App.apply mat) v
       = App.rotate_about (HypoCycloidGear.cam_center e)
           (INR k * (2 * PI / IZR n)) v) /\
    (forall v, Nat.iter (Z.to_nat n) (App.apply mat) v = v).
Proof.
  intros Hn. assert (Hz : IZR n <> 0) by (apply not_0_IZR; lia).
  unfold HypoCycloidGear.lobe_matrix. rewrite truediv_ok by exact Hz.
  cbn [bind]. eexists. split; [reflexivity|].
  assert (K : forall k v,
             Nat.iter k
               (App.apply
                  (App.move (App.vec (- e) 0 0)
                     (App.rotateZ (2 * PI / IZR n)
                        (App.move (App.vec e 0 0) App.identity)))) v
             = App.rotate_about (HypoCycloidGear.cam_center e)
                 (INR k * (2 * PI / IZR n)) v).
  { intros k v.
    rewrite (iter_ext _ (App.rotate_about (HypoCycloidGear.cam_center e)
                           (2 * PI / IZR n)))
      by (intros y; apply lobe_matrix_apply).
    apply iter_rotate_about. }
  split; [exact K|].
  intros v. rewrite K.
  replace (INR (Z.to_nat n) * (2 * PI / IZR n)) with (2 * PI).
  - apply rotate_about_full_turn.
  - rewrite INR_IZR_INZ, Z2Nat.id by lia. field. exact Hz.
Qed.

Lemma lobe_matrix_turns_about_cam_center_witness :
  exists mat,
    HypoCycloidGear.lobe_matrix 1.5 42 = Ok mat /\
    (forall v, Nat.iter (Z.to_nat 42) (App.apply mat) v = v).
Proof.
  destruct (lobe_matrix_turns_about_cam_center 1.5 42) as [mat [E [_ H]]];
    [lia|].
  exists mat. split; [exact E|exact H].
Defined.

Lemma calcyp_periodic (p a e : R) (n : Z) :
  n <> 0%Z ->
  HypoCycloidGear.calcyp p (a + 2 * PI / IZR n) e n
  = HypoCycloidGear.calcyp p a e n.
Proof.
  intros Hn. assert (Hz : IZR n <> 0) by now apply not_0_IZR.
  unfold HypoCycloidGear.calcyp.
  replace (IZR n * (a + 2 * PI / IZR n)) with (IZR n * a + 2 * PI)
    by (field; exact Hz).
  rewrite sin_plus, cos_plus, cos_2PI, sin_2PI.
  rewrite !Rmult_1_r, !Rmult_0_r, Rplus_0_r, Rminus_0_r.
  reflexivity.
Qed.

Lemma profile_turn (p d e : R) (n : Z) (a x y : R) :
  n <> 0%Z ->
  HypoCycloidGear.calc_x p d e n a = Ok x ->
  HypoCycloidGear.calc_y p d e n a = Ok y ->
  HypoCycloidGear.calc_x p d e n (a + 2 * PI / IZR n)
  = Ok (cos (2 * PI / IZR n) * x - sin (2 * PI / IZR n) * y) /\
  HypoCycloidGear.calc_y p d e n (a + 2 * PI / IZR n)
  = Ok (sin (2 * PI / IZR n) * x + cos (2 * PI / IZR n) * y).
Proof.
  intros Hn Hx Hy. assert (Hz : IZR n <> 0) by now apply not_0_IZR.
  unfold HypoCycloidGear.calc_x, HypoCycloidGear.calc_y in *.
  rewrite calcyp_periodic by exact Hn.
  destruct (HypoCycloidGear.calcyp p a e n) as [yp|ex];
    [|simpl in Hx; discriminate Hx].
  cbn [bind] in *. injection Hx as <-. injection Hy as <-.
  set (t := 2 * PI / IZR n).
  replace ((IZR n + 1) * (a + t)) with (((IZR n + 1) * a + t) + 2 * PI)
    by (unfold t; field; exact Hz).
  replace (yp + (a + t)) with ((yp + a) + t) by ring.
  set (u := (IZR n + 1) * a). set (w := yp + a).
  rewrite !cos_plus, !sin_plus, cos_2PI, sin_2PI.
  split; f_equal; ring.
Qed.

(** X10. The cam profile has the symmetry of its tooth count [n]: where
    the profile point is defined at the rolling angle [a], it is defined at
    [a + 2 * PI / n], and is the point at [a] turned by [2 * PI / n] about
    the origin. *)
Theorem cam_profile_has_n_fold_symmetry (p d e : R) (n : Z) (a x y : R) :
  n <> 0%Z ->
  HypoCycloidGear.calc_x p d e n a = Ok x ->
  HypoCycloidGear.calc_y p d e n a = Ok y ->
  exists x' y',
    HypoCycloidGear.calc_x p d e n (a + 2 * PI / IZR n) = Ok x' /\
    HypoCycloidGear.calc_y p d e n (a + 2 * PI / IZR n) = Ok y' /\
    App.vec x' y' 0
    = App.rotate_about (App.vec 0 0 0) (2 * PI / IZR n) (App.vec x y 0).
Proof.
  intros Hn Hx Hy.
  destruct (profile_turn p d e n a x y Hn Hx Hy) as [Ex Ey].
  eexists. eexists. split; [exact Ex|]. split; [exact Ey|].
  unfold App.rotate_about. simpl. f_equal; ring.
Qed.

Lemma cam_profile_has_n_fold_symmetry_witness :
  exists x' y',
    HypoCycloidGear.calc_x (66 / 42) 3 1.5 42 (0 + 2 * PI / IZR 42) = Ok x' /\
    HypoCycloidGear.calc_y (66 / 42) 3 1.5 42 (0 + 2 * PI / IZR 42) = Ok y'.
Proof.
  destruct (calcyp_returns (66 / 42) 0 1.5 42) as [yp E].
  - lra.
  - rewrite Rabs_pos_eq; lra.
  - destruct (cam_profile_has_n_fold_symmetry (66 / 42) 3 1.5 42 0
                (IZR 42 * (66 / 42) * cos 0 + 1.5 * cos ((IZR 42 + 1) * 0)
                 - 3 / 2 * cos (yp + 0))
                (IZR 42 * (66 / 42) * sin 0 + 1.5 * sin ((IZR 42 + 1) * 0)
                 - 3 / 2 * sin (yp + 0)))
      as [x' [y' [Ex [Ey _]]]].
    + lia.
    + unfold HypoCycloidGear.calc_x. rewrite E. reflexivity.
    + unfold HypoCycloidGear.calc_y. rewrite E. reflexivity.
    + exists x', y'. split; [exact Ex|exact Ey].
Defined.

(** ** The lobe is a closed piece of the cam *)

Lemma check_limit_radial (x y maxrad minrad offset : R) :
  0 < x ^ 2 + y ^ 2 ->
  HypoCycloidGear.check_limit x y maxrad minrad offset
  = if ltb maxrad (sqrt (x ^ 2 + y ^ 2)) || ltb (sqrt (x ^ 2 + y ^ 2)) minrad
    then ((sqrt (x ^ 2 + y ^ 2) - offset) / sqrt (x ^ 2 + y ^ 2) * x,
          (sqrt (x ^ 2 + y ^ 2) - offset) / sqrt (x ^ 2 + y ^ 2) * y)
    else (x, y).
Proof.
  intros Hpos. destruct (polar_of_rect x y Hpos) as [Hc Hs].
  assert (Hr : 0 < sqrt (x ^ 2 + y ^ 2)) by now apply sqrt_lt_R0.
  unfold HypoCycloidGear.check_limit, HypoCycloidGear.to_polar,
    HypoCycloidGear.to_rect, pow_half in *.
  cbn [fst snd] in Hc, Hs.
  destruct (ltb maxrad (sqrt (x ^ 2 + y ^ 2))
            || ltb (sqrt (x ^ 2 + y ^ 2)) minrad); [|reflexivity].
  set (r := sqrt (x ^ 2 + y ^ 2)) in *.
  f_equal.
  - rewrite <- Hc at 2. field. lra.
  - rewrite <- Hs at 2. field. lra.
Qed.

Lemma check_limit_turn (x y maxrad minrad offset t : R) :
  0 < x ^ 2 + y ^ 2 ->
  HypoCycloidGear.check_limit (cos t * x - sin t * y) (sin t * x + cos t * y)
                              maxrad minrad offset
  = (cos t * fst (HypoCycloidGear.check_limit x y maxrad minrad offset)
     - sin t * snd (HypoCycloidGear.check_limit x y maxrad minrad offset),
     sin t * fst (HypoCycloidGear.check_limit x y maxrad minrad offset)
     + cos t * snd (HypoCycloidGear.check_limit x y maxrad minrad offset)).
Proof.
  intros Hpos.
  assert (E : (cos t * x - sin t * y) ^ 2 + (sin t * x + cos t * y) ^ 2
              = x ^ 2 + y ^ 2).
  { assert (H1 := sin2_cos2 t). unfold Rsqr in H1.
    replace ((cos t * x - sin t * y) ^ 2 + (sin t * x + cos t * y) ^ 2)
      with ((sin t * sin t + cos t * cos t) * (x ^ 2 + y ^ 2)) by ring.
    rewrite H1. ring. }
  rewrite (check_limit_radial x y) by exact Hpos.
  rewrite check_limit_radial by (rewrite E; exact Hpos).
  rewrite E.
  destruct (ltb maxrad (sqrt (x ^ 2 + y ^ 2))
            || ltb (sqrt (x ^ 2 + y ^ 2)) minrad); cbn [fst snd];
    f_equal; ring.
Qed.

Lemma calc_at_zero (p d e : R) (n : Z) (x y : R) :
  HypoCycloidGear.calc_x p d e n 0 = Ok x ->
  HypoCycloidGear.calc_y p d e n 0 = Ok y ->
  x = IZR n * p + e - d / 2 /\ y = 0.
Proof.
  unfold HypoCycloidGear.calc_x, HypoCycloidGear.calc_y,
    HypoCycloidGear.calcyp.
  destruct (truediv (IZR n * p) (e * (IZR n + 1))) as [k|ex];
    [|intros H; simpl in H; discriminate H].
  cbn [bind]. rewrite !Rmult_0_r, sin_0, cos_0.
  unfold truediv.
  destruct (Req_dec_T (1 + k) 0); [intros H; simpl in H; discriminate H|].
  cbn [bind]. intros Hx Hy. injection Hx as <-. injection Hy as <-.
  replace (0 / (1 + k)) with 0 by (unfold Rdiv; ring).
  rewrite atan_0, Rplus_0_l, ?cos_0, ?sin_0. split; field.
Qed.

Lemma mapM_snoc_inv {A B} (f : A -> result B) (l : list A) (a : A)
    (bs : list B) :
  mapM f (l ++ [a]) = Ok bs ->
  exists bs' b, bs = bs' ++ [b] /\ f a = Ok b.
Proof.
  revert bs. induction l as [|x l IH]; intros bs; simpl.
  - destruct (f a) as [b|ex]; [|intros H; discriminate H].
    simpl. intros H. injection H as <-. exists [], b. now split.
  - destruct (f x) as [b0|ex]; [|intros H; discriminate H]. simpl.
    destruct (mapM f (l ++ [a])) as [bs0|ex];
      [|intros H; discriminate H].
    simpl. intros H. injection H as <-.
    destruct (IH bs0 eq_refl) as [bs' [b [-> Hb]]].
    exists (b0 :: bs'), b. now split.
Qed.

Lemma cam_lobe_closes `{A : Float.Arithmetic}
    (fp : HypoCycloidGear.FeaturePython) (p : R)
    (pts : list App.Vector) :
  let d := HypoCycloidGear.roller_diameter fp in
  let e := HypoCycloidGear.eccentricity fp in
  let n := HypoCycloidGear.teeth_number fp in
  let s := HypoCycloidGear.segment_count fp in
  n <> 0%Z ->
  (0 < s)%Z ->
  IZR n * p + e - d / 2 <> 0 ->
  HypoCycloidGear.cam_points fp p (2 * PI / IZR s) = Ok pts ->
  exists first last,
    hd_error pts = Some first /\
    Outline.last_opt pts = Some last /\
    last = App.rotate_about (HypoCycloidGear.cam_center e)
             (2 * PI / IZR n) first.
Proof.
  intros d e n s Hn Hs Hr.
  assert (Hz : IZR n <> 0) by now apply not_0_IZR.
  assert (Hsz : IZR s <> 0) by (apply not_0_IZR; lia).
  unfold HypoCycloidGear.cam_points. fold d e n s.
  destruct (HypoCycloidGear.limit_radii p d e n
              (HypoCycloidGear.pressure_angle_lim fp))
    as [[minR maxR]|ex]; [|intros H; simpl in H; discriminate H].
  cbn [bind].
  set (c := HypoCycloidGear.pressure_angle_offset fp).
  destruct (HypoCycloidGear.cam_point p d e n (2 * PI / IZR s) maxR minR c 0)
    as [[x y]|ex] eqn:E0; [|intros H; simpl in H; discriminate H].
  cbn [bind].
  assert (Es : range s = range (Z.of_nat (Z.to_nat (s - 1)))
                        ++ [Z.of_nat (Z.to_nat (s - 1))])
    by (rewrite <- range_succ; f_equal; lia).
  rewrite Es.
  match goal with
  | |- context [mapM ?f ?l] => destruct (mapM f l) as [rest|ex] eqn:Er
  end; [|intros H; simpl in H; discriminate H].
  cbn [bind]. intros H. injection H as <-.
  destruct (mapM_snoc_inv _ _ _ _ Er) as [rest' [b [-> Hb]]].
  exists (App.vec (x - e) y 0), b.
  split; [reflexivity|]. split; [now rewrite app_comm_cons, last_opt_app|].
  (* the first and the last point of the lobe *)
  unfold HypoCycloidGear.cam_point in E0, Hb.
  rewrite truediv_ok in E0, Hb by exact Hz. cbn [bind] in E0, Hb.
  replace (2 * PI / IZR s * IZR 0 / IZR n) with 0 in E0
    by (unfold Rdiv; ring).
  replace (2 * PI / IZR s * IZR (Z.of_nat (Z.to_nat (s - 1)) + 1) / IZR n)
    with (0 + 2 * PI / IZR n) in Hb.
  2:{ replace (Z.of_nat (Z.to_nat (s - 1)) + 1)%Z with s by lia.
      field. split; assumption. }
  destruct (HypoCycloidGear.calc_x p d e n 0) as [x0|ex] eqn:Ex;
    [|simpl in E0; discriminate E0].
  destruct (HypoCycloidGear.calc_y p d e n 0) as [y0|ex] eqn:Ey;
    [|simpl in E0; discriminate E0].
  cbn [bind] in E0.
  destruct (calc_at_zero p d e n x0 y0 Ex Ey) as [Hx0 Hy0].
  assert (Hpos : 0 < x0 ^ 2 + y0 ^ 2).
  { rewrite Hy0, Hx0.
    assert (0 < (IZR n * p + e - d / 2) * (IZR n * p + e - d / 2))
      by (apply Rsqr_pos_lt; exact Hr).
    nra. }
  destruct (profile_turn p d e n 0 x0 y0 Hn Ex Ey) as [Tx Ty].
  rewrite Tx, Ty in Hb. cbn [bind] in Hb.
  rewrite check_limit_turn in Hb by exact Hpos.
  injection E0 as E0. rewrite E0 in Hb. cbn [fst snd bind] in Hb.
  injection Hb as <-.
  unfold App.rotate_about, HypoCycloidGear.cam_center, fcvec. simpl.
  f_equal; ring.
Qed.

(** X11. One lobe of the cam ends where the next begins.  With a non-zero
    tooth count [n], a positive segment count [s] and a profile that does
    not start at the origin ([n * p + e - d / 2] is not 0), the last point
    of the list of lobe points is its first point turned by [2 * PI / n]
    about the cam centre, which is where the lobe matrix takes the first
    point.  The pressure-angle clipping of [check_limit] does not break
    this. *)
Theorem cam_lobe_ends_where_next_begins `{A : Float.Arithmetic}
    (fp : HypoCycloidGear.FeaturePython) (p : R) (pts : list App.Vector) :
  let d := HypoCycloidGear.roller_diameter fp in
  let e := HypoCycloidGear.eccentricity fp in
  let n := HypoCycloidGear.teeth_number fp in
  let s := HypoCycloidGear.segment_count fp in
  n <> 0%Z ->
  (0 < s)%Z ->
  IZR n * p + e - d / 2 <> 0 ->
  HypoCycloidGear.cam_points fp p (2 * PI / IZR s) = Ok pts ->
  exists mat first last,
    HypoCycloidGear.lobe_matrix e n = Ok mat /\
    hd_error pts = Some first /\
    Outline.last_opt pts = Some last /\
    last = App.apply mat first.
Proof.
  intros d e n s Hn Hs Hr Hp.
  destruct (cam_lobe_closes fp p pts Hn Hs Hr Hp)
    as [first [last [Hf [Hl E]]]].
  unfold HypoCycloidGear.lobe_matrix.
  rewrite truediv_ok by now apply not_0_IZR. cbn [bind].
  eexists. exists first, last. split; [reflexivity|].
  split; [exact Hf|]. split; [exact Hl|].
  rewrite lobe_matrix_apply. exact E.
Qed.

Lemma cam_points_returns (fp : HypoCycloidGear.FeaturePython) (p q : R) :
  let e := HypoCycloidGear.eccentricity fp in
  let n := HypoCycloidGear.teeth_number fp in
  n <> 0%Z ->
  p <> 0 ->
  e * (IZR n + 1) <> 0 ->
  1 < Rabs (IZR n * p / (e * (IZR n + 1))) ->
  exists pts, HypoCycloidGear.cam_points (A := Float.exact) fp p q = Ok pts.
Proof.
  intros e n Hn Hp He Hk.
  assert (Hz : IZR n <> 0) by now apply not_0_IZR.
  assert (Hr : p * IZR n <> 0)
    by now apply Rmult_integral_contrapositive_currified.
  unfold HypoCycloidGear.cam_points, HypoCycloidGear.limit_radii.
  fold e n.
  destruct (scan_returns p (HypoCycloidGear.roller_diameter fp) n
              (HypoCycloidGear.pressure_angle_lim fp) Hr) as [mA [MA ->]].
  cbn [bind].
  destruct (calc_pressure_limit_returns
              p (HypoCycloidGear.roller_diameter fp) e n
              (IZR mA * PI / 180) Hr) as [r1 ->]. cbn [bind].
  destruct (calc_pressure_limit_returns
              p (HypoCycloidGear.roller_diameter fp) e n
              (IZR MA * PI / 180) Hr) as [r2 ->]. cbn [bind].
  destruct (cam_point_returns p (HypoCycloidGear.roller_diameter fp) e n q
              r2 r1 (HypoCycloidGear.pressure_angle_offset fp) 0 Hn He Hk)
    as [[x y] ->]. cbn [bind].
  match goal with
  | |- context [mapM ?f ?l] =>
      destruct (mapM_returns f l) as [rest ->]
  end.
  - intros i.
    destruct (cam_point_returns p (HypoCycloidGear.roller_diameter fp) e n q
                r2 r1 (HypoCycloidGear.pressure_angle_offset fp) (i + 1)
                Hn He Hk) as [[x' y'] ->].
    cbn [bind]. eexists. reflexivity.
  - cbn [bind]. eexists. reflexivity.
Qed.

Lemma cam_lobe_ends_where_next_begins_witness :
  exists pts mat first last,
    HypoCycloidGear.cam_points (A := Float.exact)
      (HypoCycloidGear.sample 42 true true true)
      (66 / 42) (2 * PI / IZR 42) = Ok pts /\
    HypoCycloidGear.lobe_matrix 1.5 42 = Ok mat /\
    hd_error pts = Some first /\
    Outline.last_opt pts = Some last /\
    last = App.apply mat first.
Proof.
  destruct (cam_points_returns (HypoCycloidGear.sample 42 true true true)
              (66 / 42) (2 * PI / IZR 42)) as [pts Hp].
  - simpl. lia.
  - lra.
  - simpl. lra.
  - simpl. rewrite Rabs_pos_eq; lra.
  - destruct (cam_lobe_ends_where_next_begins (A := Float.exact)
                (HypoCycloidGear.sample 42 true true true) (66 / 42) pts)
      as [mat [first [last H]]].
    + simpl. lia.
    + simpl. lia.
    + simpl. lra.
    + exact Hp.
    + exists pts, mat, first, last. split; [exact Hp|exact H].
Defined.

(** ** The pressure angle, the pins and the parts of the compound *)

(** X12. An exception in the scan for the limit angles ends the
    generation.  Whatever the rounding, when the pressure angle is computed
    at the degrees below [k] and the evaluation at degree [k] raises, the
    scan raises the same exception and so does the generation, whatever
    the [show_] flags: the scan is not guarded.  [math.asin] raises
    [ValueError] when rounding takes its argument beyond 1, which is its
    exact value at degree 0; a pin circle of radius 0 gives a
    [ZeroDivisionError] there. *)
Theorem scan_error_ends_generation `{A : Float.Arithmetic}
    (fp : HypoCycloidGear.FeaturePython) (p q : R) (k : Z) (g : Z -> R)
    (e : exn) :
  let d := HypoCycloidGear.roller_diameter fp in
  let n := HypoCycloidGear.teeth_number fp in
  Float.truediv (HypoCycloidGear.pin_circle_radius fp) (IZR n) = Ok p ->
  truediv (2 * PI) (IZR (HypoCycloidGear.segment_count fp)) = Ok q ->
  (0 <= k < 180)%Z ->
  (forall i, (0 <= i < k)%Z ->
     HypoCycloidGear.calc_pressure_angle p d n (HypoCycloidGear.degrees i)
     = Ok (g i)) ->
  HypoCycloidGear.calc_pressure_angle p d n (HypoCycloidGear.degrees k)
  = Raise e ->
  HypoCycloidGear.scan p d n (HypoCycloidGear.pressure_angle_lim fp)
  = Raise e /\
  HypoCycloidGear.generate_gear_shape fp = Raise e.
Proof.
  intros d n Hp Hq Hk defined raised.
  assert (S : HypoCycloidGear.scan p d n
                (HypoCycloidGear.pressure_angle_lim fp) = Raise e).
  { apply (scan_raises p d n _ g (Z.to_nat k) e).
    - lia.
    - intros i Hi. apply defined. lia.
    - rewrite Z2Nat.id by lia. exact raised. }
  split; [exact S|].
  unfold HypoCycloidGear.generate_gear_shape. fold n.
  rewrite Hp. cbn [bind]. rewrite Hq. cbn [bind].
  unfold HypoCycloidGear.cam, HypoCycloidGear.cam_points,
    HypoCycloidGear.limit_radii.
  fold d n. rewrite S. reflexivity.
Qed.

Lemma scan_error_ends_generation_witness :
  HypoCycloidGear.generate_gear_shape (A := Float.exact)
    Fixture.drive_without_pin_circle = Raise ZeroDivisionError.
Proof.
  apply (scan_error_ends_generation (A := Float.exact)
           Fixture.drive_without_pin_circle (0 / IZR 42) (2 * PI / IZR 42)
           0 (fun _ => 0) ZeroDivisionError).
  - simpl. apply truediv_ok. lra.
  - simpl. apply truediv_ok. lra.
  - lia.
  - intros i Hi. lia.
  - rewrite exact_pressure_angle. cbv zeta.
    cbn [HypoCycloidGear.roller_diameter HypoCycloidGear.teeth_number
         Fixture.drive_without_pin_circle].
    unfold truediv.
    destruct (Req_dec_T _ 0) as [_|N]; [reflexivity|].
    exfalso. apply N. unfold Rdiv. ring.
Defined.

Lemma mapM_map {A B} (f : A -> result B) (g : A -> B) (l : list A) :
  (forall a, In a l -> f a = Ok (g a)) -> mapM f l = Ok (map g l).
Proof.
  induction l as [|a l IH]; intros H; [reflexivity|].
  simpl. rewrite (H a) by now left. simpl.
  rewrite IH by (intros b Hb; apply H; now right). reflexivity.
Qed.

Lemma in_range_positive (i m : Z) : In i (range m) -> (0 < m)%Z.
Proof.
  unfold range. destruct (Z.to_nat m) eqn:E; [intros []|]. lia.
Qed.

(** The face of pin circles, before it is placed and extruded. *)
Lemma pins_shape_value (fp : HypoCycloidGear.FeaturePython) (p : R) :
  let d := HypoCycloidGear.roller_diameter fp in
  let n := HypoCycloidGear.teeth_number fp in
  exists pins,
    HypoCycloidGear.pins_shape fp p = Ok pins /\
    Geometry.profile_of pins
    = Part.Face
        (map (fun i =>
                Part.Wire
                  [Part.makeCircle (d / 2)
                     (App.vec
                        (p * IZR n * cos (2 * PI / (IZR n + 1) * IZR i))
                        (p * IZR n * sin (2 * PI / (IZR n + 1) * IZR i)) 0)])
             (range (n + 1))) /\
    Geometry.lift_of pins + HypoCycloidGear.pin_height fp / 2
    = (if HypoCycloidGear.center_pins fp then
         if HypoCycloidGear.show_disk0 fp
            && negb (HypoCycloidGear.show_disk1 fp)
         then HypoCycloidGear.disk_height fp / 2
         else if negb (HypoCycloidGear.show_disk0 fp)
                 && HypoCycloidGear.show_disk1 fp
         then - HypoCycloidGear.disk_height fp / 2
         else 0
       else 0) /\
    Geometry.thickness_of pins = HypoCycloidGear.pin_height fp.
Proof.
  intros d n. unfold HypoCycloidGear.pins_shape. fold d n.
  rewrite (mapM_map _
             (fun i =>
                Part.Wire
                  [Part.makeCircle (d / 2)
                     (App.vec
                        (p * IZR n * cos (2 * PI / (IZR n + 1) * IZR i))
                        (p * IZR n * sin (2 * PI / (IZR n + 1) * IZR i))
                        0)])).
  2:{ intros i Hi. apply in_range_positive in Hi.
      rewrite truediv_ok; [reflexivity|].
      replace (IZR n + 1) with (IZR (n + 1)) by (rewrite plus_IZR; ring).
      apply not_0_IZR. lia. }
  cbn [bind]. eexists. split; [reflexivity|].
  set (h := HypoCycloidGear.pin_height fp).
  set (dh := HypoCycloidGear.disk_height fp).
  destruct (HypoCycloidGear.center_pins fp),
           (HypoCycloidGear.show_disk0 fp),
           (HypoCycloidGear.show_disk1 fp); cbn [andb negb];
    repeat match goal with
           | |- context [Req_dec_T ?z 0] => destruct (Req_dec_T z 0)
           end;
    cbn [Geometry.profile_of Geometry.lift_of Geometry.thickness_of App.vz];
    (split; [reflexivity|]); split; lra.
Qed.

(** X13. The pins of the drive are [n + 1] circles, one more than the cam
    has teeth, of the roller diameter, with their centres in the plane
    [z = 0] on the circle of radius [|p * n|] about the origin (the pin
    circle radius, as [p] is that radius divided by [n]).  Building them
    raises nothing, for any tooth count. *)
Theorem pins_lie_on_pin_circle (fp : HypoCycloidGear.FeaturePython) (p : R) :
  let d := HypoCycloidGear.roller_diameter fp in
  let n := HypoCycloidGear.teeth_number fp in
  exists pins centres,
    HypoCycloidGear.pins_shape fp p = Ok pins /\
    Geometry.profile_of pins
    = Part.Face (map (fun c => Part.Wire [Part.makeCircle (d / 2) c])
                     centres) /\
    length centres = Z.to_nat (n + 1) /\
    Forall (fun c => Geometry.radius2 c = (p * IZR n) ^ 2 /\ App.vz c = 0)
           centres.
Proof.
  intros d n. destruct (pins_shape_value fp p) as [pins [E [Hp _]]].
  exists pins.
  exists (map (fun i =>
                 App.vec (p * IZR n * cos (2 * PI / (IZR n + 1) * IZR i))
                         (p * IZR n * sin (2 * PI / (IZR n + 1) * IZR i)) 0)
              (range (n + 1))).
  split; [exact E|]. split; [|split].
  - rewrite Hp, map_map. reflexivity.
  - unfold range. now rewrite !length_map, length_seq.
  - apply Forall_forall. intros c Hc. apply in_map_iff in Hc.
    destruct Hc as [i [<- _]]. split; [|reflexivity].
    unfold Geometry.radius2. cbn [App.vx App.vy].
    assert (T := sin2_cos2 (2 * PI / (IZR n + 1) * IZR i)).
    unfold Rsqr in T.
    set (c := cos (2 * PI / (IZR n + 1) * IZR i)) in *.
    set (s := sin (2 * PI / (IZR n + 1) * IZR i)) in *.
    replace (p * IZR n * c * (p * IZR n * c) + p * IZR n * s * (p * IZR n * s))
      with ((p * IZR n) ^ 2 * (s * s + c * c)) by ring.
    rewrite T. ring.
Qed.

(** X14. The pins are extruded by the pin height, and placed so that the
    middle of their height is at the middle of what is shown of the disks
    when [center_pins] is set: at half the disk height when only the main
    disk (from 0 up) is shown, at minus half the disk height when only the
    secondary disk (from 0 down) is shown, and at 0 when both or neither
    are shown.  Without [center_pins] the middle is at 0. *)
Theorem pins_are_centred_on_shown_disks
    (fp : HypoCycloidGear.FeaturePython) (p : R) :
  exists pins,
    HypoCycloidGear.pins_shape fp p = Ok pins /\
    Geometry.thickness_of pins = HypoCycloidGear.pin_height fp /\
    Geometry.lift_of pins + HypoCycloidGear.pin_height fp / 2
    = (if HypoCycloidGear.center_pins fp then
         if HypoCycloidGear.show_disk0 fp
            && negb (HypoCycloidGear.show_disk1 fp)
         then HypoCycloidGear.disk_height fp / 2
         else if negb (HypoCycloidGear.show_disk0 fp)
                 && HypoCycloidGear.show_disk1 fp
         then - HypoCycloidGear.disk_height fp / 2
         else 0
       else 0).
Proof.
  destruct (pins_shape_value fp p) as [pins [E [_ [Hl Ht]]]].
  exists pins. split; [exact E|]. split; [exact Ht|exact Hl].
Qed.

Lemma secondary_matrix_returns (e : R) (n : Z) :
  n <> 0%Z -> exists mat, HypoCycloidGear.secondary_matrix e n = Ok mat.
Proof.
  intros Hn. unfold HypoCycloidGear.secondary_matrix.
  destruct (Z.eqb (n mod 2) 0).
  - rewrite truediv_ok by now apply not_0_IZR. cbn [bind].
    eexists. reflexivity.
  - cbn [bind]. eexists. reflexivity.
Qed.

(** What the generation returns once the cam is there. *)
Lemma drive_parts `{A : Float.Arithmetic}
    (fp : HypoCycloidGear.FeaturePython) (p q : R) (c : Part.Shape) :
  let e := HypoCycloidGear.eccentricity fp in
  let n := HypoCycloidGear.teeth_number fp in
  Float.truediv (HypoCycloidGear.pin_circle_radius fp) (IZR n) = Ok p ->
  truediv (2 * PI) (IZR (HypoCycloidGear.segment_count fp)) = Ok q ->
  HypoCycloidGear.cam fp p q = Ok c ->
  exists mat pins,
    HypoCycloidGear.secondary_matrix e n = Ok mat /\
    HypoCycloidGear.pins_shape fp p = Ok pins /\
    HypoCycloidGear.generate_gear_shape fp
    = Ok (match CamDrive.parts fp c mat pins with
          | [] => None
          | _ :: _ => Some (Part.makeCompound (CamDrive.parts fp c mat pins))
          end).
Proof.
  intros e n Hp Hq Hc.
  assert (Hn : n <> 0%Z).
  { intros E. apply float_truediv_inv in Hp. apply Hp. fold n.
    now rewrite E. }
  destruct (secondary_matrix_returns e n Hn) as [m Hm].
  destruct (pins_shape_value fp p) as [pins [Hpins _]].
  exists m, pins. split; [exact Hm|]. split; [exact Hpins|].
  unfold HypoCycloidGear.generate_gear_shape. fold e n.
  rewrite Hp. cbn [bind]. rewrite Hq. cbn [bind]. rewrite Hc. cbn [bind].
  rewrite Hm, Hpins.
  unfold CamDrive.parts, CamDrive.main_disk, CamDrive.secondary_disk.
  destruct (HypoCycloidGear.show_disk0 fp),
           (HypoCycloidGear.show_disk1 fp),
           (HypoCycloidGear.show_pins fp);
    destruct (Req_dec_T (HypoCycloidGear.disk_height fp) 0);
    reflexivity.
Qed.

Lemma cam_value `{A : Float.Arithmetic}
    (fp : HypoCycloidGear.FeaturePython) (p q : R) (pts : list App.Vector) :
  HypoCycloidGear.teeth_number fp <> 0%Z ->
  HypoCycloidGear.cam_points fp p q = Ok pts ->
  exists lobe,
    HypoCycloidGear.lobe_matrix (HypoCycloidGear.eccentricity fp)
      (HypoCycloidGear.teeth_number fp) = Ok lobe /\
    HypoCycloidGear.cam fp p q = Ok (CamDrive.disk fp lobe pts).
Proof.
  intros Hn Hpts. unfold HypoCycloidGear.cam. rewrite Hpts. cbn [bind].
  unfold HypoCycloidGear.lobe_matrix.
  rewrite truediv_ok by now apply not_0_IZR. cbn [bind].
  eexists. split; [reflexivity|]. unfold CamDrive.disk.
  destruct (Req_dec_T (HypoCycloidGear.hole_radius fp) 0); reflexivity.
Qed.

(** C6, as the code has it.  With [show_disk1] set, the part for the
    secondary disk is the cam transformed by a matrix, and extruded
    downwards by the disk height.  The matrix is a half turn about the
    origin, the axis of the pin circle, which carries the cam centre from
    [(-e, 0)] to [(e, 0)]; for an even tooth count, and only then, it is
    followed by a turn of half a tooth pitch about the new centre.  In
    other words the cam is first turned by half a tooth pitch about its own
    centre (for an even tooth count) and then reflected through the
    origin. *)
Theorem secondary_disk_is_half_turn_about_origin `{A : Float.Arithmetic}
    (fp : HypoCycloidGear.FeaturePython) (p q : R) (c : Part.Shape) :
  let e := HypoCycloidGear.eccentricity fp in
  let n := HypoCycloidGear.teeth_number fp in
  Float.truediv (HypoCycloidGear.pin_circle_radius fp) (IZR n) = Ok p ->
  truediv (2 * PI) (IZR (HypoCycloidGear.segment_count fp)) = Ok q ->
  HypoCycloidGear.cam fp p q = Ok c ->
  HypoCycloidGear.show_disk1 fp = true ->
  exists mat pins,
    HypoCycloidGear.secondary_matrix e n = Ok mat /\
    HypoCycloidGear.pins_shape fp p = Ok pins /\
    HypoCycloidGear.generate_gear_shape fp
    = Ok (Some (Part.makeCompound
                  ((if HypoCycloidGear.show_disk0 fp
                    then [CamDrive.main_disk fp c] else [])
                   ++ CamDrive.secondary_disk fp c mat
                   :: (if HypoCycloidGear.show_pins fp
                       then [pins] else [])))) /\
    Geometry.profile_of (CamDrive.secondary_disk fp c mat)
    = Part.transformGeometry c mat /\
    Geometry.thickness_of (CamDrive.secondary_disk fp c mat)
    = - HypoCycloidGear.disk_height fp /\
    (forall v,
       App.apply mat v
       = if Z.eqb (n mod 2) 0
         then App.rotate_about (App.vec e 0 0) (PI / IZR n)
                (App.rotate_about (App.vec 0 0 0) PI v)
         else App.rotate_about (App.vec 0 0 0) PI v) /\
    (forall v,
       App.apply mat v
       = if Z.eqb (n mod 2) 0
         then App.rotate_about (App.vec 0 0 0) PI
                (App.rotate_about (HypoCycloidGear.cam_center e)
                                  (PI / IZR n) v)
         else App.rotate_about (App.vec 0 0 0) PI v) /\
    App.apply mat (HypoCycloidGear.cam_center e) = App.vec e 0 0.
Proof.
  intros e n Hp Hq Hc H1.
  assert (Hn : n <> 0%Z).
  { intros E. apply float_truediv_inv in Hp. apply Hp. fold n.
    now rewrite E. }
  assert (Hz : IZR n <> 0) by now apply not_0_IZR.
  destruct (drive_parts fp p q c Hp Hq Hc) as [mat [pins [Hm [Hpins G]]]].
  fold e n in Hm.
  exists mat, pins. split; [exact Hm|]. split; [exact Hpins|].
  split.
  { rewrite G. unfold CamDrive.parts. rewrite H1.
    destruct (HypoCycloidGear.show_disk0 fp); reflexivity. }
  split.
  { unfold CamDrive.secondary_disk.
    destruct (Req_dec_T (HypoCycloidGear.disk_height fp) 0); reflexivity. }
  split.
  { unfold CamDrive.secondary_disk.
    destruct (Req_dec_T (HypoCycloidGear.disk_height fp) 0) as [E|_];
      cbn [Geometry.thickness_of App.vz]; lra. }
  revert Hm. unfold HypoCycloidGear.secondary_matrix.
  destruct (Z.eqb (n mod 2) 0).
  - rewrite truediv_ok by exact Hz. cbn [bind]. intros Hm.
    injection Hm as <-.
    repeat split; intros;
      rewrite apply_move, apply_rotateZ, apply_move, apply_rotateZ,
        apply_identity;
      try destruct v as [x y z];
      unfold App.rotate_about, HypoCycloidGear.cam_center; simpl;
      rewrite cos_PI, sin_PI; f_equal; ring.
  - cbn [bind]. intros Hm. injection Hm as <-.
    repeat split; intros;
      rewrite apply_move, apply_move, apply_rotateZ, apply_identity;
      try destruct v as [x y z];
      unfold App.rotate_about, HypoCycloidGear.cam_center; simpl;
      rewrite cos_PI, sin_PI; f_equal; ring.
Qed.

Lemma secondary_disk_is_half_turn_about_origin_witness :
  exists c mat pins,
    HypoCycloidGear.generate_gear_shape (A := Float.exact)
      (HypoCycloidGear.sample 42 true true true)
    = Ok (Some (Part.makeCompound
                  [CamDrive.main_disk
                     (HypoCycloidGear.sample 42 true true true) c;
                   CamDrive.secondary_disk
                     (HypoCycloidGear.sample 42 true true true) c mat;
                   pins])) /\
    App.apply mat (HypoCycloidGear.cam_center 1.5) = App.vec 1.5 0 0.
Proof.
  destruct (cam_returns (HypoCycloidGear.sample 42 true true true)
              (66 / 42) (2 * PI / 42)) as [c Hc].
  - simpl. lia.
  - lra.
  - simpl. lra.
  - simpl. rewrite Rabs_pos_eq; lra.
  - destruct (secondary_disk_is_half_turn_about_origin (A := Float.exact)
                (HypoCycloidGear.sample 42 true true true)
                (66 / 42) (2 * PI / 42) c)
      as [mat [pins [_ [_ [G [_ [_ [_ [_ C]]]]]]]]].
    + simpl. apply truediv_ok. lra.
    + simpl. apply truediv_ok. lra.
    + exact Hc.
    + reflexivity.
    + exists c, mat, pins. split; [exact G|exact C].
Defined.

(** X15. Once the points of the lobe are computed, the generation of the
    hypocycloid drive returns, and what it returns is known part by part.
    The cam is the face of the lobe wire in its [n] positions, with the
    centre hole cut out.  The result is the compound of the main disk (the
    cam, extruded upwards), the secondary disk (the cam under the matrix
    of the secondary disk, extruded downwards) and the pins, each present
    exactly when its flag is set and in this order, and [None] when no
    flag is set. *)
Theorem hypocycloid_returns_the_shown_parts `{A : Float.Arithmetic}
    (fp : HypoCycloidGear.FeaturePython) (p q : R) (pts : list App.Vector) :
  let e := HypoCycloidGear.eccentricity fp in
  let n := HypoCycloidGear.teeth_number fp in
  Float.truediv (HypoCycloidGear.pin_circle_radius fp) (IZR n) = Ok p ->
  truediv (2 * PI) (IZR (HypoCycloidGear.segment_count fp)) = Ok q ->
  HypoCycloidGear.cam_points fp p q = Ok pts ->
  exists lobe mat pins,
    HypoCycloidGear.lobe_matrix e n = Ok lobe /\
    HypoCycloidGear.secondary_matrix e n = Ok mat /\
    HypoCycloidGear.pins_shape fp p = Ok pins /\
    let parts := CamDrive.parts fp (CamDrive.disk fp lobe pts) mat pins in
    HypoCycloidGear.generate_gear_shape fp
    = Ok (if HypoCycloidGear.show_disk0 fp || HypoCycloidGear.show_disk1 fp
             || HypoCycloidGear.show_pins fp
          then Some (Part.makeCompound parts) else None) /\
    parts
    = (if HypoCycloidGear.show_disk0 fp
       then [CamDrive.main_disk fp (CamDrive.disk fp lobe pts)] else [])
      ++ (if HypoCycloidGear.show_disk1 fp
          then [CamDrive.secondary_disk fp (CamDrive.disk fp lobe pts) mat]
          else [])
      ++ (if HypoCycloidGear.show_pins fp then [pins] else []) /\
    Geometry.profile_of (CamDrive.main_disk fp (CamDrive.disk fp lobe pts))
    = CamDrive.disk fp lobe pts /\
    Geometry.profile_of
      (CamDrive.secondary_disk fp (CamDrive.disk fp lobe pts) mat)
    = Part.transformGeometry (CamDrive.disk fp lobe pts) mat.
Proof.
  intros e n Hp Hq Hpts.
  assert (Hn : n <> 0%Z).
  { intros E. apply float_truediv_inv in Hp. apply Hp. fold n.
    now rewrite E. }
  destruct (cam_value fp p q pts Hn Hpts) as [lobe [Hl Hc]].
  destruct (drive_parts fp p q _ Hp Hq Hc) as [mat [pins [Hm [Hpins G]]]].
  exists lobe, mat, pins.
  split; [exact Hl|]. split; [exact Hm|]. split; [exact Hpins|].
  cbv zeta. split; [|split; [reflexivity|]].
  - rewrite G. unfold CamDrive.parts.
    destruct (HypoCycloidGear.show_disk0 fp),
             (HypoCycloidGear.show_disk1 fp),
             (HypoCycloidGear.show_pins fp); reflexivity.
  - assert (D : forall s, Geometry.profile_of (CamDrive.disk fp lobe s)
                          = CamDrive.disk fp lobe s).
    { intros s. unfold CamDrive.disk.
      destruct (Req_dec_T (HypoCycloidGear.hole_radius fp) 0);
        reflexivity. }
    unfold CamDrive.main_disk, CamDrive.secondary_disk.
    destruct (Req_dec_T (HypoCycloidGear.disk_height fp) 0);
      cbn [Geometry.profile_of]; rewrite ?D; split; reflexivity.
Qed.

Lemma hypocycloid_returns_the_shown_parts_witness :
  exists parts,
    HypoCycloidGear.generate_gear_shape (A := Float.exact)
      (HypoCycloidGear.sample 42 true true true)
    = Ok (Some (Part.makeCompound parts)) /\
    length parts = 3%nat.
Proof.
  destruct (cam_points_returns (HypoCycloidGear.sample 42 true true true)
              (66 / 42) (2 * PI / 42)) as [pts Hpts].
  - simpl. lia.
  - lra.
  - simpl. lra.
  - simpl. rewrite Rabs_pos_eq; lra.
  - destruct (hypocycloid_returns_the_shown_parts (A := Float.exact)
                (HypoCycloidGear.sample 42 true true true)
                (66 / 42) (2 * PI / 42) pts)
      as [lobe [mat [pins [_ [_ [_ [G [P _]]]]]]]].
    + simpl. apply truediv_ok. lra.
    + simpl. apply truediv_ok. lra.
    + exact Hpts.
    + eexists. split; [exact G|]. rewrite P. reflexivity.
Defined.

(** ** The arcs of a timing-gear tooth meet on their circles *)

Lemma solve_value `{N : np.Ufuncs} (fp : TimingGear.FeaturePython) :
  let gt := TimingGear.data (TimingGear.type fp) in
  let offset := TimingGear.d_offset gt in
  let phi_12 :=
    atan (sqrt (1 / (((TimingGear.d_r0 gt - TimingGear.d_r1 gt) / offset) ^ 2
                     - 1))) in
  let r5 := TimingGear.d_pitch gt * IZR (TimingGear.teeth fp) / PI / 2
            - TimingGear.d_u gt in
  let m_12y := r5 - TimingGear.d_h gt + TimingGear.d_r0 gt in
  let m_23y := offset / tan phi_12 + m_12y in
  TimingGear.solve fp
  = Ok (TimingGear.mkArcs phi_12 r5 r5 (0, m_12y) (offset, m_23y)
          (TimingGear.phi4_of m_23y offset r5 (TimingGear.d_r1 gt)
                              (TimingGear.d_rs gt))).
Proof.
  unfold TimingGear.solve.
  destruct (TimingGear.type fp); simpl;
    (rewrite truediv_ok by lra); cbn [bind];
    (rewrite truediv_ok by (unfold Rdiv; nra)); cbn [bind];
    (rewrite np.sqrt_real;
     [reflexivity
     |apply Rlt_le; apply Rdiv_lt_0_compat; [lra|unfold Rdiv; nra]]).
Qed.

Lemma belt_flank_constants (tp : TimingGear.belt) :
  let gt := TimingGear.data tp in
  0 < TimingGear.d_offset gt /\
  TimingGear.d_offset gt < TimingGear.d_r1 gt - TimingGear.d_r0 gt /\
  0 < TimingGear.d_rs gt /\ 0 < TimingGear.d_r1 gt.
Proof. destruct tp; simpl; lra. Qed.

Lemma flank_tangent (r12 r23 o m : R) :
  0 < o -> o < r23 - r12 ->
  let phi := atan (sqrt (1 / (((r12 - r23) / o) ^ 2 - 1))) in
  (- r12 * sin phi - o) ^ 2
  + (m - r12 * cos phi - (o / tan phi + m)) ^ 2 = r23 ^ 2 /\
  (0 - o) ^ 2 + (m - (o / tan phi + m)) ^ 2 = (r23 - r12) ^ 2.
Proof.
  intros Ho Hr phi. unfold phi. clear phi.
  assert (Er : r23 = r12 - (r12 - r23) / o * o) by (field; lra).
  assert (Hq : (r12 - r23) / o < -1).
  { apply Rmult_lt_reg_r with o; [lra|].
    replace ((r12 - r23) / o * o) with (r12 - r23) by (field; lra). lra. }
  set (q := (r12 - r23) / o) in *.
  rewrite Er. clearbody q. clear Er Hr r23.
  assert (Hu : 0 < q ^ 2 - 1) by nra.
  assert (Hinv : 0 < 1 / (q ^ 2 - 1)) by (apply Rdiv_lt_0_compat; lra).
  assert (HT : 0 < sqrt (1 / (q ^ 2 - 1))) by (apply sqrt_lt_R0; exact Hinv).
  assert (HTT : sqrt (1 / (q ^ 2 - 1)) * sqrt (1 / (q ^ 2 - 1))
                = 1 / (q ^ 2 - 1)) by (apply sqrt_sqrt; lra).
  set (T := sqrt (1 / (q ^ 2 - 1))) in *.
  assert (HTq : q ^ 2 * (T * T) = T * T + 1).
  { rewrite HTT. field. lra. }
  assert (HN : 0 < sqrt (1 + T²)) by (apply sqrt_lt_R0; unfold Rsqr; nra).
  assert (HNN : sqrt (1 + T²) * sqrt (1 + T²) = 1 + T²)
    by (apply sqrt_sqrt; unfold Rsqr; nra).
  rewrite sin_atan, cos_atan, tan_atan.
  set (N := sqrt (1 + T²)) in *. unfold Rsqr in HNN.
  assert (EN : N = - q * T).
  { assert (Hp : 0 < - q * T) by nra.
    assert (Hz : (N - - q * T) * (N + - q * T) = 0) by nra.
    apply Rmult_integral in Hz. destruct Hz as [Hz|Hz]; lra. }
  rewrite EN. clearbody T. clear HN HNN EN N HTT Hinv.
  assert (Hq0 : q <> 0) by lra. assert (HT0 : T <> 0) by lra.
  split.
  - replace ((- r12 * (T / (- q * T)) - o) ^ 2
             + (m - r12 * (1 / (- q * T)) - (o / T + m)) ^ 2)
      with ((r12 - q * o) ^ 2 * (T * T + 1) / (q ^ 2 * (T * T)))
      by (field; split; assumption).
    rewrite <- HTq. field. split; assumption.
  - replace ((0 - o) ^ 2 + (m - (o / T + m)) ^ 2)
      with (o ^ 2 * (T * T + 1) / (T * T)) by (field; assumption).
    rewrite <- HTq. field. assumption.
Qed.

(** X16. For every belt type and tooth count, the arcs at the root of a
    timing-gear tooth are drawn on circles that touch.  The radius [r5]
    plus the belt's [u] is the pitch radius: its circumference is the
    tooth count times the belt pitch.  The end point [x2] lies on the
    circle of radius [r_12] about [m_12] and on the circle of radius [r_23]
    about [m_23], and the two centres are [r_23 - r_12] apart, so the
    smaller circle touches the larger one from inside at [x2]. *)
Theorem timing_root_arcs_touch `{N : np.Ufuncs}
    (fp : TimingGear.FeaturePython) :
  let tp := TimingGear.type fp in
  let gt := TimingGear.data tp in
  exists a,
    TimingGear.solve fp = Ok a /\
    2 * PI * (TimingGear.a_r5 a + TimingGear.d_u gt)
    = TimingGear.d_pitch gt * IZR (TimingGear.teeth fp) /\
    TimingGear.a_r4 a = TimingGear.a_r5 a /\
    Geometry.dist2 (TimingArcs.x2 tp a) (TimingGear.a_m_12 a)
    = TimingGear.d_r0 gt ^ 2 /\
    Geometry.dist2 (TimingArcs.x2 tp a) (TimingGear.a_m_23 a)
    = TimingGear.d_r1 gt ^ 2 /\
    Geometry.dist2 (TimingGear.a_m_12 a) (TimingGear.a_m_23 a)
    = (TimingGear.d_r1 gt - TimingGear.d_r0 gt) ^ 2.
Proof.
  intros tp gt. eexists. split; [apply solve_value|].
  fold tp gt.
  destruct (belt_flank_constants tp) as [Ho [Hr _]]. fold gt in Ho, Hr.
  unfold TimingArcs.x2, Geometry.dist2.
  cbn [TimingGear.a_r5 TimingGear.a_r4 TimingGear.a_m_12 TimingGear.a_m_23
       TimingGear.a_phi_12 fst snd].
  fold gt.
  set (r5 := TimingGear.d_pitch gt * IZR (TimingGear.teeth fp) / PI / 2
             - TimingGear.d_u gt).
  set (m := r5 - TimingGear.d_h gt + TimingGear.d_r0 gt).
  destruct (flank_tangent (TimingGear.d_r0 gt) (TimingGear.d_r1 gt)
              (TimingGear.d_offset gt) m Ho Hr) as [H1 H2].
  split; [unfold r5; field; apply PI_neq0|].
  split; [reflexivity|]. split; [|split; [exact H1|exact H2]].
  set (phi := atan _).
  assert (T := sin2_cos2 phi). unfold Rsqr in T.
  replace ((- TimingGear.d_r0 gt * sin phi - 0) ^ 2
           + (m - TimingGear.d_r0 gt * cos phi - m) ^ 2)
    with (TimingGear.d_r0 gt ^ 2 * (sin phi * sin phi + cos phi * cos phi))
    by ring.
  rewrite T. ring.
Qed.

Lemma point_between (m23 m34 : R * R) (r23 r34 : R) :
  r34 + r23 <> 0 ->
  Geometry.dist2 m34 m23 = (r34 + r23) ^ 2 ->
  let x3 :=
    TimingGear.add2 m34
      (TimingGear.scale2 (r34 / (r34 + r23)) (TimingGear.sub2 m23 m34)) in
  Geometry.dist2 x3 m23 = r23 ^ 2 /\ Geometry.dist2 x3 m34 = r34 ^ 2.
Proof.
  destruct m23 as [x23 y23], m34 as [x34 y34].
  unfold Geometry.dist2, TimingGear.add2, TimingGear.scale2, TimingGear.sub2.
  cbn [fst snd]. intros Hs HD.
  set (k := r34 / (r34 + r23)).
  split.
  - replace ((x34 + k * (x23 - x34) - x23) ^ 2
             + (y34 + k * (y23 - y34) - y23) ^ 2)
      with ((1 - k) ^ 2 * ((x34 - x23) ^ 2 + (y34 - y23) ^ 2)) by ring.
    rewrite HD. unfold k. field. exact Hs.
  - replace ((x34 + k * (x23 - x34) - x34) ^ 2
             + (y34 + k * (y23 - y34) - y34) ^ 2)
      with (k ^ 2 * ((x34 - x23) ^ 2 + (y34 - y23) ^ 2)) by ring.
    rewrite HD. unfold k. field. exact Hs.
Qed.

(** X17. Where the tangency equation for [phi4] can be solved (the
    radicand is not negative and the denominator is not 0), the flank arcs
    of a timing-gear tooth meet on their circles: the small circle of
    radius [r_34] about [m_34] touches the flank circle of radius [r_23]
    about [m_23] from outside at [x3], and the tip circle of radius [r4]
    about the origin from inside at [x4]. *)
Theorem timing_flank_arcs_touch `{N : np.Ufuncs}
    (fp : TimingGear.FeaturePython)
    (a : TimingGear.arcs) :
  let tp := TimingGear.type fp in
  let gt := TimingGear.data tp in
  let r_23 := TimingGear.d_r1 gt in
  let r_34 := TimingGear.d_rs gt in
  TimingGear.solve fp = Ok a ->
  0 <= TimingGear.phi4_radicand (snd (TimingGear.a_m_23 a))
         (TimingGear.d_offset gt) (TimingGear.a_r5 a) r_23 r_34 ->
  TimingGear.phi4_denominator (snd (TimingGear.a_m_23 a))
    (TimingGear.d_offset gt) (TimingGear.a_r5 a) r_23 r_34 <> 0 ->
  Geometry.dist2 (TimingArcs.m_34 tp a) (TimingGear.a_m_23 a)
  = (r_34 + r_23) ^ 2 /\
  Geometry.dist2 (TimingArcs.x3 tp a) (TimingGear.a_m_23 a) = r_23 ^ 2 /\
  Geometry.dist2 (TimingArcs.x3 tp a) (TimingArcs.m_34 tp a) = r_34 ^ 2 /\
  Geometry.dist2 (TimingArcs.m_34 tp a) (0, 0)
  = (TimingGear.a_r4 a - r_34) ^ 2 /\
  Geometry.dist2 (TimingArcs.x4 tp a) (TimingArcs.m_34 tp a) = r_34 ^ 2 /\
  Geometry.dist2 (TimingArcs.x4 tp a) (0, 0) = TimingGear.a_r4 a ^ 2.
Proof.
  intros tp gt r_23 r_34 Hs.
  rewrite solve_value in Hs. injection Hs as <-. fold tp gt.
  cbn [TimingGear.a_r5 TimingGear.a_r4 TimingGear.a_m_23 TimingGear.a_phi4
       snd].
  fold r_23 r_34.
  set (offset := TimingGear.d_offset gt).
  set (r5 := TimingGear.d_pitch gt * IZR (TimingGear.teeth fp) / PI / 2
             - TimingGear.d_u gt).
  set (m_23y := offset / tan _ + _).
  intros HD Hden.
  assert (Hroot := phi4_is_root m_23y offset r5 r_23 r_34 HD Hden).
  unfold TimingGear.tangency_residual in Hroot.
  set (phi4 := TimingGear.phi4_of m_23y offset r5 r_23 r_34) in *.
  assert (T := sin2_cos2 phi4). unfold Rsqr in T.
  destruct (belt_flank_constants tp) as [_ [_ [H34 H23]]].
  fold gt r_23 r_34 in H34, H23.
  assert (Hm : Geometry.dist2
                 (TimingGear.scale2 (r5 - r_34) (- sin phi4, cos phi4))
                 (offset, m_23y) = (r_34 + r_23) ^ 2).
  { unfold Geometry.dist2, TimingGear.scale2. cbn [fst snd].
    replace (((r5 - r_34) * - sin phi4 - offset) ^ 2
             + ((r5 - r_34) * cos phi4 - m_23y) ^ 2)
      with (((r5 - r_34) * sin phi4 + offset) ^ 2
            + ((r5 - r_34) * cos phi4 - m_23y) ^ 2) by ring.
    lra. }
  unfold TimingArcs.x3, TimingArcs.x4, TimingArcs.m_34.
  cbn [TimingGear.a_r5 TimingGear.a_r4 TimingGear.a_m_23 TimingGear.a_phi4].
  fold tp gt r_23 r_34 r5 phi4.
  split; [exact Hm|].
  destruct (point_between (offset, m_23y)
              (TimingGear.scale2 (r5 - r_34) (- sin phi4, cos phi4))
              r_23 r_34) as [P1 P2]; [lra|exact Hm|].
  split; [exact P1|]. split; [exact P2|].
  unfold Geometry.dist2, TimingGear.scale2. cbn [fst snd].
  repeat split.
  - replace (((r5 - r_34) * - sin phi4 - 0) ^ 2
             + ((r5 - r_34) * cos phi4 - 0) ^ 2)
      with ((r5 - r_34) ^ 2 * (sin phi4 * sin phi4 + cos phi4 * cos phi4))
      by ring.
    rewrite T. ring.
  - replace ((r5 * - sin phi4 - (r5 - r_34) * - sin phi4) ^ 2
             + (r5 * cos phi4 - (r5 - r_34) * cos phi4) ^ 2)
      with (r_34 ^ 2 * (sin phi4 * sin phi4 + cos phi4 * cos phi4)) by ring.
    rewrite T. ring.
  - replace ((r5 * - sin phi4 - 0) ^ 2 + (r5 * cos phi4 - 0) ^ 2)
      with (r5 ^ 2 * (sin phi4 * sin phi4 + cos phi4 * cos phi4)) by ring.
    rewrite T. ring.
Qed.

Lemma timing_flank_arcs_touch_witness :
  exists a,
    TimingGear.solve (N := Sample.numpy) Sample.timing = Ok a /\
    Geometry.dist2 (TimingArcs.x3 TimingGear.gt2 a) (TimingGear.a_m_23 a)
    = 1 ^ 2 /\
    Geometry.dist2 (TimingArcs.x3 TimingGear.gt2 a)
                   (TimingArcs.m_34 TimingGear.gt2 a) = 0.15 ^ 2.
Proof.
  eexists. split; [apply gt2_15_solve|].
  destruct (gt2_15_phi4 (N := Sample.numpy) _ gt2_15_r5_bounds)
    as [HD [Hden _]].
  destruct (timing_flank_arcs_touch (N := Sample.numpy) Sample.timing _
              gt2_15_solve)
    as [_ [H1 [H2 _]]].
  - cbn [TimingGear.a_m_23 TimingGear.a_r5 snd]. rewrite gt2_flank_center.
    exact HD.
  - cbn [TimingGear.a_m_23 TimingGear.a_r5 snd]. rewrite gt2_flank_center.
    exact Hden.
  - split; [exact H1|exact H2].
Defined.

(** The arcs of the first tooth wire are drawn through the points and about
    the centres of [TimingArcs]. *)
Lemma timing_tooth_is_drawn_through_arcs `{L : pygears.Library}
    `{N : np.Ufuncs}
    (fp : TimingGear.FeaturePython) (a : TimingGear.arcs) :
  TimingGear.teeth fp <> 0%Z ->
  TimingGear.solve fp = Ok a ->
  let tp := TimingGear.type fp in
  let mir := TimingGear.mul2 (-1, 1) in
  let arc := fun p q m =>
    TimingGear.part_arc_from_points_and_center
      (TimingGear.nd p) (TimingGear.nd q) (TimingGear.nd m) in
  let x2 := TimingArcs.x2 tp a in
  let x3 := TimingArcs.x3 tp a in
  let x4 := TimingArcs.x4 tp a in
  let m_34 := TimingArcs.m_34 tp a in
  exists x6 rest,
    TimingGear.generate_gear_shape fp
    = Ok ((if Req_dec_T (TimingGear.height fp) 0 then fun wi => wi
           else fun wi =>
                  Part.extrude (Part.Face [wi])
                               (App.vec 0 0 (TimingGear.height fp)))
            (Part.Wire
               (Part.Wire
                  [arc (mir x4) (mir x3) (mir m_34);
                   arc (mir x3) (mir x2) (mir (TimingGear.a_m_23 a));
                   arc (mir x2) x2 (TimingGear.a_m_12 a);
                   arc x2 x3 (TimingGear.a_m_23 a);
                   arc x3 x4 m_34;
                   TimingGear.part_arc_from_points_and_center
                     (TimingGear.nd x4) x6 (P2 0 0)]
                :: rest))).
Proof.
  intros Ht Hs tp mir arc x2 x3 x4 m_34.
  assert (Hz : IZR (TimingGear.teeth fp) <> 0) by now apply not_0_IZR.
  unfold TimingGear.generate_gear_shape, TimingGear.tooth_wire.
  rewrite Hs. cbn [bind].
  rewrite (truediv_ok PI) by exact Hz. cbn [bind].
  destruct (belt_flank_constants (TimingGear.type fp)) as [_ [_ [H34 H23]]].
  rewrite truediv_ok by lra. cbn [bind].
  rewrite truediv_ok by exact Hz. cbn [bind].
  destruct (Req_dec_T (TimingGear.height fp) 0);
    eexists; eexists; reflexivity.
Qed.

(** ** The worm gear *)

Lemma hd_samples (a b : R) (n : nat) :
  hd_error (np.samples a b (S n)) = Some a.
Proof.
  unfold np.samples. cbn [seq map hd_error INR]. f_equal. ring.
Qed.

Lemma last_samples (a b : R) (n : nat) :
  Outline.last_opt (np.samples a b (S (S n))) = Some b.
Proof.
  unfold np.samples. rewrite (seq_S (S n)), map_app. cbn [map Nat.add].
  rewrite last_opt_app. f_equal.
  assert (H : INR (S n) <> 0) by (apply not_0_INR; discriminate).
  rewrite (S_INR (S n)). field. lra.
Qed.






Lemma tan_complement_atan (x : R) :
  x <> 0 -> tan (PI / 2 - atan x) = 1 / x.
Proof.
  intros Hx. unfold tan. rewrite sin_shift, cos_shift, cos_atan, sin_atan.
  assert (HN : 0 < sqrt (1 + x²)) by (apply sqrt_lt_R0; unfold Rsqr; nra).
  field. split; lra.
Qed.

Lemma worm_beta_tan (fp : WormGear.FeaturePython) :
  WormGear.module fp * IZR (WormGear.teeth fp) <> 0 ->
  WormGear.diameter fp <> 0 ->
  exists beta,
    WormGear.beta fp = Ok beta /\
    tan beta
    = (if WormGear.reverse_pitch fp then -1 else 1)
      * (WormGear.diameter fp
         / (WormGear.module fp * IZR (WormGear.teeth fp))).
Proof.
  intros Hmt Hd. unfold WormGear.beta.
  rewrite truediv_ok by exact Hd. cbn [bind]. eexists.
  split; [reflexivity|].
  set (x := WormGear.module fp * IZR (WormGear.teeth fp)
            / WormGear.diameter fp).
  assert (Hx : x <> 0).
  { unfold x, Rdiv. apply Rmult_integral_contrapositive_currified;
      [exact Hmt|now apply Rinv_neq_0_compat]. }
  assert (Hm : WormGear.module fp <> 0)
    by (intros E; apply Hmt; rewrite E; ring).
  assert (Ht : IZR (WormGear.teeth fp) <> 0)
    by (intros E; apply Hmt; rewrite E; ring).
  destruct (WormGear.reverse_pitch fp); unfold of_bool.
  - replace (- (1 * 2 - 1) * (PI / 2 - atan x))
      with (- (PI / 2 - atan x)) by ring.
    rewrite tan_neg, tan_complement_atan by exact Hx.
    unfold x. field. repeat split; assumption.
  - replace (- (0 * 2 - 1) * (PI / 2 - atan x))
      with (PI / 2 - atan x) by ring.
    rewrite tan_complement_atan by exact Hx.
    unfold x. field. repeat split; assumption.
Qed.

(** X19. A worm with positive module, tooth count, diameter and height is
    the tooth wires swept along a helix over the whole height.  The lead of
    the helix is [PI * m * t], the axial pitch [PI * m] of one tooth times
    the number of teeth, whatever the diameter and the height; the helix is
    left-handed exactly when [reverse_pitch] is set. *)
Theorem worm_helix_lead `{K : PartMore.Requests} `{Q : Part.Queries}
    (fp : WormGear.FeaturePython) :
  0 < WormGear.module fp ->
  (0 < WormGear.teeth fp)%Z ->
  0 < WormGear.diameter fp ->
  0 < WormGear.height fp ->
  exists full_wire,
    WormGear.generate_gear_shape fp
    = Ok (Part.makePipeShell
            (Part.makeHelix
               (PI * WormGear.module fp * IZR (WormGear.teeth fp))
               (WormGear.height fp) 10 0 (WormGear.reverse_pitch fp))
            [full_wire] true true).
Proof.
  intros Hm Ht Hd Hh.
  assert (Htz : 0 < IZR (WormGear.teeth fp)) by (apply IZR_lt; exact Ht).
  assert (Hmt : 0 < WormGear.module fp * IZR (WormGear.teeth fp))
    by (apply Rmult_lt_0_compat; assumption).
  destruct (worm_beta_tan fp) as [beta [Eb Et]]; [lra|lra|].
  unfold WormGear.generate_gear_shape. rewrite Eb. cbn [bind].
  rewrite truediv_ok by lra. cbn [bind].
  destruct (Req_dec_T (WormGear.height fp) 0) as [E|_]; [lra|].
  eexists. unfold helicalextrusion.
  assert (Hdm : 0 < WormGear.diameter fp
                    / (WormGear.module fp * IZR (WormGear.teeth fp)))
    by (apply Rdiv_lt_0_compat; assumption).
  assert (Htan : tan beta <> 0)
    by (rewrite Et; destruct (WormGear.reverse_pitch fp); lra).
  rewrite helix_pitch, helix_direction by assumption.
  rewrite Et. do 3 f_equal.
  - destruct (WormGear.reverse_pitch fp).
    + rewrite Rabs_left by lra. field. lra.
    + rewrite Rabs_pos_eq by lra. field. lra.
  - destruct (WormGear.reverse_pitch fp).
    + destruct (Rlt_dec _ 0); [reflexivity|lra].
    + destruct (Rlt_dec _ 0); [lra|reflexivity].
Qed.

Lemma worm_helix_lead_witness :
  exists full_wire,
    WormGear.generate_gear_shape (K := Fixture.requests) (Q := Sample.kernel)
      (Fixture.worm_with 5)
    = Ok (Part.makePipeShell
            (Part.makeHelix (PI * 1 * IZR 3) 5 10 0 false)
            [full_wire] true true).
Proof.
  apply (worm_helix_lead (K := Fixture.requests) (Q := Sample.kernel)
           (Fixture.worm_with 5)); simpl; try lra. lia.
Defined.

Lemma replicate_is_iterated (n : nat) (rot : App.Matrix) (w : Part.Shape) :
  replicate n rot w
  = map (fun k => Nat.iter (S k) (fun s => Part.transformGeometry s rot) w)
        (seq 0 n).
Proof.
  revert w. induction n as [|n IH]; intros w; [reflexivity|].
  cbn [replicate seq map]. f_equal. rewrite IH, <- seq_shift, map_map.
  apply map_ext. intros k. cbn [Nat.iter nat_rect].
  clear IH. induction k as [|k IHk]; [reflexivity|].
  cbn [nat_rect]. now rewrite IHk.
Qed.

Lemma iter_rotateZ_apply (step : R) (k : nat) (v : App.Vector) :
  Nat.iter k (App.apply (App.rotateZ step App.identity)) v
  = App.rotate_about (App.vec 0 0 0) (INR k * step) v.
Proof.
  rewrite (iter_ext _ (App.rotate_about (App.vec 0 0 0) step)).
  - apply iter_rotate_about.
  - intros y. now rewrite apply_rotateZ, apply_identity.
Qed.

(** X20. A worm of height 0, with a diameter other than 0 and at least one
    tooth, is not swept: it is the wire of the [t] tooth wires.  These are
    the wire of one tooth transformed 0, 1, ... [t - 1] times by the same
    matrix, which turns a point by [2 * PI / t] about the axis each time it
    is applied, and brings it back after [t] times. *)
Theorem worm_flat_is_turned_tooth_wires
    `{K : PartMore.Requests} `{Q : Part.Queries}
    (fp : WormGear.FeaturePython) :
  WormGear.diameter fp <> 0 ->
  (1 <= WormGear.teeth fp)%Z ->
  WormGear.height fp = 0 ->
  exists rot,
    WormGear.generate_gear_shape fp
    = Ok (Part.Wire
            [Part.Wire
               (map (fun k =>
                       Nat.iter k (fun s => Part.transformGeometry s rot)
                                (WormGear.wire fp))
                    (seq 0 (Z.to_nat (WormGear.teeth fp))))]) /\
    (forall k v,
       Nat.iter k (App.apply rot) v
       = App.rotate_about (App.vec 0 0 0)
           (INR k * (2 * PI / IZR (WormGear.teeth fp))) v) /\
    (forall v, Nat.iter (Z.to_nat (WormGear.teeth fp)) (App.apply rot) v = v).
Proof.
  intros Hd Ht Hh.
  assert (Hz : IZR (WormGear.teeth fp) <> 0) by (apply not_0_IZR; lia).
  exists (App.rotateZ (2 * PI / IZR (WormGear.teeth fp)) App.identity).
  split; [|split].
  - unfold WormGear.generate_gear_shape, WormGear.beta.
    rewrite truediv_ok by exact Hd. cbn [bind].
    rewrite truediv_ok by exact Hz. cbn [bind].
    rewrite Hh, if_Req_same. do 3 f_equal.
    replace (Z.to_nat (WormGear.teeth fp))
      with (S (Z.to_nat (WormGear.teeth fp - 1))) by lia.
    cbn [seq map Nat.iter nat_rect]. f_equal.
    rewrite replicate_is_iterated, <- seq_shift, map_map. reflexivity.
  - intros k v. apply iter_rotateZ_apply.
  - intros v. rewrite iter_rotateZ_apply.
    replace (INR (Z.to_nat (WormGear.teeth fp))
             * (2 * PI / IZR (WormGear.teeth fp))) with (2 * PI).
    + apply rotate_about_full_turn.
    + rewrite INR_IZR_INZ, Z2Nat.id by lia. field. exact Hz.
Qed.

Lemma worm_flat_is_turned_tooth_wires_witness :
  exists rot,
    WormGear.generate_gear_shape (K := Fixture.requests) (Q := Sample.kernel)
      (Fixture.worm_with 0)
    = Ok (Part.Wire
            [Part.Wire
               (map (fun k =>
                       Nat.iter k (fun s => Part.transformGeometry s rot)
                                (WormGear.wire (K := Fixture.requests)
                                               (Fixture.worm_with 0)))
                    (seq 0 3))]).
Proof.
  destruct (worm_flat_is_turned_tooth_wires (K := Fixture.requests)
              (Q := Sample.kernel) (Fixture.worm_with 0))
    as [rot [H _]].
  - simpl. lra.
  - simpl. lia.
  - reflexivity.
  - exists rot. exact H.
Defined.

(** ** The crown gear *)

Lemma crown_profile_returns `{N : np.Ufuncs}
    (m r r0 : R) (t_c t_i : Z) (alpha_w y0 y1 y2 : R) :
  t_i <> 0%Z ->
  exists pts, CrownGear.profile m r r0 t_c t_i alpha_w y0 y1 y2 = Ok pts.
Proof.
  intros Ht. unfold CrownGear.profile.
  rewrite truediv_ok by now apply not_0_IZR. cbn [bind].
  eexists. reflexivity.
Qed.

(** X21. The flanks of the cutting profile of a crown gear lean by the
    modified pressure angle.  Where the angle is a number (the radii and
    the tooth count of the other gear are not 0, and [r0 / r * cos alpha_w]
    lies in [[-1, 1]] and is not 0), [profile] returns the four corners of
    a trapezoid that is symmetric in the plane [x = 0], and the first
    corner again.  From the lower corner at the height [y0 - y1 - y2] to
    the upper corner at [y0] a flank runs outwards by [tan alpha] times the
    rise [y1 + y2], where [cos alpha = r0 / r * cos alpha_w]: on the
    reference circle, where [r = r0], the flanks lean by the pressure
    angle [alpha_w] itself. *)
Theorem crown_flank_leans_by_modified_pressure_angle `{N : np.Ufuncs}
    (m r r0 : R) (t_c t_i : Z) (alpha_w y0 y1 y2 : R) :
  t_i <> 0%Z ->
  r <> 0 ->
  r0 <> 0 ->
  -1 <= r0 / r * cos alpha_w <= 1 ->
  r0 / r * cos alpha_w <> 0 ->
  exists x1 x2 ry alpha,
    CrownGear.profile m r r0 t_c t_i alpha_w y0 y1 y2
    = Ok [Geometry.mirror_x (P3 x1 ry y0);
          Geometry.mirror_x (P3 x2 ry (y0 - y1 - y2));
          P3 x2 ry (y0 - y1 - y2);
          P3 x1 ry y0;
          Geometry.mirror_x (P3 x1 ry y0)] /\
    0 <= alpha <= PI /\
    cos alpha = r0 / r * cos alpha_w /\
    x1 - x2 = tan alpha * (y1 + y2) /\
    (r = r0 -> 0 <= alpha_w <= PI -> alpha = alpha_w).
Proof.
  intros Ht Hr Hr0 Hdom Hnz. unfold CrownGear.profile.
  rewrite truediv_ok by now apply not_0_IZR. cbn [bind app].
  rewrite (np.arccos_real _ Hdom).
  set (alpha := acos (r0 / r * cos alpha_w)).
  eexists. eexists. eexists. exists alpha.
  split; [unfold Geometry.mirror_x; reflexivity|].
  split; [apply acos_bound|].
  split; [apply cos_acos; exact Hdom|].
  split; [ring|].
  intros E Ha. unfold alpha. rewrite E.
  replace (r0 / r0 * cos alpha_w) with (cos alpha_w) by (field; exact Hr0).
  apply acos_cos. exact Ha.
Qed.

Lemma crown_flank_leans_by_modified_pressure_angle_witness :
  exists x1 x2 ry alpha,
    CrownGear.profile (N := Sample.numpy)
      1 8 (15 / 2) 15 15 (np.deg2rad 20) (1 / 2) (3 / 2) 1
    = Ok [Geometry.mirror_x (P3 x1 ry (1 / 2));
          Geometry.mirror_x (P3 x2 ry (1 / 2 - 3 / 2 - 1));
          P3 x2 ry (1 / 2 - 3 / 2 - 1);
          P3 x1 ry (1 / 2);
          Geometry.mirror_x (P3 x1 ry (1 / 2))] /\
    cos alpha = 15 / 2 / 8 * cos (np.deg2rad 20) /\
    x1 - x2 = tan alpha * (3 / 2 + 1).
Proof.
  assert (P := PI_RGT_0).
  assert (C : 0 < cos (np.deg2rad 20)).
  { apply cos_gt_0; unfold np.deg2rad; lra. }
  assert (C1 := COS_bound (np.deg2rad 20)).
  destruct (crown_flank_leans_by_modified_pressure_angle (N := Sample.numpy)
              1 8 (15 / 2) 15 15 (np.deg2rad 20) (1 / 2) (3 / 2) 1)
    as [x1 [x2 [ry [alpha [E [_ [Hc [Hx _]]]]]]]].
  - lia.
  - lra.
  - lra.
  - split; nra.
  - nra.
  - exists x1, x2, ry, alpha. split; [exact E|]. split; [exact Hc|exact Hx].
Defined.

(** X22. In preview mode a crown gear is returned without any cutting and
    without any division: for every tooth count, also 0, the result is the
    ring between the circles of radius [m * t / 2] and [m * t / 2 + height]
    about the origin, extruded downwards by the thickness. *)
Theorem crown_preview_is_a_ring `{K : PartMore.Requests} `{N : np.Ufuncs}
    (fp : CrownGear.FeaturePython) :
  CrownGear.preview_mode fp = true ->
  let inner := CrownGear.module fp * IZR (CrownGear.teeth fp) / 2 in
  CrownGear.generate_gear_shape fp
  = Ok (Part.extrude
          (Part.Face
             [Part.Wire
                [Part.makeCircle (inner + CrownGear.height fp)
                                 (App.vec 0 0 0)];
              PartMore.reverse
                (Part.Wire [Part.makeCircle inner (App.vec 0 0 0)])])
          (App.vec 0 0 (- CrownGear.thickness fp))) /\
  Geometry.thickness_of (CrownGear.solid fp) = - CrownGear.thickness fp.
Proof.
  intros Hp inner. unfold CrownGear.generate_gear_shape. rewrite Hp.
  unfold CrownGear.solid. fold inner. split.
  - replace ((CrownGear.module fp * IZR (CrownGear.teeth fp)
               + CrownGear.height fp * 2) / 2)
      with (inner + CrownGear.height fp) by (unfold inner; field).
    reflexivity.
  - cbn [Geometry.thickness_of App.vz]. ring.
Qed.

Lemma crown_preview_is_a_ring_witness :
  CrownGear.generate_gear_shape (K := Fixture.requests) (N := Sample.numpy)
    (Fixture.crown_with true)
  = Ok (Part.extrude
          (Part.Face
             [Part.Wire [Part.makeCircle (1 * IZR 15 / 2 + 2) (App.vec 0 0 0)];
              Part.Wire [Part.makeCircle (1 * IZR 15 / 2) (App.vec 0 0 0)]])
          (App.vec 0 0 (- 5))).
Proof.
  apply (crown_preview_is_a_ring (K := Fixture.requests) (N := Sample.numpy)
           (Fixture.crown_with true)).
  reflexivity.
Defined.

Lemma mapM_length {A B} (f : A -> result B) (l : list A) (bs : list B) :
  mapM f l = Ok bs -> length bs = length l.
Proof.
  revert bs. induction l as [|a l IH]; intros bs; simpl.
  - intros H. injection H as <-. reflexivity.
  - destruct (f a) as [b|ex]; [|intros H; discriminate H]. simpl.
    destruct (mapM f l) as [bs0|ex]; [|intros H; discriminate H].
    simpl. intros H. injection H as <-. simpl. now rewrite (IH bs0).
Qed.

Lemma samples_length (a b : R) (n : nat) : length (np.samples a b n) = n.
Proof. unfold np.samples. now rewrite length_map, length_seq. Qed.

(** X23. Out of preview mode, with at least one tooth, a tooth count of
    the other gear that is not 0 and a number of profiles that is not
    negative, the crown gear is the ring cut with as many lofts as it has
    teeth.  Each loft goes through [num_profiles] polygons; the cutters are
    the loft transformed 1, 2, ... [t] times by the matrix of the turn by
    [2 * PI / t], so that the last one is where the loft was built. *)
Theorem crown_is_cut_once_per_tooth `{K : PartMore.Requests}
    `{N : np.Ufuncs}
    (fp : CrownGear.FeaturePython) :
  CrownGear.preview_mode fp = false ->
  (1 <= CrownGear.teeth fp)%Z ->
  CrownGear.other_teeth fp <> 0%Z ->
  (0 <= CrownGear.num_profiles fp)%Z ->
  exists polies rot,
    CrownGear.generate_gear_shape fp
    = Ok (Part.cut (CrownGear.solid fp)
            (map (fun k =>
                    Nat.iter (S k) (fun s => Part.transformGeometry s rot)
                             (Part.makeLoft polies true false))
                 (seq 0 (Z.to_nat (CrownGear.teeth fp))))) /\
    length polies = Z.to_nat (CrownGear.num_profiles fp) /\
    (forall k v,
       Nat.iter k (App.apply rot) v
       = App.rotate_about (App.vec 0 0 0)
           (INR k * (2 * PI / IZR (CrownGear.teeth fp))) v) /\
    (forall v, Nat.iter (Z.to_nat (CrownGear.teeth fp)) (App.apply rot) v = v).
Proof.
  intros Hp Ht Hi Hn.
  assert (Hz : IZR (CrownGear.teeth fp) <> 0) by (apply not_0_IZR; lia).
  unfold CrownGear.generate_gear_shape. rewrite Hp.
  unfold np.linspace.
  destruct (Z.ltb_spec (CrownGear.num_profiles fp) 0) as [H|_]; [lia|].
  cbn [bind].
  match goal with
  | |- context [mapM ?f ?l] =>
      destruct (mapM_returns f l) as [polies Hpol]
  end.
  { intros r_i.
    destruct (crown_profile_returns
                (CrownGear.module fp) r_i
                (CrownGear.module fp * IZR (CrownGear.teeth fp) / 2)
                (CrownGear.teeth fp) (CrownGear.other_teeth fp)
                (np.deg2rad (CrownGear.pressure_angle fp))
                (CrownGear.module fp * 0.5)
                (CrownGear.module fp + CrownGear.module fp * 0.5)
                (CrownGear.module fp) Hi) as [pts ->].
    cbn [bind]. eexists. reflexivity. }
  rewrite Hpol. cbn [bind]. rewrite truediv_ok by exact Hz. cbn [bind].
  exists polies,
    (App.rotateZ (2 * PI / IZR (CrownGear.teeth fp)) App.identity).
  split; [now rewrite replicate_is_iterated|].
  split; [|split].
  - apply mapM_length in Hpol. now rewrite Hpol, samples_length.
  - intros k v. apply iter_rotateZ_apply.
  - intros v. rewrite iter_rotateZ_apply.
    replace (INR (Z.to_nat (CrownGear.teeth fp))
             * (2 * PI / IZR (CrownGear.teeth fp))) with (2 * PI).
    + apply rotate_about_full_turn.
    + rewrite INR_IZR_INZ, Z2Nat.id by lia. field. exact Hz.
Qed.

Lemma crown_is_cut_once_per_tooth_witness :
  exists polies rot,
    CrownGear.generate_gear_shape (K := Fixture.requests)
      (N := Sample.numpy) (Fixture.crown_with false)
    = Ok (Part.cut (CrownGear.solid (K := Fixture.requests)
                      (Fixture.crown_with false))
            (map (fun k =>
                    Nat.iter (S k) (fun s => Part.transformGeometry s rot)
                             (Part.makeLoft polies true false))
                 (seq 0 15))) /\
    length polies = 4%nat.
Proof.
  destruct (crown_is_cut_once_per_tooth (K := Fixture.requests)
              (N := Sample.numpy) (Fixture.crown_with false))
    as [polies [rot [H [Hl _]]]].
  - reflexivity.
  - simpl. lia.
  - simpl. lia.
  - simpl. lia.
  - exists polies, rot. split; [exact H|exact Hl].
Defined.

(** ** The lantern gear *)

(** X24. The function whose root the lantern gear asks the solver for
    measures how far the flank is from the bolt circle: at every angle it
    is the squared distance of the flank point from the bolt centre
    [(r_0, 0)] minus the squared bolt radius.  So the flank starts on the
    bolt circle exactly when the solver returns a root.  The mirrored flank
    point is as far from the bolt centre, and the middle point
    [(r_0 - r_r, 0)] of the root arc lies on the bolt circle. *)
Theorem lantern_root_is_on_the_bolt_circle
    (fp : LanternGear.FeaturePython) (phi : R) :
  let centre := (LanternGear.r_0 fp, 0) in
  LanternGear.find_phi_min fp phi
  = Geometry.dist2 (LanternGear.flank fp phi) centre
    - LanternGear.bolt_radius fp ^ 2 /\
  Geometry.dist2 (TimingGear.mul2 (LanternGear.flank fp phi) (1, -1)) centre
  = Geometry.dist2 (LanternGear.flank fp phi) centre /\
  Geometry.dist2 (LanternGear.r_0 fp - LanternGear.bolt_radius fp, 0) centre
  = LanternGear.bolt_radius fp ^ 2.
Proof.
  intros centre.
  unfold centre, LanternGear.find_phi_min, LanternGear.flank, Geometry.dist2,
    TimingGear.mul2.
  cbn [fst snd].
  set (r0 := LanternGear.r_0 fp). set (rr := LanternGear.bolt_radius fp).
  assert (T := sin2_cos2 phi). unfold Rsqr in T.
  set (s := sin phi) in *. set (c := cos phi) in *.
  assert (E : (s * s + c * c - 1)
              * (r0 ^ 2 * (1 + phi ^ 2) + rr ^ 2 - 2 * r0 * rr * phi) = 0)
    by (rewrite T; ring).
  repeat split; [lra|ring|ring].
Qed.

Lemma flank_radius (fp : LanternGear.FeaturePython) (phi : R) :
  Geometry.dist2 (LanternGear.flank fp phi) (0, 0)
  = LanternGear.r_0 fp ^ 2
    + (LanternGear.r_0 fp * phi - LanternGear.bolt_radius fp) ^ 2.
Proof.
  unfold LanternGear.flank, Geometry.dist2. cbn [fst snd].
  set (r0 := LanternGear.r_0 fp). set (rr := LanternGear.bolt_radius fp).
  assert (T := sin2_cos2 phi). unfold Rsqr in T.
  set (s := sin phi) in *. set (c := cos phi) in *.
  assert (E : (s * s + c * c - 1)
              * (r0 ^ 2 * (1 + phi ^ 2) + rr ^ 2 - 2 * r0 * rr * phi) = 0)
    by (rewrite T; ring).
  lra.
Qed.

Lemma last_row_map {A B} (f : A -> B) (l : list A) (x : A) :
  Outline.last_opt l = Some x ->
  LanternGear.last_row (map f l) = Ok (f x).
Proof.
  intros H. unfold LanternGear.last_row. now rewrite last_opt_map, H.
Qed.

(** X25. With at least two profiles, a pitch radius other than 0 and a tip
    radius that is not below it in absolute value, the flank of a lantern
    tooth ends on the tip circle: the last row of [xy1] is the flank point
    at [phi_max], at the distance [r_max] from the origin. *)
Theorem lantern_flank_ends_on_tip_circle `{N : np.Ufuncs}
    (root : option ((R -> R) -> R -> R))
    (fp : LanternGear.FeaturePython) (pts : list (R * R)) :
  LanternGear.r_0 fp <> 0 ->
  LanternGear.r_0 fp ^ 2 <= LanternGear.r_max fp ^ 2 ->
  (2 <= LanternGear.num_profiles fp)%Z ->
  LanternGear.xy1 root fp = Ok pts ->
  LanternGear.last_row pts
  = Ok (LanternGear.flank fp (LanternGear.phi_max fp)) /\
  Geometry.dist2 (LanternGear.flank fp (LanternGear.phi_max fp)) (0, 0)
  = LanternGear.r_max fp ^ 2.
Proof.
  intros H0 Hr Hn. unfold LanternGear.xy1.
  destruct (LanternGear.phi_min root fp) as [pm|ex];
    [|intros H; simpl in H; discriminate H].
  cbn [bind]. unfold np.linspace.
  destruct (Z.ltb_spec (LanternGear.num_profiles fp) 0) as [H|_]; [lia|].
  cbn [bind]. intros H. injection H as <-. split.
  - apply last_row_map.
    replace (Z.to_nat (LanternGear.num_profiles fp))
      with (S (S (Z.to_nat (LanternGear.num_profiles fp - 2)))) by lia.
    apply last_samples.
  - rewrite flank_radius. unfold LanternGear.phi_max.
    set (D := LanternGear.r_max fp ^ 2 - LanternGear.r_0 fp ^ 2).
    assert (HD : 0 <= D) by (unfold D; lra).
    rewrite (np.sqrt_real D HD).
    assert (S2 := sqrt_sqrt D HD).
    replace (LanternGear.r_0 fp
             * ((LanternGear.bolt_radius fp + sqrt D) / LanternGear.r_0 fp)
             - LanternGear.bolt_radius fp) with (sqrt D) by (field; exact H0).
    unfold D in *. nra.
Qed.

Lemma lantern_xy1_returns `{N : np.Ufuncs}
    (root : option ((R -> R) -> R -> R))
    (fp : LanternGear.FeaturePython) :
  LanternGear.r_0 fp <> 0 ->
  (0 <= LanternGear.num_profiles fp)%Z ->
  exists pm,
    LanternGear.phi_min root fp = Ok pm /\
    LanternGear.xy1 root fp
    = Ok (map (LanternGear.flank fp)
              (np.samples pm (LanternGear.phi_max fp)
                          (Z.to_nat (LanternGear.num_profiles fp)))).
Proof.
  intros H0 Hn. unfold LanternGear.xy1, LanternGear.phi_min.
  destruct root as [root|]; rewrite truediv_ok by exact H0; cbn [bind];
    (eexists; split; [reflexivity|]); unfold np.linspace;
    (destruct (Z.ltb_spec (LanternGear.num_profiles fp) 0) as [H|_];
     [lia|]); reflexivity.
Qed.

Lemma lantern_flank_ends_on_tip_circle_witness :
  Geometry.dist2 (LanternGear.flank Fixture.lantern
                    (LanternGear.phi_max (N := Sample.numpy)
                       Fixture.lantern)) (0, 0)
  = LanternGear.r_max Fixture.lantern ^ 2.
Proof.
  assert (H0 : LanternGear.r_0 Fixture.lantern <> 0)
    by (unfold LanternGear.r_0; simpl; lra).
  destruct (lantern_xy1_returns (N := Sample.numpy) None Fixture.lantern H0)
    as [pm [_ E]]; [simpl; lia|].
  apply (lantern_flank_ends_on_tip_circle (N := Sample.numpy) None
           Fixture.lantern _ H0) in E.
  - exact (proj2 E).
  - unfold LanternGear.r_max, LanternGear.r_0. simpl. nra.
  - simpl. lia.
Defined.

Lemma sin_sqr_lt (u : R) : 0 < u -> sin u * sin u < u * u.
Proof.
  intros Hu. assert (H1 := sin_lt_x u Hu).
  assert (H2 : - u < sin u).
  { destruct (Rle_dec u PI) as [Hp|Hp].
    - assert (0 <= sin u) by (apply sin_ge_0; lra). lra.
    - assert (B := SIN_bound u). assert (P := PI_bounds). lra. }
  nra.
Qed.

Lemma chord_below_arc (phi : R) : phi <> 0 -> 2 - 2 * cos phi < phi ^ 2.
Proof.
  intros Hp.
  replace phi with (2 * (phi / 2)) at 1 by field.
  rewrite cos_2a_sin.
  assert (H : sin (phi / 2) * sin (phi / 2) < phi / 2 * (phi / 2)).
  { destruct (Rlt_dec 0 phi) as [Hpos|Hneg].
    - apply sin_sqr_lt. lra.
    - assert (Hn : 0 < - (phi / 2)) by lra.
      assert (H := sin_sqr_lt _ Hn). rewrite sin_neg in H. nra. }
  nra.
Qed.

(** X26. Without scipy the flank of a lantern tooth does not start on the
    bolt circle.  For a pitch radius and a bolt radius other than 0, the
    fallback [phi_min = r_r / r_0] puts the first flank point on the pitch
    circle, at the distance [r_0] from the origin, and strictly inside the
    circle of radius [r_r] about the bolt centre: the root arc is drawn
    with too small a radius, as the warning of the code says. *)
Theorem lantern_without_scipy_starts_inside_bolt_circle `{N : np.Ufuncs}
    (fp : LanternGear.FeaturePython) :
  LanternGear.r_0 fp <> 0 ->
  LanternGear.bolt_radius fp <> 0 ->
  let phi := LanternGear.bolt_radius fp / LanternGear.r_0 fp in
  LanternGear.phi_min None fp = Ok phi /\
  Geometry.dist2 (LanternGear.flank fp phi) (0, 0) = LanternGear.r_0 fp ^ 2 /\
  Geometry.dist2 (LanternGear.flank fp phi) (LanternGear.r_0 fp, 0)
  < LanternGear.bolt_radius fp ^ 2.
Proof.
  intros H0 Hr phi. split; [|split].
  - unfold LanternGear.phi_min. now apply truediv_ok.
  - rewrite flank_radius.
    replace (LanternGear.r_0 fp * phi - LanternGear.bolt_radius fp) with 0
      by (unfold phi; field; exact H0).
    ring.
  - assert (Hphi : phi <> 0).
    { unfold phi, Rdiv. apply Rmult_integral_contrapositive_currified;
        [exact Hr|now apply Rinv_neq_0_compat]. }
    assert (C := chord_below_arc phi Hphi).
    assert (Er : LanternGear.bolt_radius fp = LanternGear.r_0 fp * phi)
      by (unfold phi; field; exact H0).
    unfold LanternGear.flank, Geometry.dist2. cbn [fst snd].
    rewrite Er.
    set (r0 := LanternGear.r_0 fp) in *.
    assert (T := sin2_cos2 phi). unfold Rsqr in T.
    set (s := sin phi) in *. set (c := cos phi) in *.
    replace ((r0 * (c + phi * s) - r0 * phi * s - r0) ^ 2
             + (r0 * (s - phi * c) + r0 * phi * c - 0) ^ 2)
      with (r0 ^ 2 * ((s * s + c * c) + 1 - 2 * c)) by ring.
    rewrite T.
    assert (H2 : 0 < r0 * r0) by (apply Rsqr_pos_lt; exact H0).
    nra.
Qed.

Lemma lantern_without_scipy_starts_inside_bolt_circle_witness :
  Geometry.dist2 (LanternGear.flank Fixture.lantern
                    (LanternGear.bolt_radius Fixture.lantern
                     / LanternGear.r_0 Fixture.lantern))
                 (LanternGear.r_0 Fixture.lantern, 0)
  < LanternGear.bolt_radius Fixture.lantern ^ 2.
Proof.
  apply (lantern_without_scipy_starts_inside_bolt_circle
           (N := Sample.numpy) Fixture.lantern).
  - unfold LanternGear.r_0. simpl. lra.
  - simpl. lra.
Defined.

(** X27. A lantern gear whose pitch radius [m * teeth / 2] is 0, for a
    tooth count or a module of 0, raises [ZeroDivisionError], with scipy
    and without: both ways to [phi_min] divide the bolt radius by the pitch
    radius. *)
Theorem lantern_zero_pitch_radius_raises `{L : pygears.Library}
    `{N : np.Ufuncs}
    (root : option ((R -> R) -> R -> R))
    (fp : LanternGear.FeaturePython) :
  LanternGear.r_0 fp = 0 ->
  LanternGear.generate_gear_shape root fp = Raise ZeroDivisionError.
Proof.
  intros H0.
  unfold LanternGear.generate_gear_shape, LanternGear.tooth_wire,
    LanternGear.xy1, LanternGear.phi_min.
  destruct root; rewrite H0, truediv_zero; reflexivity.
Qed.

Lemma lantern_zero_pitch_radius_raises_witness :
  LanternGear.generate_gear_shape (L := Sample.plain) (N := Sample.numpy)
    None Fixture.lantern_toothless = Raise ZeroDivisionError.
Proof.
  apply (lantern_zero_pitch_radius_raises (L := Sample.plain)
           (N := Sample.numpy) None
           Fixture.lantern_toothless).
  unfold LanternGear.r_0. simpl. lra.
Defined.

Lemma lantern_loop (fp : LanternGear.FeaturePython) (w : Part.Shape)
    (n : nat) :
  IZR (LanternGear.teeth fp) <> 0 ->
  let step := PI * 2 / IZR (LanternGear.teeth fp) in
  foldM (LanternGear.turn_and_append fp w) (range (Z.of_nat n))
        (App.identity, [w])
  = Ok (Nat.iter n (App.rotateZ step) App.identity,
        w :: map (fun k =>
                    Part.transformGeometry w
                      (Nat.iter k (App.rotateZ step) App.identity))
                 (seq 1 n)).
Proof.
  intros Hz step. induction n as [|n IH]; [reflexivity|].
  rewrite range_succ, foldM_app, IH. cbn [bind foldM].
  unfold LanternGear.turn_and_append.
  rewrite truediv_ok by exact Hz. cbn [bind]. fold step.
  rewrite seq_S, map_app. reflexivity.
Qed.

Lemma apply_iter_rotateZ (step : R) (k : nat) (v : App.Vector) :
  App.apply (Nat.iter k (App.rotateZ step) App.identity) v
  = App.rotate_about (App.vec 0 0 0) (INR k * step) v.
Proof.
  induction k as [|k IH].
  - simpl. rewrite apply_identity, Rmult_0_l. symmetry.
    apply rotate_about_zero.
  - cbn [Nat.iter nat_rect].
    change (nat_rect _ App.identity _ k)
      with (Nat.iter k (App.rotateZ step) App.identity).
    rewrite apply_rotateZ, IH, rotate_about_plus. f_equal.
    rewrite S_INR. ring.
Qed.

(** X28. The teeth of a lantern gear are the first one, turned.  When
    the wire of one tooth is built and the gear has at least one tooth, the
    outline is that wire followed by its images under the matrices that the
    loop accumulates, one for each further tooth; the [k]-th of these
    matrices is the turn by [k] times [2 * PI / teeth] about the axis.
    Height 0 returns the wire of these, any other height the extruded
    face. *)
Theorem lantern_teeth_are_evenly_turned `{L : pygears.Library}
    `{N : np.Ufuncs}
    (root : option ((R -> R) -> R -> R))
    (fp : LanternGear.FeaturePython) (w : Part.Shape) :
  LanternGear.tooth_wire root fp = Ok w ->
  (1 <= LanternGear.teeth fp)%Z ->
  let step := PI * 2 / IZR (LanternGear.teeth fp) in
  let rot := fun k => Nat.iter k (App.rotateZ step) App.identity in
  let wi :=
    Part.Wire
      (w :: map (fun k => Part.transformGeometry w (rot k))
                (seq 1 (Z.to_nat (LanternGear.teeth fp - 1)))) in
  LanternGear.generate_gear_shape root fp
  = Ok (if Req_dec_T (LanternGear.height fp) 0 then wi
        else Part.extrude (Part.Face [wi])
                          (App.vec 0 0 (LanternGear.height fp))) /\
  (forall k v,
     App.apply (rot k) v
     = App.rotate_about (App.vec 0 0 0) (INR k * step) v).
Proof.
  intros Hw Ht step rot wi.
  assert (Hz : IZR (LanternGear.teeth fp) <> 0) by (apply not_0_IZR; lia).
  split; [|intros k v; apply apply_iter_rotateZ].
  unfold LanternGear.generate_gear_shape. rewrite Hw. cbn [bind].
  replace (LanternGear.teeth fp - 1)%Z
    with (Z.of_nat (Z.to_nat (LanternGear.teeth fp - 1))) at 1 by lia.
  rewrite lantern_loop by exact Hz. cbn [bind].
  destruct (Req_dec_T (LanternGear.height fp) 0); reflexivity.
Qed.

Lemma hd_error_map {A B} (f : A -> B) (l : list A) (x : A) :
  hd_error l = Some x -> hd_error (map f l) = Some (f x).
Proof.
  destruct l as [|a l]; simpl; intros H; [discriminate H|].
  now injection H as ->.
Qed.

Lemma first_row_map {A B} (f : A -> B) (l : list A) (x : A) :
  hd_error l = Some x -> LanternGear.first_row (map f l) = Ok (f x).
Proof.
  destruct l as [|a l]; simpl; intros H; [discriminate H|].
  now injection H as ->.
Qed.

Lemma plain_lantern_tooth_wire :
  exists w,
    LanternGear.tooth_wire (L := Sample.plain) (N := Sample.numpy) None
      Fixture.lantern = Ok w.
Proof.
  assert (H0 : LanternGear.r_0 Fixture.lantern <> 0)
    by (unfold LanternGear.r_0; simpl; lra).
  destruct (lantern_xy1_returns (N := Sample.numpy) None Fixture.lantern H0)
    as [pm [_ E]]; [simpl; lia|].
  unfold LanternGear.tooth_wire. rewrite E. cbn [bind].
  change (Z.to_nat (LanternGear.num_profiles Fixture.lantern)) with 10%nat.
  set (l := np.samples pm
              (LanternGear.phi_max (N := Sample.numpy) Fixture.lantern) 10).
  assert (Hl : Outline.last_opt l
               = Some (LanternGear.phi_max (N := Sample.numpy)
                         Fixture.lantern))
    by apply (last_samples pm _ 8).
  assert (Hf : hd_error l = Some pm) by apply (hd_samples pm _ 9).
  rewrite (first_row_map _ _ _ Hf). cbn [bind].
  rewrite (last_row_map _ _ _ Hl). cbn [bind].
  rewrite (first_row_map _ _ _ (hd_error_map _ _ _ Hf)). cbn [bind].
  rewrite (last_row_map _ _ _
             (eq_trans (last_opt_map _ _) (f_equal _ Hl))).
  cbn [bind option_map].
  rewrite truediv_ok by (simpl; lra). cbn [bind].
  cbn [pygears.rotation Sample.plain map LanternGear.first_row bind].
  eexists. reflexivity.
Qed.

Lemma lantern_teeth_are_evenly_turned_witness :
  exists w,
    LanternGear.generate_gear_shape (L := Sample.plain) (N := Sample.numpy)
      None Fixture.lantern
    = Ok (Part.extrude
            (Part.Face
               [Part.Wire
                  (w :: map (fun k =>
                               Part.transformGeometry w
                                 (Nat.iter k (App.rotateZ (PI * 2 / IZR 15))
                                           App.identity))
                            (seq 1 14))])
            (App.vec 0 0 5)).
Proof.
  destruct plain_lantern_tooth_wire as [w Hw].
  exists w.
  destruct (lantern_teeth_are_evenly_turned (L := Sample.plain)
              (N := Sample.numpy) None Fixture.lantern w Hw) as [H _].
  - simpl. lia.
  - rewrite H. simpl LanternGear.height.
    destruct (Req_dec_T 5 0) as [E|_]; [lra|]. reflexivity.
Defined.

(** ** The rack *)

(** X29. A rack with a height and a helix angle other than 0 is a solid
    loft through copies of its polygon wire [pol].  A single helix has two
    profiles and is not ruled: the top one is [pol] moved up by the height
    and sideways by [tan beta] times the height.  A double helix has three
    and is ruled: the middle one is moved up by half the height and
    sideways by [tan beta] times half the height, and the top one is moved
    straight up by the height, so that the upper half leans back by as much
    as the lower half leans over. *)
Theorem rack_helix_leans_by_beta `{K : PartMore.Requests}
    (update : InvoluteGearRack.InvoluteRack
              -> result InvoluteGearRack.InvoluteRack)
    (compute_properties : InvoluteGearRack.InvoluteRack -> result (R * R * R))
    (points : InvoluteGearRack.InvoluteRack -> result (list ndpoint))
    (fp : InvoluteGearRack.FeaturePython) (pol : Part.Shape) :
  InvoluteGearRack.polygon update compute_properties points fp = Ok pol ->
  InvoluteGearRack.height fp <> 0 ->
  InvoluteGearRack.beta fp <> 0 ->
  let h := InvoluteGearRack.height fp in
  let slope := tan (InvoluteGearRack.beta fp * PI / 180) in
  exists mid top,
    InvoluteGearRack.generate_gear_shape update compute_properties points fp
    = Ok (Part.makeLoft (pol :: mid ++ [top]) true
            (InvoluteGearRack.double_helix fp)) /\
    Forall (fun s => Geometry.profile_of s = Part.Wire [pol]) (mid ++ [top]) /\
    Geometry.offset_of top
    = App.vec 0 (if InvoluteGearRack.double_helix fp then 0 else slope * h) h /\
    (if InvoluteGearRack.double_helix fp
     then exists m,
            mid = [m] /\
            Geometry.offset_of m = App.vec 0 (slope * (h / 2)) (h / 2) /\
            App.vy (Geometry.offset_of top) - App.vy (Geometry.offset_of m)
            = - slope * (App.vz (Geometry.offset_of top)
                         - App.vz (Geometry.offset_of m))
     else mid = []).
Proof.
  intros Hpol Hh Hb h slope.
  unfold InvoluteGearRack.generate_gear_shape. rewrite Hpol. cbn [bind].
  destruct (Req_dec_T (InvoluteGearRack.height fp) 0) as [E|_];
    [contradiction|].
  destruct (Req_dec_T (InvoluteGearRack.beta fp) 0) as [E|_];
    [contradiction|].
  destruct (InvoluteGearRack.double_helix fp).
  - eexists [_], _. split; [reflexivity|].
    split; [repeat constructor|]. split; [reflexivity|].
    eexists. split; [reflexivity|]. split.
    + cbn [Geometry.offset_of fcvec]. f_equal. unfold slope, h. field.
    + cbn [Geometry.offset_of fcvec App.vy App.vz]. unfold slope, h. field.
  - exists [], (Part.translate (Part.Wire [pol])
                  (fcvec (P3 0 (slope * h) h))).
    split; [reflexivity|]. split; [repeat constructor|].
    split; reflexivity.
Qed.

Lemma rack_helix_leans_by_beta_witness :
  exists pol top,
    @InvoluteGearRack.generate_gear_shape Fixture.requests
      Fixture.rack_update Fixture.rack_compute_properties Fixture.rack_points
      (Fixture.rack_helical false)
    = Ok (Part.makeLoft [pol; top] true false) /\
    Geometry.offset_of top = App.vec 0 (tan (45 * PI / 180) * 5) 5.
Proof.
  destruct (@rack_helix_leans_by_beta Fixture.requests
              Fixture.rack_update Fixture.rack_compute_properties
              Fixture.rack_points (Fixture.rack_helical false)
              (Part.Wire
                 [@PartMore.makePolygon Fixture.requests
                    (map fcvec [P2 0 0; P2 1 0; P2 1 1; P2 0 1])]))
    as [mid [top [E [_ [Ho Hm]]]]].
  - reflexivity.
  - simpl. lra.
  - simpl. lra.
  - simpl in Hm. subst mid. eexists. exists top. split; [exact E|exact Ho].
Defined.

(** ** The profile timing gear *)

Lemma Int_part_2 : Int_part 2 = 2%Z.
Proof.
  unfold Int_part. rewrite <- (up_tech 2 2); [reflexivity|lra|].
  change (IZR (2 + 1)) with 3. lra.
Qed.

Lemma math_pow_2 (x : R) : math.pow x 2 = Ok (x * x).
Proof.
  unfold math.pow. rewrite Int_part_2.
  destruct (Req_dec_T 2 2) as [_|N]; [|contradiction].
  assert (E : powerRZ x 2 = x * x) by (simpl; ring).
  rewrite E.
  destruct (Req_dec_T x 0); [|reflexivity].
  destruct (Rlt_dec 2 0); [lra|reflexivity].
Qed.

Lemma segment_ends_joined (p : R * R) (l : list (R * R)) :
  Chain.joined (ProfileTimingGear.segment_ends p l).
Proof.
  revert p. induction l as [|pt rest IH]; intros p; [exact I|].
  destruct rest as [|q rest]; [exact I|].
  split; [reflexivity|]. apply IH.
Qed.

Lemma segment_ends_snd (p : R * R) (l : list (R * R)) :
  map snd (ProfileTimingGear.segment_ends p l)
  = map (fun q => App.vec (fst q) (snd q) 0) l.
Proof.
  revert p. induction l as [|pt rest IH]; intros p; [reflexivity|].
  cbn [ProfileTimingGear.segment_ends map snd]. now rewrite IH.
Qed.

Lemma segment_ends_ring (p : R * R) (l : list (R * R)) :
  Outline.last_opt l = Some p ->
  Chain.ring (ProfileTimingGear.segment_ends p l).
Proof.
  intros H. split; [apply segment_ends_joined|].
  destruct l as [|pt rest]; [discriminate H|].
  exists (App.vec (fst p) (snd p) 0, App.vec (fst pt) (snd pt) 0).
  assert (L : Outline.last_opt
                (map snd (ProfileTimingGear.segment_ends p (pt :: rest)))
              = Some (App.vec (fst p) (snd p) 0)).
  { rewrite segment_ends_snd, last_opt_map, H. reflexivity. }
  rewrite last_opt_map in L.
  destruct (Outline.last_opt (ProfileTimingGear.segment_ends p (pt :: rest)))
    as [b|]; [|discriminate L].
  exists b. split; [reflexivity|]. split; [reflexivity|].
  simpl in L. now injection L.
Qed.

Lemma polygon_not_empty (tp : ProfileTimingGear.belt) :
  ProfileTimingGear.polygon (ProfileTimingGear.data tp) <> [].
Proof.
  destruct tp; cbv [ProfileTimingGear.data ProfileTimingGear.polygon];
    discriminate.
Qed.

Lemma last_opt_not_empty {A} (l : list A) :
  l <> [] -> exists x, Outline.last_opt l = Some x.
Proof.
  intros H. unfold Outline.last_opt.
  destruct (rev l) as [|x r] eqn:E; [|now exists x].
  apply (f_equal (@rev A)) in E. rewrite rev_involutive in E.
  now destruct H.
Qed.

Lemma profile_cut_loop `{K : PartMore.Requests}
    (fp : ProfileTimingGear.FeaturePython) (wire g0 : Part.Shape) (n : nat) :
  IZR (ProfileTimingGear.teeth fp) <> 0 ->
  let step := PI * 2 / IZR (ProfileTimingGear.teeth fp) in
  foldM (ProfileTimingGear.turn_and_cut fp wire) (range (Z.of_nat n))
        (App.identity, g0)
  = Ok (Nat.iter n (App.rotateZ step) App.identity,
        fold_left
          (fun g k =>
             Part.cut g
               [Part.Face
                  [Part.transformGeometry wire
                     (Nat.iter k (App.rotateZ step) App.identity)]])
          (seq 1 n) g0).
Proof.
  intros Hz step. induction n as [|n IH]; [reflexivity|].
  rewrite range_succ, foldM_app, IH. cbn [bind foldM].
  unfold ProfileTimingGear.turn_and_cut.
  rewrite truediv_ok by exact Hz. cbn [bind].
  rewrite seq_S, fold_left_app. reflexivity.
Qed.

Lemma cuts_blank (f : nat -> Part.Shape) (l : list nat) (g0 : Part.Shape) :
  Geometry.blank (fold_left (fun g k => Part.cut g [f k]) l g0)
  = Geometry.blank g0.
Proof.
  revert g0. induction l as [|k l IH]; intros g0; [reflexivity|].
  cbn [fold_left]. now rewrite IH.
Qed.

Lemma cuts_cutters (f : nat -> Part.Shape) (l : list nat) (g0 : Part.Shape) :
  Geometry.cutters (fold_left (fun g k => Part.cut g [f k]) l g0)
  = Geometry.cutters g0 ++ map f l.
Proof.
  revert g0. induction l as [|k l IH]; intros g0.
  - cbn [fold_left map]. now rewrite app_nil_r.
  - cbn [fold_left map]. rewrite IH. cbn [Geometry.cutters].
    now rewrite <- app_assoc.
Qed.

Lemma cuts_thickness (f : nat -> Part.Shape) (l : list nat)
    (g0 : Part.Shape) :
  Geometry.thickness_of (fold_left (fun g k => Part.cut g [f k]) l g0)
  = match l with [] => Geometry.thickness_of g0 | _ => 0 end.
Proof.
  destruct l as [|k l] using rev_ind; [reflexivity|].
  rewrite fold_left_app. cbn [fold_left Geometry.thickness_of].
  destruct l; reflexivity.
Qed.

(** X30. For a belt type given by pitch and offset, at least one tooth and
    a tooth width that the additional width does not cancel, the radius [r]
    of the pulley puts the pitch line of the belt, [offset] outside it, on
    a circle whose circumference is [teeth] times [pitch].  Generation
    raises [ValueError] when [r] is less than the half width of the cutter
    (as with too few teeth), and otherwise returns the disk of radius [r],
    extruded by the height, from which one cutter per tooth is cut: the
    face of the tooth wire, as built and under the turns by 1, 2, ...
    [teeth - 1] times [2 * PI / teeth] about the axis.  The tooth wire is a
    closed ring of line segments, one ending at each point of the belt
    polygon, scaled in width and moved towards the axis by
    [sqrt (r * r - teeth_radius * teeth_radius)]. *)
Theorem profile_timing_gear_is_disk_cut_per_tooth `{K : PartMore.Requests}
    (fp : ProfileTimingGear.FeaturePython) (pitch offset : R) :
  ProfileTimingGear.size (ProfileTimingGear.data (ProfileTimingGear.type fp))
  = ProfileTimingGear.by_pitch pitch offset ->
  (1 <= ProfileTimingGear.teeth fp)%Z ->
  ProfileTimingGear.teeth_width
    (ProfileTimingGear.data (ProfileTimingGear.type fp))
  + ProfileTimingGear.additional_teeth_width fp <> 0 ->
  let t := ProfileTimingGear.teeth fp in
  let gt_data := ProfileTimingGear.data (ProfileTimingGear.type fp) in
  let tr := ProfileTimingGear.teeth_radius fp in
  let scale :=
    ProfileTimingGear.teeth_width gt_data
    / (ProfileTimingGear.teeth_width gt_data
       + ProfileTimingGear.additional_teeth_width fp) in
  let step := PI * 2 / IZR t in
  exists r,
    ProfileTimingGear.radius fp = Ok r /\
    2 * PI * (r + offset) = IZR t * pitch /\
    (r * r < tr * tr ->
     ProfileTimingGear.generate_gear_shape fp = Raise ValueError) /\
    (tr * tr <= r * r ->
     exists ends s,
       let wire :=
         Part.Wire (map (fun '(a, b) => PartMore.LineSegment a b) ends) in
       ProfileTimingGear.generate_gear_shape fp = Ok s /\
       Geometry.blank s = Part.Face [Part.Wire [PartMore.Circle r]] /\
       Geometry.thickness_of s = ProfileTimingGear.height fp /\
       Geometry.cutters s
       = Part.Face [wire]
         :: map (fun k =>
                   Part.Face
                     [Part.transformGeometry wire
                        (Nat.iter k (App.rotateZ step) App.identity)])
                (seq 1 (Z.to_nat (t - 1))) /\
       length (Geometry.cutters s) = Z.to_nat t /\
       (forall k v,
          App.apply (Nat.iter k (App.rotateZ step) App.identity) v
          = App.rotate_about (App.vec 0 0 0) (INR k * step) v) /\
       Chain.ring ends /\
       map snd ends
       = map (fun p =>
                App.vec (fst p * scale) (snd p - sqrt (r * r - tr * tr)) 0)
             (ProfileTimingGear.polygon gt_data)).
Proof.
  intros Hsize Ht Hw t gt_data tr scale step.
  assert (Hz : IZR t <> 0) by (apply not_0_IZR; unfold t; lia).
  assert (Hpi : PI <> 0) by (pose proof PI_RGT_0; lra).
  set (r := IZR t * pitch / (2 * PI) - offset).
  assert (Hr : ProfileTimingGear.radius fp = Ok r).
  { unfold ProfileTimingGear.radius, ProfileTimingGear.od.
    rewrite Hsize. cbn [bind]. f_equal. unfold r, t. field. exact Hpi. }
  exists r. split; [exact Hr|].
  split; [unfold r; field; exact Hpi|].
  assert (Hd : ProfileTimingGear.teeth_distance_from_center fp
               = math.sqrt (r * r - tr * tr)).
  { unfold ProfileTimingGear.teeth_distance_from_center.
    rewrite Hr. cbn [bind]. rewrite !math_pow_2. reflexivity. }
  split.
  - intros Hlt. unfold ProfileTimingGear.generate_gear_shape.
    rewrite Hr. cbn [bind]. unfold ProfileTimingGear.placed_polygon.
    rewrite Hd. unfold math.sqrt.
    destruct (Rlt_dec (r * r - tr * tr) 0) as [_|N]; [reflexivity|lra].
  - intros Hle.
    assert (Hp : ProfileTimingGear.placed_polygon fp
                 = Ok (map (fun p =>
                              (fst p * scale,
                               snd p - sqrt (r * r - tr * tr)))
                           (ProfileTimingGear.polygon gt_data))).
    { unfold ProfileTimingGear.placed_polygon. rewrite Hd. unfold math.sqrt.
      destruct (Rlt_dec (r * r - tr * tr) 0) as [N|_]; [lra|].
      cbn [bind]. unfold ProfileTimingGear.teeth_scale.
      rewrite truediv_ok by exact Hw. cbn [bind]. f_equal.
      rewrite map_map. apply map_ext. intros [x y]. reflexivity. }
    set (placed := map (fun p => (fst p * scale,
                                  snd p - sqrt (r * r - tr * tr)))
                       (ProfileTimingGear.polygon gt_data)) in *.
    destruct (last_opt_not_empty placed) as [last Hlast].
    { unfold placed. intros E. apply map_eq_nil in E.
      now apply (polygon_not_empty (ProfileTimingGear.type fp)). }
    exists (ProfileTimingGear.segment_ends last placed).
    set (wire := Part.Wire
                   (map (fun '(a, b) => PartMore.LineSegment a b)
                        (ProfileTimingGear.segment_ends last placed))).
    set (g0 := Part.cut (Part.Face [Part.Wire [PartMore.Circle r]])
                 [Part.Face [wire]]).
    set (f := fun k : nat =>
                Part.Face
                  [Part.transformGeometry wire
                     (Nat.iter k (App.rotateZ step) App.identity)]).
    set (gear := fold_left (fun g k => Part.cut g [f k])
                   (seq 1 (Z.to_nat (t - 1))) g0).
    assert (Hg : ProfileTimingGear.generate_gear_shape fp
                 = if Req_dec_T (ProfileTimingGear.height fp) 0
                   then Ok gear
                   else Ok (Part.extrude gear
                              (App.vec 0 0 (ProfileTimingGear.height fp)))).
    { unfold ProfileTimingGear.generate_gear_shape.
      rewrite Hr. cbn [bind]. rewrite Hp. cbn [bind].
      unfold ProfileTimingGear.lines. rewrite Hlast. cbn [bind].
      replace (ProfileTimingGear.teeth fp - 1)%Z
        with (Z.of_nat (Z.to_nat (t - 1))) by (unfold t; lia).
      rewrite profile_cut_loop by exact Hz. cbn [bind]. reflexivity. }
    assert (Hb : Geometry.blank gear
                 = Part.Face [Part.Wire [PartMore.Circle r]]).
    { unfold gear. rewrite cuts_blank. reflexivity. }
    assert (Hc : Geometry.cutters gear
                 = Part.Face [wire] :: map f (seq 1 (Z.to_nat (t - 1)))).
    { unfold gear. rewrite cuts_cutters. reflexivity. }
    assert (Hth : Geometry.thickness_of gear = 0).
    { unfold gear. rewrite cuts_thickness.
      destruct (seq 1 (Z.to_nat (t - 1))); reflexivity. }
    assert (Hrest :
              length (Part.Face [wire] :: map f (seq 1 (Z.to_nat (t - 1))))
              = Z.to_nat t /\
              (forall k v,
                 App.apply (Nat.iter k (App.rotateZ step) App.identity) v
                 = App.rotate_about (App.vec 0 0 0) (INR k * step) v) /\
              Chain.ring (ProfileTimingGear.segment_ends last placed) /\
              map snd (ProfileTimingGear.segment_ends last placed)
              = map (fun p =>
                       App.vec (fst p * scale)
                               (snd p - sqrt (r * r - tr * tr)) 0)
                    (ProfileTimingGear.polygon gt_data)).
    { split; [|split; [|split]].
      - cbn [length]. rewrite length_map, length_seq. unfold t. lia.
      - intros k v. apply apply_iter_rotateZ.
      - now apply segment_ends_ring.
      - rewrite segment_ends_snd. unfold placed. rewrite map_map.
        reflexivity. }
    destruct (Req_dec_T (ProfileTimingGear.height fp) 0) as [E|N].
    + exists gear. split; [exact Hg|]. split; [exact Hb|].
      split; [now rewrite Hth|]. split; [exact Hc|].
      rewrite Hc. exact Hrest.
    + exists (Part.extrude gear (App.vec 0 0 (ProfileTimingGear.height fp))).
      split; [exact Hg|]. split; [exact Hb|].
      split; [cbn [Geometry.thickness_of App.vz]; rewrite Hth; ring|].
      split; [exact Hc|].
      cbn [Geometry.cutters]. rewrite Hc. exact Hrest.
Qed.

Lemma profile_timing_gear_is_disk_cut_per_tooth_witness :
  exists r s,
    @ProfileTimingGear.radius Fixture.profile_timing = Ok r /\
    2 * PI * (r + 0.5715) = IZR 24 * 5.0 /\
    @ProfileTimingGear.generate_gear_shape Fixture.requests
      Fixture.profile_timing = Ok s /\
    Geometry.thickness_of s = 9.3 /\
    length (Geometry.cutters s) = 24%nat.
Proof.
  destruct (@profile_timing_gear_is_disk_cut_per_tooth Fixture.requests
              Fixture.profile_timing 5.0 0.5715)
    as [r [Hr [Hp [_ Hok]]]].
  - reflexivity.
  - simpl. lia.
  - simpl. lra.
  - destruct Hok as [ends [s [Hs [_ [Hth [_ [Hlen _]]]]]]].
    + simpl in Hp.
      assert (B : 15 <= r + 0.5715) by (pose proof PI_4; pose proof PI_RGT_0; nra).
      unfold ProfileTimingGear.teeth_radius. simpl. nra.
    + exists r, s. split; [exact Hr|]. split; [exact Hp|].
      split; [exact Hs|]. split; [exact Hth|exact Hlen].
Defined.
